(** * CraftCom: rate limiter, conversation context, command extractor and
      safety validator

    A shallow embedding of the Go sources
      - [pkg/gemini/models.go]  (RateLimiter),
      - [pkg/gemini/chat.go]    (Chat.Send, Chat.SendWithFiles,
                                 extractCommandAndOutput, isValidCommand,
                                 createPartFromContent),
      - [pkg/types/platform.go] (IsPrivilegedOperation),
      - the [types] package files holding CommandExecutor and FileReader,
      - [pkg/types/errors.go]   (CustomError),
      - the [libterma] package  (Config.ValidateCommand, Terma.addToHistory),
      - [cmd/craftcom/main.go]  (extractCommands),
    followed by the properties of these functions. *)

From Stdlib Require Import ZArith Lia List Bool String Ascii Permutation.
Import ListNotations.

Local Open Scope Z_scope.

(* ===================================================================== *)
(** ** Go's [int] on a 64-bit platform *)
(* ===================================================================== *)

Module GoInt.

Definition min_int : Z := - 2 ^ 63.
Definition max_int : Z := 2 ^ 63 - 1.

(** A value a Go [int] variable can hold. *)
Definition in_range (z : Z) : Prop := min_int <= z <= max_int.

(** Two's-complement wrap-around of a mathematical result. *)
Definition wrap (z : Z) : Z := (z + 2 ^ 63) mod 2 ^ 64 - 2 ^ 63.

(** [x + y] and [x++] on [int]. *)
Definition add (x y : Z) : Z := wrap (x + y).
Definition incr (x : Z) : Z := add x 1.

End GoInt.

(* ===================================================================== *)
(** ** The part of package [time] the limiter uses *)
(* ===================================================================== *)

Module GoTime.

(** An instant, in nanoseconds on one time line whose origin is Go's zero
    [Time].  The wall clock and the monotonic clock are taken to agree. *)
Definition Time : Type := Z.

(** [time.Duration]: an [int64] count of nanoseconds. *)
Definition Duration : Type := Z.

Definition Nanosecond : Duration := 1.
Definition Second : Duration := 1000000000 * Nanosecond.
Definition Minute : Duration := 60 * Second.
Definition Hour : Duration := 60 * Minute.

Definition minDuration : Duration := GoInt.min_int.
Definition maxDuration : Duration := GoInt.max_int.

(** [t.Sub(u)]: the difference, saturated to the range of [Duration]. *)
Definition Sub (t u : Time) : Duration :=
  if t - u <? minDuration then minDuration
  else if maxDuration <? t - u then maxDuration
  else t - u.

(** [t.Add(d)]. *)
Definition Add (t : Time) (d : Duration) : Time := t + d.

(** [t.Truncate(d)]: round [t] down to a multiple of [d] since the zero
    time; [t] itself when [d <= 0]. *)
Definition Truncate (t : Time) (d : Duration) : Time :=
  if d <=? 0 then t else t - t mod d.

End GoTime.

(* ===================================================================== *)
(** ** pkg/types/errors.go *)
(* ===================================================================== *)

Module Errors.

Inductive ErrorType : Type :=
| ErrConfiguration | ErrExecution | ErrPermission | ErrNetwork | ErrTimeout
| ErrValidation | ErrRateLimit | ErrModel | ErrSystem | ErrInput.

(** The string constant behind each [ErrorType]. *)
Definition ErrorType_string (t : ErrorType) : string :=
  match t with
  | ErrConfiguration => "configuration_error"
  | ErrExecution => "execution_error"
  | ErrPermission => "permission_error"
  | ErrNetwork => "network_error"
  | ErrTimeout => "timeout_error"
  | ErrValidation => "validation_error"
  | ErrRateLimit => "rate_limit_error"
  | ErrModel => "model_error"
  | ErrSystem => "system_error"
  | ErrInput => "input_error"
  end%string.

(** An argument handed to [fmt.Sprintf].  Durations that the source
    converts with [Seconds()] or [Hours()] and prints with [%.0f] are kept
    as the duration itself: the float conversion is not modelled. *)
Inductive Arg : Type :=
| ArgInt (n : Z)
| ArgString (s : string)
| ArgSeconds (d : GoTime.Duration)
| ArgHours (d : GoTime.Duration).

(** Message texts.  [Text] is a finished string; [Sprintf] is a format
    with its arguments, left unrendered where a numeric verb occurs;
    [ErrorString t m] is what [Error()] returns for a [CustomError] of
    type [t], message [m] and nil cause: the text "t: m". *)
Inductive Message : Type :=
| Text (s : string)
| Sprintf (format : string) (args : list Arg)
| ErrorString (t : ErrorType) (m : Message).

Record CustomError : Type := mkCustomError {
  Type_ : ErrorType;
  Message_ : Message;
  Cause : option Message
}.

Definition NewCustomError (errType : ErrorType) (message : Message)
           (cause : option Message) : CustomError :=
  mkCustomError errType message cause.

(** The method [Error()] of [CustomError], for a nil cause. *)
Definition Error (e : CustomError) : Message := ErrorString (Type_ e) (Message_ e).

Definition ErrRateLimitf (format : string) (args : list Arg) : CustomError :=
  NewCustomError ErrRateLimit (Sprintf format args) None.

(** [ErrValidationf] and [ErrPermissionf] are only called with formats whose
    verbs are all [%s] (or none): the text is rendered by the caller. *)
Definition ErrValidationf (rendered : string) : CustomError :=
  NewCustomError ErrValidation (Text rendered) None.

Definition ErrPermissionf (rendered : string) : CustomError :=
  NewCustomError ErrPermission (Text rendered) None.

Definition ErrExecutionf (rendered : string) : CustomError :=
  NewCustomError ErrExecution (Text rendered) None.

Definition IsErrorType (err : option CustomError) (errType : ErrorType) : bool :=
  match err with
  | Some e =>
      match Type_ e, errType with
      | ErrConfiguration, ErrConfiguration | ErrExecution, ErrExecution
      | ErrPermission, ErrPermission | ErrNetwork, ErrNetwork
      | ErrTimeout, ErrTimeout | ErrValidation, ErrValidation
      | ErrRateLimit, ErrRateLimit | ErrModel, ErrModel
      | ErrSystem, ErrSystem | ErrInput, ErrInput => true
      | _, _ => false
      end
  | None => false
  end.

End Errors.

(* ===================================================================== *)
(** ** A state monad with a clock *)
(* ===================================================================== *)

(** Every call of [time.Now()] consumes one reading of the clock.  The clock
    is the sequence of its readings; the state carries how many were taken. *)
Module Clocked.

Definition Clock : Type := nat -> GoTime.Time.

Definition M (St A : Type) : Type := Clock -> nat -> St -> A * nat * St.

Definition ret {St A} (a : A) : M St A := fun _ t s => (a, t, s).

Definition bind {St A B} (m : M St A) (f : A -> M St B) : M St B :=
  fun clk t s =>
    match m clk t s with
    | (a, t', s') => f a clk t' s'
    end.

Definition get {St} : M St St := fun _ t s => (s, t, s).
Definition put {St} (s : St) : M St unit := fun _ t _ => (tt, t, s).
Definition modify {St} (f : St -> St) : M St unit := fun _ t s => (tt, t, f s).

(** [time.Now()]. *)
Definition Now {St} : M St GoTime.Time := fun clk t s => (clk t, S t, s).

(** [time.Until(u)] is [u.Sub(time.Now())]. *)
Definition Until {St} (u : GoTime.Time) : M St GoTime.Duration :=
  fun clk t s => (GoTime.Sub u (clk t), S t, s).

(** Run a method of a component inside a larger state. *)
Definition zoom {St T A} (proj : T -> St) (upd : T -> St -> T) (m : M St A) : M T A :=
  fun clk t s =>
    match m clk t (proj s) with
    | (a, t', s') => (a, t', upd s s')
    end.

Definition result {St A} (x : A * nat * St) : A := fst (fst x).
Definition ticks {St A} (x : A * nat * St) : nat := snd (fst x).
Definition state {St A} (x : A * nat * St) : St := snd x.

End Clocked.

Declare Scope clocked_scope.
Delimit Scope clocked_scope with clocked.
Notation "x <- c1 ;; c2" := (Clocked.bind c1 (fun x => c2))
  (at level 61, c1 at next level, right associativity) : clocked_scope.
Notation "c1 ;; c2" := (Clocked.bind c1 (fun _ => c2))
  (at level 61, right associativity) : clocked_scope.

(* ===================================================================== *)
(** ** pkg/gemini/models.go: the rate limiter *)
(* ===================================================================== *)

Module RL.

Import GoTime Errors Clocked.
Local Open Scope clocked_scope.
Local Open Scope string_scope.

(** The fields of [ModelConfig] the limiter reads. *)
Record ModelConfig : Type := mkModelConfig {
  Name : string;
  RPM : Z;
  TPM : Z;
  RPD : Z
}.

Record UsageRecord : Type := mkUsageRecord {
  Timestamp : Time;
  RequestType : string;
  TokenCount : Z;
  Model : string;
  Success : bool;
  Error : option CustomError
}.

Record RateLimiter : Type := mkRateLimiter {
  requestCount : Z;
  tokenCount : Z;
  lastReset : Time;
  dailyCount : Z;
  dailyReset : Time;
  config : ModelConfig;
  usageHistory : list UsageRecord
}.

Definition set_requestCount (v : Z) (r : RateLimiter) : RateLimiter :=
  mkRateLimiter v (tokenCount r) (lastReset r) (dailyCount r) (dailyReset r)
                (config r) (usageHistory r).
Definition set_tokenCount (v : Z) (r : RateLimiter) : RateLimiter :=
  mkRateLimiter (requestCount r) v (lastReset r) (dailyCount r) (dailyReset r)
                (config r) (usageHistory r).
Definition set_lastReset (v : Time) (r : RateLimiter) : RateLimiter :=
  mkRateLimiter (requestCount r) (tokenCount r) v (dailyCount r) (dailyReset r)
                (config r) (usageHistory r).
Definition set_dailyCount (v : Z) (r : RateLimiter) : RateLimiter :=
  mkRateLimiter (requestCount r) (tokenCount r) (lastReset r) v (dailyReset r)
                (config r) (usageHistory r).
Definition set_dailyReset (v : Time) (r : RateLimiter) : RateLimiter :=
  mkRateLimiter (requestCount r) (tokenCount r) (lastReset r) (dailyCount r) v
                (config r) (usageHistory r).
Definition set_usageHistory (v : list UsageRecord) (r : RateLimiter) : RateLimiter :=
  mkRateLimiter (requestCount r) (tokenCount r) (lastReset r) (dailyCount r)
                (dailyReset r) (config r) v.

(** [NewRateLimiter]: the two [time.Now()] calls of the struct literal are
    evaluated in source order. *)
Definition NewRateLimiter {St} (config : ModelConfig) : M St RateLimiter :=
  t1 <- Now ;;
  t2 <- Now ;;
  ret (mkRateLimiter 0 0 t1 0 t2 config []).

Definition recordUsage (requestType : string) (tokenCount : Z) (success : bool)
           (err : option CustomError) : M RateLimiter unit :=
  ts <- Now ;;
  r <- get ;;
  let record := mkUsageRecord ts requestType tokenCount (Name (config r)) success err in
  let h := (usageHistory r ++ [record])%list in
  (* Keep only last 1000 records *)
  put (set_usageHistory (if (1000 <? Z.of_nat (List.length h))%Z then List.tl h else h) r).

Definition resetMinuteCounts (now : Time) : M RateLimiter unit :=
  r <- get ;;
  (* Only reset if we've passed the minute boundary *)
  if (Minute <=? Sub now (lastReset r))%Z then
    modify (set_requestCount 0) ;;
    modify (set_tokenCount 0) ;;
    modify (set_lastReset (Truncate now Minute)) ;;
    recordUsage "minute_reset" 0 true None
  else ret tt.

Definition resetDailyCounts (now : Time) : M RateLimiter unit :=
  modify (set_dailyCount 0) ;;
  modify (set_dailyReset now) ;;
  recordUsage "daily_reset" 0 true None.

(** The three message formats of [checkLimitExceeded]; its result is the
    [Error()] text of the error built by [ErrRateLimitf]. *)
Definition fmtRPM := "RPM limit reached (%d/%d). Try again in %.0f seconds".
Definition fmtTPM := "TPM limit reached (%d/%d). Try again in %.0f seconds".
Definition fmtDaily := "Daily limit reached (%d/%d). Try again in %.0f hours".

Definition checkLimitExceeded : M RateLimiter (bool * Message) :=
  r <- get ;;
  if (RPM (config r) <=? requestCount r)%Z then
    waitTime <- Until (Add (lastReset r) Minute) ;;
    ret (true, Errors.Error (ErrRateLimitf fmtRPM
           [ArgInt (requestCount r); ArgInt (RPM (config r)); ArgSeconds waitTime]))
  else if (TPM (config r) <=? tokenCount r)%Z then
    waitTime <- Until (Add (lastReset r) Minute) ;;
    ret (true, Errors.Error (ErrRateLimitf fmtTPM
           [ArgInt (tokenCount r); ArgInt (TPM (config r)); ArgSeconds waitTime]))
  else if (RPD (config r) <=? dailyCount r)%Z then
    waitTime <- Until (Add (dailyReset r) (24 * Hour)) ;;
    ret (true, Errors.Error (ErrRateLimitf fmtDaily
           [ArgInt (dailyCount r); ArgInt (RPD (config r)); ArgHours waitTime]))
  else ret (false, Text "").

(** The first part of [CheckLimit]: "Reset counters if needed". *)
Definition rollWindows (now : Time) : M RateLimiter unit :=
  r <- get ;;
  (if (Minute <=? Sub now (lastReset r))%Z then resetMinuteCounts now else ret tt) ;;
  r <- get ;;
  (if (24 * Hour <=? Sub now (dailyReset r))%Z then resetDailyCounts now else ret tt).

(** The second part of [CheckLimit]: "Check limits", "Increment counters". *)
Definition admission : M RateLimiter (option CustomError) :=
  e <- checkLimitExceeded ;;
  if fst e then ret (Some (NewCustomError ErrRateLimit (snd e) None))
  else
    r <- get ;;
    put (set_requestCount (GoInt.incr (requestCount r)) r) ;;
    r <- get ;;
    put (set_dailyCount (GoInt.incr (dailyCount r)) r) ;;
    ret None.

Definition CheckLimit : M RateLimiter (option CustomError) :=
  now <- Now ;;
  rollWindows now ;;
  admission.

Definition fmtTokens := "Token limit exceeded: %d/%d tokens per minute".

Definition TrackTokens (count : Z) : M RateLimiter (option CustomError) :=
  r <- get ;;
  put (set_tokenCount (GoInt.add (tokenCount r) count) r) ;;
  recordUsage "token_update" count true None ;;
  r <- get ;;
  if (TPM (config r) <=? tokenCount r)%Z then
    ret (Some (ErrRateLimitf fmtTokens [ArgInt (tokenCount r); ArgInt (TPM (config r))]))
  else ret None.

Definition Reset : M RateLimiter unit :=
  now <- Now ;;
  resetMinuteCounts now ;;
  resetDailyCounts now ;;
  recordUsage "manual_reset" 0 true None.

(** The error [CheckLimit] returns around a message of [checkLimitExceeded]. *)
Definition refusal (fmt : string) (count limit : Z) (wait : Duration)
           (hours : bool) : CustomError :=
  NewCustomError ErrRateLimit
    (Errors.Error (ErrRateLimitf fmt
       [ArgInt count; ArgInt limit; if hours then ArgHours wait else ArgSeconds wait]))
    None.

(** The counters and the ceilings are values of Go's [int]. *)
Definition well_typed (r : RateLimiter) : Prop :=
  GoInt.in_range (requestCount r) /\ GoInt.in_range (tokenCount r) /\
  GoInt.in_range (dailyCount r) /\ GoInt.in_range (RPM (config r)) /\
  GoInt.in_range (TPM (config r)) /\ GoInt.in_range (RPD (config r)).

(** [n] calls of [CheckLimit] in a row, with their results in call order. *)
Fixpoint CheckLimits (n : nat) : M RateLimiter (list (option CustomError)) :=
  match n with
  | O => ret []
  | S n' =>
      e <- CheckLimit ;;
      es <- CheckLimits n' ;;
      ret (e :: es)
  end.

End RL.

(* ===================================================================== *)
(** ** The part of package [strings] the program uses *)
(* ===================================================================== *)

(** A Go string is a sequence of bytes; text is UTF-8.  [string] is used as
    that sequence, one [ascii] per byte. *)
Module Strings.

Local Open Scope string_scope.
Local Open Scope char_scope.

Definition tab : ascii := "009".
Definition nl : ascii := "010".
Definition vt : ascii := "011".
Definition ff : ascii := "012".
Definition cr : ascii := "013".
Definition dquote : ascii := "034".

Definition byte (n : nat) : ascii := ascii_of_nat n.

(** [c] followed by nothing. *)
Definition str1 (c : ascii) : string := String c EmptyString.

Fixpoint HasPrefix (s prefix : string) {struct prefix} : bool :=
  match prefix, s with
  | EmptyString, _ => true
  | String _ _, EmptyString => false
  | String a prefix', String b s' => Ascii.eqb a b && HasPrefix s' prefix'
  end.

Fixpoint drop (n : nat) (s : string) : string :=
  match n, s with
  | O, _ => s
  | S n', String _ s' => drop n' s'
  | S _, EmptyString => EmptyString
  end.

Fixpoint take (n : nat) (s : string) : string :=
  match n, s with
  | O, _ => EmptyString
  | S n', String c s' => String c (take n' s')
  | S _, EmptyString => EmptyString
  end.

Definition TrimPrefix (s prefix : string) : string :=
  if HasPrefix s prefix then drop (String.length prefix) s else s.

Fixpoint Contains (s substr : string) : bool :=
  HasPrefix s substr ||
  match s with
  | EmptyString => false
  | String _ s' => Contains s' substr
  end.

Fixpoint mem (c : ascii) (chars : string) : bool :=
  match chars with
  | EmptyString => false
  | String d chars' => Ascii.eqb c d || mem c chars'
  end.

(** [ContainsAny] is only called with sets of ASCII characters: a byte of
    [s] is one of them exactly when a code point of [s] is. *)
Fixpoint ContainsAny (s chars : string) : bool :=
  match s with
  | EmptyString => false
  | String c s' => mem c chars || ContainsAny s' chars
  end.

(** [Split(s, sep)] for the one-byte separator [sep]. *)
Fixpoint Split (s : string) (sep : ascii) : list string :=
  match s with
  | EmptyString => [EmptyString]
  | String c s' =>
      if Ascii.eqb c sep then EmptyString :: Split s' sep
      else match Split s' sep with
           | [] => [str1 c]
           | l :: ls => String c l :: ls
           end
  end.

Definition asciiSpace (c : ascii) : bool :=
  Ascii.eqb c tab || Ascii.eqb c nl || Ascii.eqb c vt || Ascii.eqb c ff ||
  Ascii.eqb c cr || Ascii.eqb c " ".

(** The two-byte UTF-8 encodings of white space: U+0085 and U+00A0. *)
Definition space2 (b1 b2 : ascii) : bool :=
  Ascii.eqb b1 (byte 194) && (Ascii.eqb b2 (byte 133) || Ascii.eqb b2 (byte 160)).

(** The three-byte UTF-8 encodings of white space: U+1680, U+2000 to
    U+200A, U+2028, U+2029, U+202F, U+205F and U+3000. *)
Definition space3 (b1 b2 b3 : ascii) : bool :=
  let n3 := nat_of_ascii b3 in
  (Ascii.eqb b1 (byte 225) && Ascii.eqb b2 (byte 154) && Ascii.eqb b3 (byte 128)) ||
  (Ascii.eqb b1 (byte 226) && Ascii.eqb b2 (byte 128) &&
     ((Nat.leb 128 n3 && Nat.leb n3 138) || Ascii.eqb b3 (byte 168) ||
      Ascii.eqb b3 (byte 169) || Ascii.eqb b3 (byte 175))) ||
  (Ascii.eqb b1 (byte 226) && Ascii.eqb b2 (byte 129) && Ascii.eqb b3 (byte 159)) ||
  (Ascii.eqb b1 (byte 227) && Ascii.eqb b2 (byte 128) && Ascii.eqb b3 (byte 128)).

(** Drop the leading code points for which [unicode.IsSpace] holds. *)
Fixpoint TrimLeftSpace (s : string) : string :=
  match s with
  | EmptyString => s
  | String b1 s1 =>
      if asciiSpace b1 then TrimLeftSpace s1
      else match s1 with
           | EmptyString => s
           | String b2 s2 =>
               if space2 b1 b2 then TrimLeftSpace s2
               else match s2 with
                    | EmptyString => s
                    | String b3 s3 =>
                        if space3 b1 b2 b3 then TrimLeftSpace s3 else s
                    end
           end
  end.

Fixpoint rev (s : string) : string :=
  match s with
  | EmptyString => EmptyString
  | String c s' => rev s' ++ str1 c
  end.

(** The same on the reversed string: the bytes of an encoding come last
    byte first. *)
Fixpoint TrimLeftSpaceRev (s : string) : string :=
  match s with
  | EmptyString => s
  | String b1 s1 =>
      if asciiSpace b1 then TrimLeftSpaceRev s1
      else match s1 with
           | EmptyString => s
           | String b2 s2 =>
               if space2 b2 b1 then TrimLeftSpaceRev s2
               else match s2 with
                    | EmptyString => s
                    | String b3 s3 =>
                        if space3 b3 b2 b1 then TrimLeftSpaceRev s3 else s
                    end
           end
  end.

Definition TrimRightSpace (s : string) : string := rev (TrimLeftSpaceRev (rev s)).

Definition TrimSpace (s : string) : string := TrimRightSpace (TrimLeftSpace s).

Fixpoint isASCII (s : string) : bool :=
  match s with
  | EmptyString => true
  | String c s' => Nat.ltb (nat_of_ascii c) 128 && isASCII s'
  end.

Definition lowerByte (c : ascii) : ascii :=
  let n := nat_of_ascii c in
  if Nat.leb 65 n && Nat.leb n 90 then ascii_of_nat (n + 32) else c.

Fixpoint mapBytes (f : ascii -> ascii) (s : string) : string :=
  match s with
  | EmptyString => EmptyString
  | String c s' => String (f c) (mapBytes f s')
  end.

(** [ToLower]: byte by byte on an ASCII-only string; otherwise
    [Map(unicode.ToLower, s)], whose case tables belong to Go's library
    and are the parameter [unicodeToLower]. *)
Definition ToLower (unicodeToLower : string -> string) (s : string) : string :=
  if isASCII s then mapBytes lowerByte s else unicodeToLower s.

End Strings.

(* ===================================================================== *)
(** ** The part of package [regexp] the program uses *)
(* ===================================================================== *)

(** Go's [regexp] returns the leftmost match and, among the matches that
    start there, the one a backtracking search finds first.  The patterns of
    this program have ASCII literals and classes that exclude ASCII
    characters only, so matching byte by byte and code point by code point
    agree. *)
Module Regexp.

Import Strings.
Local Open Scope string_scope.

Inductive regex : Type :=
| Empty                          (* the empty string *)
| Class (p : ascii -> bool)      (* one character of a class *)
| Cat (r1 r2 : regex)
| Alt (r1 r2 : regex)            (* r1|r2, r1 preferred *)
| Star (greedy : bool) (r : regex) (* r* and r*? *)
| Group (r : regex).             (* the capturing group, number 1 *)

Definition Chr (c : ascii) : regex := Class (Ascii.eqb c).

(** A literal under the flag [i]: either case of an ASCII letter. *)
Definition ChrFold (c : ascii) : regex :=
  Class (fun d => Ascii.eqb (lowerByte d) (lowerByte c)).

Fixpoint Lit (s : string) : regex :=
  match s with
  | EmptyString => Empty
  | String c s' => Cat (Chr c) (Lit s')
  end.

Fixpoint LitFold (s : string) : regex :=
  match s with
  | EmptyString => Empty
  | String c s' => Cat (ChrFold c) (LitFold s')
  end.

(** [r?], [r+], [.], [\s]. *)
Definition Opt (r : regex) : regex := Alt r Empty.
Definition Plus (r : regex) : regex := Cat r (Star true r).
Definition Dot : regex := Class (fun c => negb (Ascii.eqb c nl)).
Definition Space : regex :=
  Class (fun c => Ascii.eqb c tab || Ascii.eqb c nl || Ascii.eqb c ff ||
                  Ascii.eqb c cr || Ascii.eqb c " "%char).

Definition orElse {R} (x y : option R) : option R :=
  match x with
  | Some _ => x
  | None => y
  end.

(** Submatches are positions in the text a match is attempted on, as in
    Go, which hands back the pair of indices of each group. *)
Definition span : Type := (nat * nat)%type.

(** [s[i:j]]. *)
Definition slice (s : string) (sp : span) : string :=
  take (snd sp - fst sp) (drop (fst sp) s).

(** Backtracking matcher in continuation-passing style.  [pos] counts the
    bytes consumed so far and [s] is what is left; [k] receives both after
    [r] matched, and the span of group 1.  An iteration of a star has to
    consume input, so at most [length s] iterations are tried. *)
Fixpoint run {R} (r : regex) (pos : nat) (s : string) (cap : option span)
         (k : nat -> string -> option span -> option R) : option R :=
  match r with
  | Empty => k pos s cap
  | Class p =>
      match s with
      | String c s' => if p c then k (S pos) s' cap else None
      | EmptyString => None
      end
  | Cat r1 r2 => run r1 pos s cap (fun pos' s' cap' => run r2 pos' s' cap' k)
  | Alt r1 r2 => orElse (run r1 pos s cap k) (run r2 pos s cap k)
  | Star greedy r1 =>
      (fix loop (n : nat) (pos : nat) (s : string) (cap : option span)
           {struct n} : option R :=
         let again :=
           match n with
           | O => None
           | S n' =>
               run r1 pos s cap (fun pos' s' cap' =>
                 if Nat.ltb pos pos' then loop n' pos' s' cap' else None)
           end in
         if greedy then orElse again (k pos s cap) else orElse (k pos s cap) again)
        (String.length s) pos s cap
  | Group r1 => run r1 pos s cap (fun pos' s' _ => k pos' s' (Some (pos, pos')))
  end.

(** A match at the start of [s]: the submatches (the whole match, then
    group 1, empty when it took no part) and the text after the match. *)
Definition matchAt (re : regex) (s : string) : option (list string * string) :=
  run re O s None (fun pos' rest cap =>
    Some ([slice s (O, pos');
           match cap with Some sp => slice s sp | None => EmptyString end], rest)).

(** The leftmost match. *)
Fixpoint search (re : regex) (s : string) : option (list string * string) :=
  match matchAt re s with
  | Some m => Some m
  | None =>
      match s with
      | EmptyString => None
      | String _ s' => search re s'
      end
  end.

(** [FindStringSubmatch]: nil when there is no match. *)
Definition FindStringSubmatch (re : regex) (s : string) : list string :=
  match search re s with
  | Some (m, _) => m
  | None => []
  end.

Fixpoint findAll (fuel : nat) (re : regex) (s : string) : list (list string) :=
  match fuel with
  | O => []
  | S fuel' =>
      match search re s with
      | None => []
      | Some (m, rest) =>
          m :: (if Nat.ltb (String.length rest) (String.length s)
                then findAll fuel' re rest else [])
      end
  end.

(** [FindAllStringSubmatch(s, -1)] for a pattern without anchors that
    never matches the empty string: the successive non-overlapping
    matches, leftmost first. *)
Definition FindAllStringSubmatch (re : regex) (s : string) : list (list string) :=
  findAll (S (String.length s)) re s.

End Regexp.

(* ===================================================================== *)
(** ** pkg/gemini/chat.go: the command extractor *)
(* ===================================================================== *)

Module Extract.

Import Strings Regexp.
Local Open Scope string_scope.

(** [genai.Part]: text, or something that is not text (a blob). *)
Inductive Part : Type :=
| Text (t : string)
| Blob (mimeType : string) (data : string).

Record Content : Type := mkContent {
  Parts : list Part;
  Role : string
}.

Definition commonCmds : list string :=
  ["ls"; "cd"; "pwd"; "cp"; "mv"; "rm"; "mkdir"; "touch"; "cat";
   "echo"; "grep"; "find"; "sed"; "awk"; "curl"; "wget"; "git";
   "docker"; "make"; "gcc"; "go"; "python"; "node"; "npm"].

(** The characters of the path test: space, the operators, dollar,
    backtick, backslash, double quote and single quote. *)
Definition pathChars : string := " |&;<>()$`\" ++ str1 dquote ++ "'".

(** [isValidCommand] checks if a string looks like a valid command. *)
Definition isValidCommand (cmd : string) : bool :=
  let cmd := TrimSpace cmd in
  if String.eqb cmd "" then false
  (* just a path: starts with / and contains no spaces or operators *)
  else if HasPrefix cmd "/" && negb (ContainsAny cmd pathChars) then false
  (* starts with a common command *)
  else if existsb (fun prefix => HasPrefix cmd (prefix ++ " ") || String.eqb cmd prefix)
                  commonCmds then true
  (* common operators *)
  else if ContainsAny cmd "|&;<>()" then true
  (* environment variables or subcommands *)
  else if Contains cmd "$" || Contains cmd "`" then true
  else false.

Definition shellTags : regex :=
  Alt (Lit "bash") (Alt (Lit "shell") (Alt (Lit "zsh") (Alt (Lit "cmd") (Lit "powershell")))).

(** The pattern of the fenced code block: three backticks, an optional
    tag, a newline, the lazily captured [.*?], a newline, three backticks. *)
Definition codeBlockRegex : regex :=
  Cat (Lit "```")
    (Cat (Opt shellTags)
      (Cat (Chr nl)
        (Cat (Group (Star false Dot))
          (Cat (Chr nl) (Lit "```"))))).

(** A backtick, the captured [[^`]+], a backtick. *)
Definition inlineCodeRegex : regex :=
  Cat (Chr "`")
    (Cat (Group (Plus (Class (fun c => negb (Ascii.eqb c "`")))))
      (Chr "`")).

(** [(?i)(?:run|execute|command):\s*(.+)]. *)
Definition commandRegex : regex :=
  Cat (Alt (LitFold "run") (Alt (LitFold "execute") (LitFold "command")))
    (Cat (Chr ":")
      (Cat (Star true Space)
        (Group (Plus Dot)))).

(** The concatenation of the text parts. *)
Fixpoint joinText (parts : list Part) (acc : string) : string :=
  match parts with
  | [] => acc
  | Text t :: parts' => joinText parts' (acc ++ t)
  | Blob _ _ :: parts' => joinText parts' acc
  end.

(** The candidate a list of matches offers: group 1 of the first match,
    trimmed. *)
Definition firstGroup (matches : list (list string)) : option string :=
  match matches with
  | (_ :: g :: _) :: _ => Some (TrimSpace g)
  | _ => None
  end.

(** Strategy 1: the first fenced code block. *)
Definition fromCodeBlock (fullOutput : string) : option string :=
  firstGroup (FindAllStringSubmatch codeBlockRegex fullOutput).

(** Strategy 2: the first inline code span. *)
Definition fromInlineCode (fullOutput : string) : option string :=
  firstGroup (FindAllStringSubmatch inlineCodeRegex fullOutput).

Definition isMarked (line : string) : bool :=
  HasPrefix line "$" || HasPrefix line "#" || HasPrefix line ">".

Definition unmark (line : string) : string :=
  TrimSpace (TrimPrefix (TrimPrefix (TrimPrefix line "$") "#") ">").

(** Strategy 3: the loop over the lines; it returns at the first marked
    line whose command is valid. *)
Fixpoint fromMarkedLines (lines : list string) : option string :=
  match lines with
  | [] => None
  | line :: lines' =>
      let line := TrimSpace line in
      if isMarked line && isValidCommand (unmark line) then Some (unmark line)
      else fromMarkedLines lines'
  end.

(** Strategy 4: the keyword pattern. *)
Definition fromKeyword (fullOutput : string) : option string :=
  match FindStringSubmatch commandRegex fullOutput with
  | _ :: g :: _ => Some (TrimSpace g)
  | _ => None
  end.

(** A candidate is returned only when it is valid. *)
Definition accept (candidate : option string) : option string :=
  match candidate with
  | Some command => if isValidCommand command then Some command else None
  | None => None
  end.

Definition extractCommandAndOutput (content : Content) : string * string :=
  let fullOutput := joinText (Parts content) "" in
  (* Try to extract command from markdown code blocks first *)
  match accept (fromCodeBlock fullOutput) with
  | Some command => (command, fullOutput)
  | None =>
  (* If no valid command found in code blocks, try inline code blocks *)
  match accept (fromInlineCode fullOutput) with
  | Some command => (command, fullOutput)
  | None =>
  (* Try to extract from common command indicators *)
  match fromMarkedLines (Split fullOutput nl) with
  | Some command => (command, fullOutput)
  | None =>
  (* If still no command found, look for specific keywords *)
  match accept (fromKeyword fullOutput) with
  | Some command => (command, fullOutput)
  | None => ("", fullOutput)
  end end end end.

(** The reply made of one text part. *)
Definition reply (text : string) : Content := mkContent [Text text] "model".

End Extract.

(* ===================================================================== *)
(** ** pkg/types: the safety validator *)
(* ===================================================================== *)

Module Safety.

Import Strings Errors.
Local Open Scope string_scope.

Section Platform.

(** [runtime.GOOS] and the Unicode lower-case mapping of Go's library. *)
Variable GOOS : string.
Variable unicodeToLower : string -> string.

Definition adminCommands : list string :=
  ["net user"; "net localgroup"; "reg add"; "reg delete"; "sc "; "bcdedit"].

Definition criticalPaths : list string :=
  ["/etc/"; "/usr/"; "/var/"; "/bin/"; "/sbin/"; "C:\Windows\"; "C:\Program Files\"].

(** [IsPrivilegedOperation] checks if a command requires elevated privileges. *)
Definition IsPrivilegedOperation (command : string) : bool :=
  let command := TrimSpace command in
  if HasPrefix command "sudo " || HasPrefix command "su " then true
  else if String.eqb GOOS "windows" &&
          existsb (fun cmd => HasPrefix (ToLower unicodeToLower command)
                                        (ToLower unicodeToLower cmd)) adminCommands
  then true
  else existsb (fun path => Contains command path) criticalPaths.

Definition dangerousCommands : list string :=
  ["rm -rf"; "rmdir /s"; "del /f"; "format"; "mkfs"; ":(){:|:&};:"; "dd";
   "> /dev/sda"; "chmod -R 777"].

(** The test of the deny-list loop. *)
Definition isDangerous (command dangerous : string) : bool :=
  Contains (ToLower unicodeToLower command) (ToLower unicodeToLower dangerous).

(** [ValidateCommand] checks if a command is safe to execute; [None] is
    the nil error. *)
Definition ValidateCommand (command : string) : option CustomError :=
  let command := TrimSpace command in
  if String.eqb command "" then Some (ErrValidationf "empty command")
  else
    match List.find (isDangerous command) dangerousCommands with
    | Some dangerous =>
        Some (ErrPermissionf ("potentially dangerous command detected: " ++ dangerous))
    | None =>
        if IsPrivilegedOperation command &&
           (negb (HasPrefix command "sudo ") && negb (String.eqb GOOS "windows"))
        then Some (ErrPermissionf "this command requires elevated privileges")
        else None
    end.

End Platform.

End Safety.

(* ===================================================================== *)
(** ** pkg/gemini/chat.go: the chat session *)
(* ===================================================================== *)

Module Chat.

Import GoTime Errors Clocked Strings Extract.
Local Open Scope string_scope.
Local Open Scope clocked_scope.

Record SystemInfo : Type := mkSystemInfo {
  OS : string;
  Shell : string;
  User : string;
  HomeDir : string;
  SysWorkingDir : string;
  SysEnvironment : list (string * string)
}.

(** [ChatContext] maintains the current conversation context. *)
Record ChatContext : Type := mkChatContext {
  WorkingDir : string;
  LastCommand : string;
  LastOutput : string;
  Environment : list (string * string);
  SystemInfo_ : SystemInfo;
  LastModified : Time;
  SessionStart : Time;
  CommandCount : Z;
  ErrorCount : Z
}.

Definition set_LastCommand (v : string) (c : ChatContext) : ChatContext :=
  mkChatContext (WorkingDir c) v (LastOutput c) (Environment c) (SystemInfo_ c)
                (LastModified c) (SessionStart c) (CommandCount c) (ErrorCount c).
Definition set_LastModified (v : Time) (c : ChatContext) : ChatContext :=
  mkChatContext (WorkingDir c) (LastCommand c) (LastOutput c) (Environment c)
                (SystemInfo_ c) v (SessionStart c) (CommandCount c) (ErrorCount c).
Definition set_CommandCount (v : Z) (c : ChatContext) : ChatContext :=
  mkChatContext (WorkingDir c) (LastCommand c) (LastOutput c) (Environment c)
                (SystemInfo_ c) (LastModified c) (SessionStart c) v (ErrorCount c).
Definition set_ErrorCount (v : Z) (c : ChatContext) : ChatContext :=
  mkChatContext (WorkingDir c) (LastCommand c) (LastOutput c) (Environment c)
                (SystemInfo_ c) (LastModified c) (SessionStart c) (CommandCount c) v.

(** [NewChatContext], given the result of [GetSystemInfo]. *)
Definition NewChatContext {St} (sysInfo : SystemInfo) : M St ChatContext :=
  t1 <- Now ;;
  t2 <- Now ;;
  ret (mkChatContext (SysWorkingDir sysInfo) "" "" [] sysInfo t2 t1 0 0).

(** The fields of [Chat] that [Send] reads or writes.  The limiter and the
    context are held through pointers; one chat is modelled, so each is
    kept in place. *)
Record Chat : Type := mkChat {
  modelName : string;
  rateLimiter : RL.RateLimiter;
  history : list Content;
  currentContext : ChatContext
}.

Definition set_rateLimiter (c : Chat) (v : RL.RateLimiter) : Chat :=
  mkChat (modelName c) v (history c) (currentContext c).
Definition set_history (v : list Content) (c : Chat) : Chat :=
  mkChat (modelName c) (rateLimiter c) v (currentContext c).
Definition set_currentContext (c : Chat) (v : ChatContext) : Chat :=
  mkChat (modelName c) (rateLimiter c) (history c) v.

(** The entries of [Response.Metadata], but for "context", which holds the
    pointer to the chat's context.  "session_length" is kept as the
    duration, before its conversion to minutes. *)
Record Metadata : Type := mkMetadata {
  model : string;
  timestamp : Time;
  tokens_used : Z;
  command_count : Z;
  error_count : Z;
  session_length : Duration
}.

Record Response : Type := mkResponse {
  Code : string;
  FullOutput : string;
  Metadata_ : Metadata
}.

(** What the backend call [GenerateContent] hands back: an error, or the
    candidates; the content of a candidate may be nil. *)
Inductive Generated : Type :=
| GenerateError (err : string)
| Candidates (contents : list (option Content)).

Definition addContext (c : ChatContext) (message : string) : string :=
  "Current directory: " ++ WorkingDir c ++ str1 nl ++
  "Last command: " ++ LastCommand c ++ str1 nl ++
  "Last output: " ++ LastOutput c ++ str1 nl ++
  "OS: " ++ OS (SystemInfo_ c) ++ str1 nl ++
  "Shell: " ++ Shell (SystemInfo_ c) ++ str1 nl ++
  str1 nl ++
  "User request: " ++ message.

Definition onContext {A} (m : M ChatContext A) : M Chat A :=
  zoom currentContext set_currentContext m.

Definition onLimiter {A} (m : M RL.RateLimiter A) : M Chat A :=
  zoom rateLimiter set_rateLimiter m.

(** [c.currentContext.ErrorCount++] followed by the return of an
    execution error. *)
Definition failExecution (rendered : string) : M Chat (Response + CustomError) :=
  onContext (modify (fun c => set_ErrorCount (GoInt.incr (ErrorCount c)) c)) ;;
  ret (inr (ErrExecutionf rendered)).

Section Backend.

(** The remote model, as the function from the prompt parts to what it
    returns, and the token estimate ([estimateTokenCount] computes it in
    floating point, which is not modelled). *)
Variable GenerateContent : list Part -> Generated.
Variable estimateTokenCount : string -> Z.

(** [Send] sends a message to the chat. *)
Definition Send (message : string) : M Chat (Response + CustomError) :=
  limited <- onLimiter RL.CheckLimit ;;
  match limited with
  | Some err => ret (inr err)
  | None =>
      c <- get ;;
      (* Add context to message *)
      let contextualMessage := addContext (currentContext c) message in
      let parts := [Text contextualMessage] in
      match GenerateContent parts with
      | GenerateError err => failExecution ("failed to generate content: " ++ err)
      | Candidates [] => failExecution "no response generated"
      | Candidates (None :: _) => failExecution "empty response content"
      | Candidates (Some content :: _) =>
          match Parts content with
          | [] => failExecution "empty response content"
          | _ :: _ =>
              (* Extract command and output *)
              let (command, fullOutput) := extractCommandAndOutput content in
              (* Update history *)
              modify (fun c => set_history
                        (history c ++ [mkContent parts "user"; content])%list c) ;;
              (* Update context *)
              onContext (modify (set_LastCommand command)) ;;
              now <- Now ;;
              onContext (modify (set_LastModified now)) ;;
              onContext (modify (fun c => set_CommandCount (GoInt.incr (CommandCount c)) c)) ;;
              (* Estimate token usage *)
              let tokenCount := estimateTokenCount (contextualMessage ++ fullOutput) in
              tracked <- onLimiter (RL.TrackTokens tokenCount) ;;
              match tracked with
              | Some err => ret (inr err)
              | None =>
                  ts <- Now ;;
                  c <- get ;;
                  since <- Now ;;
                  ret (inl (mkResponse command fullOutput
                              (mkMetadata (modelName c) ts tokenCount
                                 (CommandCount (currentContext c))
                                 (ErrorCount (currentContext c))
                                 (Sub since (SessionStart (currentContext c))))))
              end
          end
      end
  end.

End Backend.

End Chat.

(* ===================================================================== *)
(** ** Vocabulary of the properties, and the inputs of the examples *)
(* ===================================================================== *)

(** Occurrences of a byte in a string. *)
Fixpoint count (c : ascii) (s : string) : nat :=
  match s with
  | EmptyString => O
  | String d s' => (if Ascii.eqb c d then 1 else 0) + count c s'
  end.

(** All the bytes of a string are in a class. *)
Fixpoint allIn (p : ascii -> bool) (s : string) : bool :=
  match s with
  | EmptyString => true
  | String c s' => p c && allIn p s'
  end.

Definition fence : string := "```"%string.
Definition NL : string := Strings.str1 Strings.nl.
Definition notNL (c : ascii) : bool := negb (Ascii.eqb c Strings.nl).

(** The tags the code-block pattern accepts after the opening fence. *)
Definition tags : list string :=
  ["bash"; "shell"; "zsh"; "cmd"; "powershell"; ""]%string.



(** The fenced block of the extractor example. *)
Definition lsBlock : string := (fence ++ "bash" ++ NL ++ "ls -la" ++ NL ++ fence)%string.



(** A model configuration of the provider, and one whose token ceiling is 0. *)
Definition pro : RL.ModelConfig := RL.mkModelConfig "gemini-1.5-pro" 60 450000 1000.
Definition noTokens : RL.ModelConfig := RL.mkModelConfig "m" 1 0 2.

(** Clocks that stand still: at the origin, half a minute and a minute and
    a half later. *)
Definition noon : Clocked.Clock := fun _ => 0.
Definition halfPast : Clocked.Clock := fun _ => 30 * GoTime.Second.
Definition later : Clocked.Clock := fun _ => 90 * GoTime.Second.

(** A limiter that has not been used, and one in the middle of a window. *)
Definition idle : RL.RateLimiter := RL.mkRateLimiter 0 0 0 0 0 pro [].
Definition busy : RL.RateLimiter := RL.mkRateLimiter 5 100 0 5 0 pro [].

Definition linuxBox : Chat.SystemInfo :=
  Chat.mkSystemInfo "linux" "bash" "dev" "/home/dev" "/home/dev/src" [].
Definition session0 : Chat.Chat :=
  Chat.mkChat "gemini-1.5-pro" idle []
    (Chat.mkChatContext "/home/dev/src" "" "" [] linuxBox 0 0 0 0).
Definition answer : string := "Use `ls -la` to list the files"%string.
Definition backend0 : list Extract.Part -> Chat.Generated :=
  fun _ => Chat.Candidates [Some (Extract.reply answer)].
Definition estimate0 : string -> Z := fun _ => 25.

(* ===================================================================== *)
(** ** pkg/gemini/models.go: quota, waiting, and the usage ledger *)
(* ===================================================================== *)

Module Limiter.

Import GoTime Errors Clocked RL.
Local Open Scope clocked_scope.
Local Open Scope string_scope.

(** [x - y] on [int]. *)
Definition sub (x y : Z) : Z := GoInt.wrap (x - y).

(** The map [GetRemainingQuota] returns, one field per key. *)
Record Quota : Type := mkQuota {
  remaining_rpm : Z;
  remaining_tpm : Z;
  remaining_rpd : Z
}.

Definition GetRemainingQuota : M RateLimiter Quota :=
  r <- get ;;
  ret (mkQuota (sub (RPM (config r)) (requestCount r))
               (sub (TPM (config r)) (tokenCount r))
               (sub (RPD (config r)) (dailyCount r))).

(** [t.Before(u)]. *)
Definition Before (t u : Time) : bool := (t <? u)%Z.

(** The error of [ErrTimeoutf]; the duration printed by [%v] is kept as its
    count of nanoseconds. *)
Definition fmtTimeout := "timeout waiting for rate limit reset after %v".

Definition ErrTimeoutf (format : string) (args : list Arg) : CustomError :=
  NewCustomError ErrTimeout (Sprintf format args) None.

(** The loop of [WaitForAvailability].  [time.Sleep] reads no clock and
    changes no state; what the clock shows afterwards is in its later
    readings.  The loop runs as long as the clock stays before the deadline:
    [fuel] bounds the iterations and [None] is the answer when it runs out. *)
Fixpoint waitLoop (fuel : nat) (deadline : Time) (timeout : Duration)
  : M RateLimiter (option (option CustomError)) :=
  match fuel with
  | O => ret None
  | S fuel' =>
      now <- Now ;;
      if Before now deadline then
        err <- CheckLimit ;;
        match err with
        | None => ret (Some None)
        | Some _ => waitLoop fuel' deadline timeout
        end
      else ret (Some (Some (ErrTimeoutf fmtTimeout [ArgInt timeout])))
  end.

(** [WaitForAvailability] waits until rate limits reset. *)
Definition WaitForAvailability (fuel : nat) (timeout : Duration)
  : M RateLimiter (option (option CustomError)) :=
  start <- Now ;;
  waitLoop fuel (Add start timeout) timeout.

(** The calls [TrackTokens c1], [TrackTokens c2], ... in a row. *)
Fixpoint TrackTokensAll (counts : list Z) : M RateLimiter (list (option CustomError)) :=
  match counts with
  | [] => ret []
  | c :: counts' =>
      e <- TrackTokens c ;;
      es <- TrackTokensAll counts' ;;
      ret (e :: es)
  end.

End Limiter.

(** The last [k] elements of a list. *)
Definition lastn {A} (k : nat) (l : list A) : list A := skipn (List.length l - k) l.

(** The records [TrackTokensAll counts] appends when it starts at tick [t]. *)
Fixpoint tokenRecords (clk : Clocked.Clock) (t : nat) (name : string) (counts : list Z)
  : list RL.UsageRecord :=
  match counts with
  | [] => []
  | c :: counts' =>
      RL.mkUsageRecord (clk t) "token_update" c name true None
        :: tokenRecords clk (S t) name counts'
  end.

(** The ledger holds at most 1000 records. *)
Definition ledger_ok (r : RL.RateLimiter) : Prop :=
  (List.length (RL.usageHistory r) <= 1000)%nat.

(** A limiter whose day is used up, one whose ledger is full, and a clock
    that advances by a second at every reading. *)
Definition spent : RL.RateLimiter := RL.mkRateLimiter 3 40 0 1000 0 pro [].
Definition full : RL.RateLimiter :=
  RL.mkRateLimiter 0 0 0 0 0 pro
    (repeat (RL.mkUsageRecord 0 "token_update" 1 "gemini-1.5-pro" true None) 1000).
Definition ticking : Clocked.Clock := fun i => Z.of_nat i * GoTime.Second.

(** A session whose day is used up, and a model that returns no candidate. *)
Definition spentSession : Chat.Chat :=
  Chat.mkChat "gemini-1.5-pro" spent []
    (Chat.mkChatContext "/home/dev/src" "" "" [] linuxBox 0 0 0 0).
Definition silent : list Extract.Part -> Chat.Generated := fun _ => Chat.Candidates [].

(** Each counter of [r'] is the one of [r] or zero, under the same
    configuration. *)
Definition rolled (r r' : RL.RateLimiter) : Prop :=
  RL.config r' = RL.config r /\
  (RL.requestCount r' = RL.requestCount r \/ RL.requestCount r' = 0%Z) /\
  (RL.tokenCount r' = RL.tokenCount r \/ RL.tokenCount r' = 0%Z) /\
  (RL.dailyCount r' = RL.dailyCount r \/ RL.dailyCount r' = 0%Z).


(* ===================================================================== *)
(** ** The [types] package: the command executor *)
(* ===================================================================== *)

Module Exec.

Import GoTime Errors Clocked Strings.
Local Open Scope string_scope.
Local Open Scope clocked_scope.

(** [CommandHistory] tracks command execution; [Error_] holds the text of
    the error, the empty text when there was none. *)
Record CommandHistory : Type := mkCommandHistory {
  Command : string;
  Output : string;
  ExitCode : Z;
  StartTime : Time;
  EndTime : Time;
  Error_ : Message
}.

(** The error of [cmd.CombinedOutput()]: an [*exec.ExitError] with its
    exit code, or another error; each with its text. *)
Inductive RunError : Type :=
| ExitError (code : Z) (text : string)
| OtherError (text : string).

Definition RunError_text (e : RunError) : string :=
  match e with
  | ExitError _ text => text
  | OtherError text => text
  end.

(** The error [Execute] returns: the one of [ValidateCommand], or the one
    of the run. *)
Inductive error : Type :=
| Rejected (e : CustomError)
| Failed (e : RunError).

Record CommandExecutor : Type := mkCommandExecutor {
  history : list CommandHistory;
  sysInfo : Chat.SystemInfo
}.

Section Platform.

(** [runtime.GOOS], the Unicode lower-case mapping of Go's library, and
    the operating system's run of a program with its arguments in a
    directory. *)
Variable GOOS : string.
Variable unicodeToLower : string -> string.
Variable CombinedOutput : string -> list string -> string -> string * option RunError.

(** [Execute] runs a command safely. *)
Definition Execute (command : string) : M CommandExecutor (CommandHistory * option error) :=
  start <- Now ;;
  (* Validate command *)
  match Safety.ValidateCommand GOOS unicodeToLower command with
  | Some err =>
      finish <- Now ;;
      let record := mkCommandHistory command "" 0 start finish (Errors.Error err) in
      modify (fun e => mkCommandExecutor (history e ++ [record]) (sysInfo e)) ;;
      ret (record, Some (Rejected err))
  | None =>
      e <- get ;;
      (* Prepare command based on platform, set working directory, execute *)
      let (output, err) :=
        if String.eqb GOOS "windows"
        then CombinedOutput "cmd" ["/C"; command] (Chat.SysWorkingDir (sysInfo e))
        else CombinedOutput "sh" ["-c"; command] (Chat.SysWorkingDir (sysInfo e)) in
      finish <- Now ;;
      let record :=
        match err with
        | None => mkCommandHistory command output 0 start finish (Text "")
        | Some (ExitError code text) =>
            mkCommandHistory command output code start finish (Text text)
        | Some (OtherError text) =>
            mkCommandHistory command output 0 start finish (Text text)
        end in
      modify (fun e => mkCommandExecutor (history e ++ [record]) (sysInfo e)) ;;
      ret (record, option_map Failed err)
  end.

End Platform.

(** [GetHistory] returns command execution history. *)
Definition GetHistory : M CommandExecutor (list CommandHistory) :=
  e <- get ;; ret (history e).

(** [ClearHistory] clears the command history. *)
Definition ClearHistory : M CommandExecutor unit :=
  modify (fun e => mkCommandExecutor [] (sysInfo e)).

End Exec.

(* ===================================================================== *)
(** ** The [libterma] package: the configured deny list and the bounded history *)
(* ===================================================================== *)

Module Terma.

Import Errors Strings.
Local Open Scope string_scope.

(** The fields of [Config] that [ValidateCommand] and [addToHistory] read. *)
Record Config : Type := mkConfig {
  HistorySize : Z;
  DisallowedCommands : list string;
  ProtectedPaths : list string
}.

(** [DefaultConfig], for those fields. *)
Definition DefaultConfig : Config :=
  mkConfig 1000
    ["rm -rf /"; "mkfs"; "dd if=/dev/zero"]
    ["/etc"; "/var"; "/usr"; "/boot"; "/root"].

(** Helper function to check if a command contains a protected path. *)
Definition containsPath (cmd path : string) : bool := false.

(** [ValidateCommand] checks if a command is allowed. *)
Definition ValidateCommand (c : Config) (cmd : string) : option CustomError :=
  (* Check against disallowed commands *)
  match List.find (String.eqb cmd) (DisallowedCommands c) with
  | Some _ => Some (ErrPermissionf ("command is not allowed: " ++ cmd))
  | None =>
      (* Check protected paths *)
      match List.find (containsPath cmd) (ProtectedPaths c) with
      | Some path => Some (ErrPermissionf ("command affects protected path: " ++ path))
      | None => None
      end
  end.

Record Terma : Type := mkTerma {
  config : Config;
  history : list Exec.CommandHistory
}.

(** [addToHistory] adds a command to history. *)
Definition addToHistory (cmd : Exec.CommandHistory) (t : Terma) : Terma :=
  let h := (history t ++ [cmd])%list in
  mkTerma (config t)
    (if (HistorySize (config t) <? Z.of_nat (List.length h))%Z then List.tl h else h).

(** [GetHistory] returns a copy of the command history. *)
Definition GetHistory (t : Terma) : list Exec.CommandHistory := ([] ++ history t)%list.

(** [ClearHistory] clears command history. *)
Definition ClearHistory (t : Terma) : Terma := mkTerma (config t) [].

End Terma.

(* ===================================================================== *)
(** ** cmd/craftcom/main.go: the commands offered in interactive mode *)
(* ===================================================================== *)

Module Main.

Import Strings Regexp Extract.
Local Open Scope string_scope.





End Main.

(* ===================================================================== *)
(** ** The [types] package: the file reader; the file attachments of
       [pkg/gemini/chat.go] *)
(* ===================================================================== *)

Module Files.

Import Errors Strings.
Local Open Scope string_scope.

(** [FileType] represents supported file types. *)
Inductive FileType : Type :=
| FileTypeText | FileTypeImage | FileTypeAudio | FileTypePDF | FileTypeVideo.

Definition FileType_string (t : FileType) : string :=
  match t with
  | FileTypeText => "text"
  | FileTypeImage => "image"
  | FileTypeAudio => "audio"
  | FileTypePDF => "pdf"
  | FileTypeVideo => "video"
  end.

(** [FileContent] represents file data and metadata; the two entries of
    [Metadata] are the fields [extension] and [modified]. *)
Record FileContent : Type := mkFileContent {
  Type_ : FileType;
  Data : string;
  MimeType : string;
  Name : string;
  Size : Z;
  extension : string;
  modified : GoTime.Time
}.

(** [FileReader]; [AllowedTypes] is the map, as the list of its entries. *)
Record FileReader : Type := mkFileReader {
  allowedBasePath : string;
  MaxSize : Z;
  AllowedTypes : list (FileType * list string)
}.

(** [NewFileReader] creates a new FileReader with default settings. *)
Definition NewFileReader : FileReader :=
  mkFileReader ""
    (100 * 1024 * 1024)
    [(FileTypeText, [".txt"; ".md"; ".json"; ".yaml"; ".yml"]);
     (FileTypeImage, [".png"; ".jpg"; ".jpeg"; ".gif"; ".webp"]);
     (FileTypeAudio, [".mp3"; ".wav"; ".ogg"; ".m4a"]);
     (FileTypePDF, [".pdf"]);
     (FileTypeVideo, [".mp4"; ".webm"; ".mov"])].

Definition ErrInputf (format : string) (args : list Arg) : CustomError :=
  NewCustomError ErrInput (Sprintf format args) None.

(** What [os.Stat] reports of a file. *)
Record FileInfo : Type := mkFileInfo {
  InfoSize : Z;
  ModTime : GoTime.Time
}.

Section Platform.

Variable GOOS : string.

(** [os.IsPathSeparator]. *)
Definition IsPathSeparator (c : ascii) : bool :=
  Ascii.eqb c "/" || (String.eqb GOOS "windows" && Ascii.eqb c "\").

(** The loop of [filepath.Ext], from the last byte backwards: [back] holds
    the bytes not yet visited, last first, and [tail] those visited. *)
Fixpoint extScan (back : string) (tail : string) : string :=
  match back with
  | EmptyString => ""
  | String c back' =>
      if IsPathSeparator c then ""
      else if Ascii.eqb c "." then String c tail
      else extScan back' (String c tail)
  end.

(** [filepath.Ext]: the suffix beginning at the final dot in the final
    element of the path; empty if there is no dot. *)
Definition Ext (path : string) : string := extScan (rev path) "".

(** [determineFileType] identifies the file type based on extension.
    [entries] are the entries of the map in the order in which the [range]
    statement visits them. *)
Definition determineFileType (entries : list (FileType * list string)) (ext : string)
  : FileType + CustomError :=
  let ext := Ext ext in
  match List.find (fun entry => existsb (String.eqb ext) (snd entry)) entries with
  | Some entry => inl (fst entry)
  | None => inr (ErrInputf "unsupported file extension: %s" [ArgString ext])
  end.

(** The file system and the libraries [ReadFile] calls: [filepath.Clean],
    [filepath.Base], [os.Stat], [os.ReadFile] (an error is its text),
    [mime.TypeByExtension], and the order in which a [range] statement
    visits the entries of a map. *)
Variable Clean : string -> string.
Variable Base : string -> string.
Variable Stat : string -> FileInfo + string.
Variable osReadFile : string -> string + string.
Variable TypeByExtension : string -> string.
Variable visit : list (FileType * list string) -> list (FileType * list string).

(** [ReadFile] reads and processes a file. *)
Definition ReadFile (fr : FileReader) (path : string) : FileContent + CustomError :=
  (* Sanitize and validate path *)
  let cleanPath := Clean path in
  if negb (HasPrefix cleanPath (allowedBasePath fr))
  then inr (ErrInputf "path is outside allowed directory: %s" [ArgString path])
  else
    match Stat path with
    | inr err => inr (ErrInputf "failed to stat file: %v" [ArgString err])
    | inl info =>
        if (MaxSize fr <? InfoSize info)%Z
        then inr (ErrInputf "file too large: %d bytes (max %d)"
                    [ArgInt (InfoSize info); ArgInt (MaxSize fr)])
        else
          (* Determine file type *)
          let ext := Ext path in
          match determineFileType (visit (AllowedTypes fr)) ext with
          | inr err => inr err
          | inl fileType =>
              (* Read file *)
              match osReadFile path with
              | inr err => inr (ErrInputf "failed to read file: %v" [ArgString err])
              | inl data =>
                  (* Get MIME type *)
                  let mimeType := TypeByExtension ext in
                  let mimeType :=
                    if String.eqb mimeType "" then "application/octet-stream" else mimeType in
                  inl (mkFileContent fileType data mimeType (Base path) (InfoSize info)
                         ext (ModTime info))
              end
          end
    end.

End Platform.

(** [String] returns string representation for text files. *)
Definition String_ (fc : FileContent) : string :=
  match Type_ fc with
  | FileTypeText => Data fc
  | _ => ""
  end.

End Files.

Module ChatFiles.

Import GoTime Errors Clocked Strings Extract Chat.
Local Open Scope string_scope.
Local Open Scope clocked_scope.

(** [extractTextFromPDF] extracts text content from PDF data. *)
Definition extractTextFromPDF (data : string) : string + CustomError :=
  inr (Files.ErrInputf "PDF processing not implemented" []).

(** The errors of the file attachments: a [CustomError], or the input
    error made by [ErrInputf(format, args..., err)] whose format ends with
    the verb for the error [err] it wraps. *)
Inductive error : Type :=
| Plain (e : CustomError)
| Wrapped (format : string) (args : list Arg) (cause : CustomError).

Definition error_type (e : error) : ErrorType :=
  match e with
  | Plain e => Errors.Type_ e
  | Wrapped _ _ _ => ErrInput
  end.

Definition createPartFromContent (content : Files.FileContent) : Part + error :=
  match Files.Type_ content with
  | Files.FileTypeImage => inl (Blob (Files.MimeType content) (Files.Data content))
  | Files.FileTypeText => inl (Extract.Text (Files.String_ content))
  | Files.FileTypePDF =>
      match extractTextFromPDF (Files.Data content) with
      | inr err => inr (Wrapped "failed to extract text from PDF: %v" [] err)
      | inl text => inl (Extract.Text text)
      end
  | _ =>
      inr (Plain (Files.ErrInputf "unsupported file type: %s"
                    [ArgString (Files.FileType_string (Files.Type_ content))]))
  end.

(** [Response] with the entry "files" of its metadata. *)
Record FilesResponse : Type := mkFilesResponse {
  response : Response;
  files : list string
}.

Definition failExecution (rendered : string) : M Chat.Chat (FilesResponse + error) :=
  onContext (modify (fun c => set_ErrorCount (GoInt.incr (ErrorCount c)) c)) ;;
  ret (inr (Plain (ErrExecutionf rendered))).

Section Backend.

Variable GOOS : string.
Variable Clean : string -> string.
Variable Base : string -> string.
Variable Stat : string -> Files.FileInfo + string.
Variable osReadFile : string -> string + string.
Variable TypeByExtension : string -> string.
Variable visit : list (Files.FileType * list string) -> list (Files.FileType * list string).
Variable GenerateContent : list Part -> Generated.
Variable estimateTokenCount : string -> Z.

(** The chat's [fileProcessor]. *)
Variable fileProcessor : Files.FileReader.

(** The loop over the files, with the parts, the processed files and the
    total size so far. *)
Fixpoint processFiles (files : list string) (parts : list Part)
         (processedFiles : list string) (totalSize : Z)
  : (list Part * list string) + error :=
  match files with
  | [] => inl (parts, processedFiles)
  | file :: files' =>
      (* Check file exists *)
      match Stat file with
      | inr _ => inr (Plain (Files.ErrInputf "file not found: %s" [ArgString file]))
      | inl _ =>
          (* Process file *)
          match Files.ReadFile GOOS Clean Base Stat osReadFile TypeByExtension visit
                               fileProcessor file with
          | inr err =>
              inr (Wrapped "failed to process file %s: %v" [ArgString file] err)
          | inl content =>
              (* Check total size *)
              let totalSize := GoInt.add totalSize (Files.Size content) in
              if (Files.MaxSize fileProcessor <? totalSize)%Z
              then inr (Plain (Files.ErrInputf "total file size exceeds limit" []))
              else
                (* Create appropriate part based on file type *)
                match createPartFromContent content with
                | inr err => inr err
                (* a part returned without an error is never nil *)
                | inl part =>
                    processFiles files' (parts ++ [part])%list
                                 (processedFiles ++ [file])%list totalSize
                end
          end
      end
  end.

(** [SendWithFiles] sends a message with file attachments. *)
Definition SendWithFiles (message : string) (files : list string)
  : M Chat.Chat (FilesResponse + error) :=
  limited <- onLimiter RL.CheckLimit ;;
  match limited with
  | Some err => ret (inr (Plain err))
  | None =>
      c <- get ;;
      match processFiles files [Extract.Text (addContext (currentContext c) message)] [] 0 with
      | inr err => ret (inr err)
      | inl (parts, processedFiles) =>
          (* Generate response with files *)
          match GenerateContent parts with
          | GenerateError err => failExecution ("failed to generate content: " ++ err)
          | Candidates [] => failExecution "no response generated"
          | Candidates (None :: _) => failExecution "empty response content"
          | Candidates (Some content :: _) =>
              let (command, fullOutput) := extractCommandAndOutput content in
              (* Update context *)
              onContext (modify (set_LastCommand command)) ;;
              now <- Now ;;
              onContext (modify (set_LastModified now)) ;;
              onContext (modify (fun c => set_CommandCount (GoInt.incr (CommandCount c)) c)) ;;
              (* Track token usage *)
              let tokenCount := estimateTokenCount (message ++ fullOutput) in
              tracked <- onLimiter (RL.TrackTokens tokenCount) ;;
              match tracked with
              | Some err => ret (inr (Plain err))
              | None =>
                  ts <- Now ;;
                  c <- get ;;
                  since <- Now ;;
                  ret (inl (mkFilesResponse
                              (mkResponse command fullOutput
                                 (mkMetadata (modelName c) ts tokenCount
                                    (CommandCount (currentContext c))
                                    (ErrorCount (currentContext c))
                                    (Sub since (SessionStart (currentContext c)))))
                              processedFiles))
              end
          end
      end
  end.

End Backend.

End ChatFiles.

(** ** Vocabulary of the statements *)

(** The string begins with a white-space code point. *)
Definition startsSpace (s : string) : bool :=
  match s with
  | String b1 (String b2 (String b3 _)) => Strings.asciiSpace b1 || Strings.space2 b1 b2 || Strings.space3 b1 b2 b3
  | String b1 (String b2 EmptyString) => Strings.asciiSpace b1 || Strings.space2 b1 b2
  | String b1 EmptyString => Strings.asciiSpace b1
  | EmptyString => false
  end.

(** The same for the reversed string. *)
Definition startsSpaceRev (s : string) : bool :=
  match s with
  | String b1 (String b2 (String b3 _)) => Strings.asciiSpace b1 || Strings.space2 b2 b1 || Strings.space3 b3 b2 b1
  | String b1 (String b2 EmptyString) => Strings.asciiSpace b1 || Strings.space2 b2 b1
  | String b1 EmptyString => Strings.asciiSpace b1
  | EmptyString => false
  end.


(** A byte that [filepath.Ext] steps over: neither a separator nor a dot. *)
Definition plainByte (GOOS : string) (c : ascii) : bool :=
  negb (Files.IsPathSeparator GOOS c) && negb (Ascii.eqb c "."%char).

(** No extension is listed under two file types. *)
Definition exclusive (entries : list (Files.FileType * list string)) : Prop :=
  NoDup (List.concat (map snd entries)).

(** The extensions that [NewFileReader] lists for audio, PDF and video. *)
Definition mediaExtensions : list string :=
  [".mp3"; ".wav"; ".ogg"; ".m4a"; ".pdf"; ".mp4"; ".webm"; ".mov"]%string.

(** A disk with two files, a sound of four bytes and a text of five; a
    [range] that visits the entries in the order of the list. *)
Definition disk : string -> Files.FileInfo + string :=
  fun path => if String.eqb path "song.mp3" then inl (Files.mkFileInfo 4 0)
              else if String.eqb path "notes.txt" then inl (Files.mkFileInfo 5 0)
              else inr "no such file or directory"%string.
Definition diskData : string -> string + string :=
  fun path => if String.eqb path "song.mp3" then inl "RIFF"%string
              else if String.eqb path "notes.txt" then inl "hello"%string
              else inr "no such file or directory"%string.
Definition inOrder : list (Files.FileType * list string) -> list (Files.FileType * list string) :=
  fun entries => entries.

(* ===================================================================== *)
(** * Properties *)
(* ===================================================================== *)

(* ===================================================================== *)
(** ** The rate limiter *)
(* ===================================================================== *)

Section RateLimiterProps.

Import GoTime Errors Clocked RL.
Local Open Scope Z_scope.

Lemma wrap_id z : GoInt.in_range z -> GoInt.wrap z = z.
Proof.
  unfold GoInt.in_range, GoInt.min_int, GoInt.max_int, GoInt.wrap. intros H.
  rewrite Z.mod_small; lia.
Qed.

Lemma wrap_in_range z : GoInt.in_range (GoInt.wrap z).
Proof.
  unfold GoInt.in_range, GoInt.min_int, GoInt.max_int, GoInt.wrap.
  pose proof (Z.mod_pos_bound (z + 2 ^ 63) (2 ^ 64) ltac:(lia)). lia.
Qed.

Lemma zero_in_range : GoInt.in_range 0.
Proof. split; vm_compute; discriminate. Qed.

Lemma incr_below x lim :
  GoInt.in_range x -> GoInt.in_range lim -> x < lim -> GoInt.incr x = x + 1.
Proof.
  unfold GoInt.incr, GoInt.add. intros Hx Hl Hlt. apply wrap_id.
  unfold GoInt.in_range, GoInt.min_int, GoInt.max_int in *. lia.
Qed.

Lemma Sub_ge d t u :
  minDuration < d <= maxDuration -> (d <=? Sub t u) = (d <=? t - u).
Proof.
  unfold Sub. intros Hd.
  destruct (t - u <? minDuration) eqn:E1; [apply Z.ltb_lt in E1|apply Z.ltb_ge in E1].
  - destruct (Z.leb_spec d minDuration), (Z.leb_spec d (t - u)); lia.
  - destruct (maxDuration <? t - u) eqn:E2; [apply Z.ltb_lt in E2|apply Z.ltb_ge in E2]; auto.
    destruct (Z.leb_spec d maxDuration), (Z.leb_spec d (t - u)); lia.
Qed.

Lemma Sub_minute t u : (Minute <=? Sub t u) = (Minute <=? t - u).
Proof. apply Sub_ge. vm_compute. split; [reflexivity|discriminate]. Qed.

Lemma Sub_day t u : (24 * Hour <=? Sub t u) = (24 * Hour <=? t - u).
Proof. apply Sub_ge. vm_compute. split; [reflexivity|discriminate]. Qed.

Ltac unfold_rl :=
  cbv [CheckLimit rollWindows admission checkLimitExceeded resetMinuteCounts resetDailyCounts
       recordUsage TrackTokens Reset bind ret get put modify Now Until result ticks state].

Ltac rl_simpl :=
  cbn -[Z.mul Z.leb Z.ltb Z.sub Z.add Z.modulo Z.of_nat Sub Truncate Add Minute Hour
        GoInt.incr GoInt.add List.length List.app List.tl] in *.

Lemma rollWindows_state now clk t r :
  let r' := state (rollWindows now clk t r) in
  config r' = config r /\
  (if Minute <=? now - lastReset r
   then requestCount r' = 0 /\ tokenCount r' = 0 /\ lastReset r' = Truncate now Minute
   else requestCount r' = requestCount r /\ tokenCount r' = tokenCount r /\
        lastReset r' = lastReset r) /\
  (if 24 * Hour <=? now - dailyReset r
   then dailyCount r' = 0 /\ dailyReset r' = now
   else dailyCount r' = dailyCount r /\ dailyReset r' = dailyReset r).
Proof.
  destruct r as [rc tc lr dc dr cfg h].
  unfold_rl. rl_simpl. rewrite Sub_minute.
  destruct (Minute <=? now - lr) eqn:E1; rl_simpl; rewrite ?Sub_minute, ?E1; rl_simpl;
    rewrite Sub_day; destruct (24 * Hour <=? now - dr) eqn:E2; rl_simpl; auto.
Qed.

Lemma rollWindows_idle now clk t r :
  now - lastReset r < Minute -> now - dailyReset r < 24 * Hour ->
  rollWindows now clk t r = (tt, t, r).
Proof.
  intros H1 H2. unfold_rl. rewrite Sub_minute.
  destruct (Z.leb_spec Minute (now - lastReset r)); [lia|].
  rewrite Sub_day. destruct (Z.leb_spec (24 * Hour) (now - dailyReset r)); [lia|].
  reflexivity.
Qed.

Lemma admission_run clk t r :
  admission clk t r =
  if RPM (config r) <=? requestCount r then
    (Some (refusal fmtRPM (requestCount r) (RPM (config r))
             (Sub (Add (lastReset r) Minute) (clk t)) false), S t, r)
  else if TPM (config r) <=? tokenCount r then
    (Some (refusal fmtTPM (tokenCount r) (TPM (config r))
             (Sub (Add (lastReset r) Minute) (clk t)) false), S t, r)
  else if RPD (config r) <=? dailyCount r then
    (Some (refusal fmtDaily (dailyCount r) (RPD (config r))
             (Sub (Add (dailyReset r) (24 * Hour)) (clk t)) true), S t, r)
  else (None, t, set_dailyCount (GoInt.incr (dailyCount r))
                   (set_requestCount (GoInt.incr (requestCount r)) r)).
Proof.
  unfold_rl.
  destruct (RPM (config r) <=? requestCount r); [reflexivity|].
  destruct (TPM (config r) <=? tokenCount r); [reflexivity|].
  destruct (RPD (config r) <=? dailyCount r); reflexivity.
Qed.

Lemma CheckLimit_run clk t r :
  CheckLimit clk t r =
  admission clk (ticks (rollWindows (clk t) clk (S t) r))
            (state (rollWindows (clk t) clk (S t) r)).
Proof.
  unfold CheckLimit, bind, Now, ticks, state.
  destruct (rollWindows (clk t) clk (S t) r) as [[u t'] r']. reflexivity.
Qed.

(** C1.  After a call of [CheckLimit] that returns nil, the request count,
    the token count and the daily count are within RPM, TPM and RPD.  When a
    ceiling would be passed (the counters being those left by the lazy
    roll-over of the windows), the call returns an error of type
    [ErrRateLimit] and leaves every counter as the roll-over left it: equal
    to what it was before the call, or zero; so a counter that was not
    negative is neither raised nor made negative by a refused call. *)
Theorem CheckLimit_admission_invariant (clk : Clock) (t : nat) (r : RateLimiter) :
  well_typed r ->
  let out := CheckLimit clk t r in
  let mid := state (rollWindows (clk t) clk (S t) r) in
  let cfg := config r in
  (result out = None ->
     requestCount (state out) <= RPM cfg /\ tokenCount (state out) <= TPM cfg /\
     dailyCount (state out) <= RPD cfg)
  /\
  (RPM cfg < requestCount mid + 1 \/ TPM cfg <= tokenCount mid \/
   RPD cfg < dailyCount mid + 1 ->
     exists e, result out = Some e /\ Type_ e = ErrRateLimit /\
       requestCount (state out) = requestCount mid /\
       tokenCount (state out) = tokenCount mid /\
       dailyCount (state out) = dailyCount mid)
  /\
  (result out <> None ->
     (requestCount (state out) = requestCount r \/ requestCount (state out) = 0) /\
     (tokenCount (state out) = tokenCount r \/ tokenCount (state out) = 0) /\
     (dailyCount (state out) = dailyCount r \/ dailyCount (state out) = 0)) /\
  (result out <> None ->
     (0 <= requestCount r -> 0 <= requestCount (state out) <= requestCount r) /\
     (0 <= tokenCount r -> 0 <= tokenCount (state out) <= tokenCount r) /\
     (0 <= dailyCount r -> 0 <= dailyCount (state out) <= dailyCount r)).
Proof.
  intros (Hrc & Htc & Hdc & Hrpm & Htpm & Hrpd) out mid cfg.
  pose proof (rollWindows_state (clk t) clk (S t) r) as (Hcfg & Hmin & Hday).
  fold mid in Hcfg, Hmin, Hday.
  assert (Hmid : GoInt.in_range (requestCount mid) /\ GoInt.in_range (dailyCount mid)).
  { destruct (Minute <=? clk t - lastReset r), (24 * Hour <=? clk t - dailyReset r);
      destruct Hmin as (-> & _), Hday as (-> & _); split; auto;
      unfold GoInt.in_range, GoInt.min_int, GoInt.max_int; lia. }
  destruct Hmid as (Hrc' & Hdc').
  assert (Hout : out = admission clk (ticks (rollWindows (clk t) clk (S t) r)) mid)
    by apply CheckLimit_run.
  rewrite admission_run in Hout. rewrite Hcfg in Hout. fold cfg in Hout.
  destruct (Z.leb_spec (RPM cfg) (requestCount mid)) as [G1|G1];
    [|destruct (Z.leb_spec (TPM cfg) (tokenCount mid)) as [G2|G2];
      [|destruct (Z.leb_spec (RPD cfg) (dailyCount mid)) as [G3|G3]]];
    rewrite Hout; unfold result, state; cbn [fst snd].
  4: { cbn [requestCount tokenCount dailyCount set_dailyCount set_requestCount].
       rewrite (incr_below _ _ Hrc' Hrpm G1), (incr_below _ _ Hdc' Hrpd G3).
       repeat split; try lia; intros; try congruence. }
  all: split; [discriminate|split; [intros _; eexists; repeat split; reflexivity|]];
    split; intros _;
    destruct (Minute <=? clk t - lastReset r), (24 * Hour <=? clk t - dailyReset r);
    destruct Hmin as (-> & -> & _), Hday as (-> & _); auto;
    repeat split; intros; lia.
Qed.

Lemma admission_frame clk t r :
  let r' := state (admission clk t r) in
  tokenCount r' = tokenCount r /\ lastReset r' = lastReset r /\
  dailyReset r' = dailyReset r /\ config r' = config r /\
  (result (admission clk t r) = None ->
     requestCount r' = GoInt.incr (requestCount r) /\
     dailyCount r' = GoInt.incr (dailyCount r)) /\
  (result (admission clk t r) <> None ->
     requestCount r' = requestCount r /\ dailyCount r' = dailyCount r).
Proof.
  rewrite admission_run.
  destruct (RPM (config r) <=? requestCount r);
    [|destruct (TPM (config r) <=? tokenCount r);
      [|destruct (RPD (config r) <=? dailyCount r)]];
    unfold result, state; cbn [fst snd]; repeat split; auto;
    try discriminate; try congruence.
Qed.

Lemma Reset_state clk t r :
  let r' := state (Reset clk t r) in
  config r' = config r /\
  (if Minute <=? clk t - lastReset r
   then requestCount r' = 0 /\ tokenCount r' = 0 /\ lastReset r' = Truncate (clk t) Minute
   else requestCount r' = requestCount r /\ tokenCount r' = tokenCount r /\
        lastReset r' = lastReset r) /\
  dailyCount r' = 0 /\ dailyReset r' = clk t.
Proof.
  destruct r as [rc tc lr dc dr cfg h].
  unfold_rl. rl_simpl. rewrite Sub_minute.
  destruct (Minute <=? clk t - lr) eqn:E1; rl_simpl; auto.
Qed.


(** The operations keep the counters within Go's [int]. *)
Lemma CheckLimit_well_typed clk t r :
  well_typed r -> well_typed (state (CheckLimit clk t r)).
Proof.
  intros (Hrc & Htc & Hdc & Hrpm & Htpm & Hrpd).
  pose proof (rollWindows_state (clk t) clk (S t) r) as (Hcfg & Hm & Hd).
  pose proof (admission_frame clk (ticks (rollWindows (clk t) clk (S t) r))
                (state (rollWindows (clk t) clk (S t) r)))
    as (Ftc & _ & _ & Fcfg & Fok & Fno).
  rewrite <- CheckLimit_run in Ftc, Fcfg, Fok, Fno.
  pose proof zero_in_range as Z0.
  assert (Hmid : GoInt.in_range (requestCount (state (rollWindows (clk t) clk (S t) r))) /\
                 GoInt.in_range (tokenCount (state (rollWindows (clk t) clk (S t) r))) /\
                 GoInt.in_range (dailyCount (state (rollWindows (clk t) clk (S t) r)))).
  { destruct (Minute <=? clk t - lastReset r), (24 * Hour <=? clk t - dailyReset r);
      destruct Hm as (-> & -> & _), Hd as (-> & _); auto. }
  destruct Hmid as (Mrc & Mtc & Mdc).
  unfold well_typed. rewrite Ftc, Fcfg, Hcfg.
  destruct (result (CheckLimit clk t r)) eqn:E.
  - destruct Fno as (-> & ->); [discriminate|]. auto 10.
  - destruct Fok as (-> & ->); [reflexivity|].
    unfold GoInt.incr, GoInt.add. auto 10 using wrap_in_range.
Qed.

Lemma TrackTokens_well_typed clk t r n :
  well_typed r -> well_typed (state (TrackTokens n clk t r)).
Proof.
  intros (Hrc & Htc & Hdc & Hrpm & Htpm & Hrpd).
  destruct r as [rc tc lr dc dr cfg h]. unfold_rl. rl_simpl.
  destruct (TPM cfg <=? GoInt.add tc n); rl_simpl;
    unfold well_typed; rl_simpl; unfold GoInt.add; auto 10 using wrap_in_range.
Qed.


(** C8.  [Reset] called less than a minute after [lastReset] leaves the
    request count, the token count and [lastReset] as they are; the daily
    count becomes zero and [dailyReset] becomes now. *)
Theorem Reset_within_minute (clk : Clock) (t : nat) (r : RateLimiter) :
  Sub (clk t) (lastReset r) < Minute ->
  let out := Reset clk t r in
  requestCount (state out) = requestCount r /\
  tokenCount (state out) = tokenCount r /\
  lastReset (state out) = lastReset r /\
  dailyCount (state out) = 0 /\
  dailyReset (state out) = clk t.
Proof.
  intros H out. apply Z.leb_gt in H. rewrite Sub_minute in H.
  pose proof (Reset_state clk t r) as (_ & Hm & Hdc & Hdr).
  rewrite H in Hm. destruct Hm as (? & ? & ?). auto.
Qed.

Lemma CheckLimit_tokenCount clk t r :
  tokenCount (state (CheckLimit clk t r)) =
  if Minute <=? clk t - lastReset r then 0 else tokenCount r.
Proof.
  rewrite CheckLimit_run.
  pose proof (admission_frame clk (ticks (rollWindows (clk t) clk (S t) r))
                (state (rollWindows (clk t) clk (S t) r))) as (-> & _).
  pose proof (rollWindows_state (clk t) clk (S t) r) as (_ & Hm & _).
  destruct (Minute <=? clk t - lastReset r); tauto.
Qed.

Lemma Reset_tokenCount clk t r :
  tokenCount (state (Reset clk t r)) =
  if Minute <=? clk t - lastReset r then 0 else tokenCount r.
Proof.
  pose proof (Reset_state clk t r) as (_ & Hm & _).
  destruct (Minute <=? clk t - lastReset r); tauto.
Qed.

(** C9.  [TrackTokens n] adds [n] to the token count whatever the clock
    says and whether or not it then reports the breach; the request count,
    the daily count and both reset times stay as they are.  A later
    [CheckLimit] or [Reset] zeroes the token count exactly when a minute or
    more has passed since [lastReset]. *)
Theorem TrackTokens_frame (clk : Clock) (t : nat) (r : RateLimiter) (n : Z) :
  let out := TrackTokens n clk t r in
  (tokenCount (state out) = GoInt.add (tokenCount r) n /\
   (GoInt.in_range (tokenCount r + n) -> tokenCount (state out) = tokenCount r + n)) /\
  (requestCount (state out) = requestCount r /\ lastReset (state out) = lastReset r /\
   dailyCount (state out) = dailyCount r /\ dailyReset (state out) = dailyReset r /\
   config (state out) = config r) /\
  (result out <> None <-> TPM (config r) <= tokenCount (state out)) /\
  (forall clk' t',
     tokenCount (state (CheckLimit clk' t' (state out))) =
       (if Minute <=? Sub (clk' t') (lastReset r) then 0 else tokenCount (state out)) /\
     tokenCount (state (Reset clk' t' (state out))) =
       (if Minute <=? Sub (clk' t') (lastReset r) then 0 else tokenCount (state out))).
Proof.
  intros out.
  assert (Hst : tokenCount (state out) = GoInt.add (tokenCount r) n /\
                requestCount (state out) = requestCount r /\
                lastReset (state out) = lastReset r /\
                dailyCount (state out) = dailyCount r /\
                dailyReset (state out) = dailyReset r /\
                config (state out) = config r /\
                (result out <> None <-> TPM (config r) <= tokenCount (state out))).
  { subst out. destruct r as [rc tc lr dc dr cfg h]. unfold_rl. rl_simpl.
    destruct (Z.leb_spec (TPM cfg) (GoInt.add tc n)); rl_simpl;
      repeat split; auto; try discriminate; try lia; intros; congruence. }
  destruct Hst as (Htc & Hrc & Hlr & Hdc & Hdr & Hcfg & Herr).
  repeat split; auto; try apply Herr.
  - intros Hr. rewrite Htc. unfold GoInt.add. apply wrap_id. exact Hr.
  - rewrite CheckLimit_tokenCount, Sub_minute, Hlr. reflexivity.
  - rewrite Reset_tokenCount, Sub_minute, Hlr. reflexivity.
Qed.

Lemma CheckLimits_in_window (clk : Clock) (cfg : ModelConfig) tc lr dr h :
  GoInt.in_range (RPM cfg) -> GoInt.in_range (RPD cfg) -> tc < TPM cfg ->
  forall (k : nat) (t : nat) (rc dc : Z),
    0 <= rc -> 0 <= dc ->
    ((0 < k)%nat -> rc + Z.of_nat k <= RPM cfg /\ dc + Z.of_nat k <= RPD cfg) ->
    (forall i, (t <= i < t + k)%nat -> clk i - lr < Minute /\ clk i - dr < 24 * Hour) ->
    CheckLimits k clk t (mkRateLimiter rc tc lr dc dr cfg h) =
    (repeat None k, (t + k)%nat,
     mkRateLimiter (rc + Z.of_nat k) tc lr (dc + Z.of_nat k) dr cfg h).
Proof.
  intros Hrpm Hrpd Htc. induction k as [|k IH]; intros t rc dc Hrc Hdc Hk Hwin.
  - cbn [CheckLimits repeat]. unfold ret. rewrite Nat.add_0_r, !Z.add_0_r. reflexivity.
  - cbn [CheckLimits repeat]. unfold bind at 1. rewrite CheckLimit_run.
    destruct (Hwin t ltac:(lia)) as (W1 & W2). destruct (Hk ltac:(lia)) as (Hk1 & Hk2).
    rewrite rollWindows_idle by assumption.
    unfold ticks, state; cbn [fst snd]. rewrite admission_run.
    cbn [config requestCount tokenCount dailyCount].
    destruct (Z.leb_spec (RPM cfg) rc); [lia|].
    destruct (Z.leb_spec (TPM cfg) tc); [lia|].
    destruct (Z.leb_spec (RPD cfg) dc); [lia|].
    cbn [set_requestCount set_dailyCount requestCount tokenCount lastReset dailyCount
         dailyReset config usageHistory].
    assert (Hin : forall x lim, 0 <= x -> x < lim -> GoInt.in_range lim ->
                                GoInt.incr x = x + 1).
    { intros x lim Ha Hb Hc. apply (incr_below x lim); auto.
      unfold GoInt.in_range, GoInt.min_int, GoInt.max_int in *. lia. }
    rewrite (Hin rc (RPM cfg)), (Hin dc (RPD cfg)) by (auto; lia).
    unfold bind, ret; cbv beta iota.
    unfold set_dailyCount, set_requestCount;
      cbn [requestCount tokenCount lastReset dailyCount dailyReset config usageHistory].
    rewrite IH; try lia.
    + f_equal; [f_equal; lia|f_equal; lia].
    + intros i Hi. apply Hwin. lia.
Qed.

(** C2, amended.  From a fresh limiter with RPM < RPD and TPM > 0, when
    every clock reading of the calls lies in the minute window opened at
    creation, RPM calls of [CheckLimit] all succeed and the next one is
    refused with the RPM message, the wait being the time from the clock
    reading of the refusal to the end of the window: more than zero, at
    most a minute. *)
Theorem RPM_admissions_then_refusal (clk : Clock) (cfg : ModelConfig) :
  GoInt.in_range (RPM cfg) -> GoInt.in_range (RPD cfg) ->
  RPM cfg < RPD cfg -> 0 < TPM cfg ->
  let n := Z.to_nat (RPM cfg) in
  (forall i, (i < n + 4)%nat -> clk 0%nat <= clk i < clk 0%nat + Minute) ->
  let fresh := NewRateLimiter cfg clk 0%nat tt in
  let run := CheckLimits n clk (ticks fresh) (result fresh) in
  let last := CheckLimit clk (ticks run) (state run) in
  let wait := Add (lastReset (result fresh)) Minute - clk (S (ticks run)) in
  result run = repeat None n /\
  result last = Some (refusal fmtRPM (Z.of_nat n) (RPM cfg) wait false) /\
  0 < wait <= Minute.
Proof.
  intros Hrpm Hrpd Hlt Htpm n Hwin fresh run last wait.
  assert (HM : Minute = 60000000000) by reflexivity.
  assert (HH : 24 * Hour = 86400000000000) by reflexivity.
  assert (Hfresh : fresh = (mkRateLimiter 0 0 (clk 0%nat) 0 (clk 1%nat) cfg [], 2%nat, tt))
    by reflexivity.
  assert (Hrun : run = (repeat None n, (2 + n)%nat,
                        mkRateLimiter (0 + Z.of_nat n) 0 (clk 0%nat)
                                      (0 + Z.of_nat n) (clk 1%nat) cfg [])).
  { subst run. rewrite Hfresh. unfold ticks, result; cbn [fst snd].
    apply CheckLimits_in_window; try assumption; try lia.
    intros i Hi. pose proof (Hwin i ltac:(lia)). pose proof (Hwin 1%nat ltac:(lia)). lia. }
  assert (Hn : RPM cfg <= Z.of_nat n) by (subst n; lia).
  split; [rewrite Hrun; reflexivity|].
  assert (Hw : wait = clk 0%nat + Minute - clk (3 + n)%nat).
  { subst wait. rewrite Hfresh, Hrun. reflexivity. }
  pose proof (Hwin (3 + n)%nat ltac:(lia)) as W3.
  split; [|lia].
  subst last. rewrite Hrun. unfold ticks, state; cbn [fst snd].
  rewrite CheckLimit_run.
  pose proof (Hwin (2 + n)%nat ltac:(lia)) as W2. pose proof (Hwin 1%nat ltac:(lia)) as W1.
  rewrite rollWindows_idle by (cbn [lastReset dailyReset]; lia).
  unfold ticks, state; cbn [fst snd]. rewrite admission_run.
  cbn [config requestCount lastReset].
  destruct (Z.leb_spec (RPM cfg) (0 + Z.of_nat n)); [|lia].
  unfold result; cbn [fst]. f_equal. rewrite Z.add_0_l. f_equal.
  rewrite Hw. unfold Sub, Add.
  change (clk (S (2 + n))) with (clk (3 + n)%nat).
  destruct (Z.ltb_spec (clk 0%nat + Minute - clk (3 + n)%nat) minDuration) as [B|B];
    [unfold minDuration, GoInt.min_int in B; lia|].
  destruct (Z.ltb_spec maxDuration (clk 0%nat + Minute - clk (3 + n)%nat)) as [B'|B'];
    [unfold maxDuration, GoInt.max_int in B'; lia|]. reflexivity.
Qed.

(** C2 as stated fails: with RPM = 1 < RPD = 2 and TPM = 0 the first call
    is refused. *)
Lemma no_TPM_guard_fails :
  let fresh := NewRateLimiter noTokens noon 0%nat tt in
  RPM noTokens < RPD noTokens /\
  (forall i, noon 0%nat <= noon i < noon 0%nat + Minute) /\
  result (CheckLimits (Z.to_nat (RPM noTokens)) noon (ticks fresh) (result fresh))
    <> repeat None (Z.to_nat (RPM noTokens)) /\
  exists e, result (CheckLimit noon (ticks fresh) (result fresh)) = Some e.
Proof.
  cbv zeta. split; [reflexivity|].
  split; [intros i; vm_compute; split; [discriminate|reflexivity]|].
  split; [vm_compute; discriminate|]. eexists. vm_compute. reflexivity.
Qed.

(** *** The theorems at concrete inputs *)

Lemma CheckLimit_admission_invariant_witness :
  well_typed idle /\
  requestCount (state (CheckLimit noon 0%nat idle)) <= RPM (config idle) /\
  tokenCount (state (CheckLimit noon 0%nat idle)) <= TPM (config idle) /\
  dailyCount (state (CheckLimit noon 0%nat idle)) <= RPD (config idle).
Proof.
  assert (W : well_typed idle) by (repeat split; vm_compute; discriminate).
  split; [exact W|].
  exact (proj1 (CheckLimit_admission_invariant noon 0%nat idle W) eq_refl).
Defined.


Lemma Reset_within_minute_witness :
  Sub (halfPast 0%nat) (lastReset busy) < Minute /\
  requestCount (state (Reset halfPast 0%nat busy)) = 5 /\
  tokenCount (state (Reset halfPast 0%nat busy)) = 100 /\
  lastReset (state (Reset halfPast 0%nat busy)) = 0 /\
  dailyCount (state (Reset halfPast 0%nat busy)) = 0 /\
  dailyReset (state (Reset halfPast 0%nat busy)) = halfPast 0%nat.
Proof.
  assert (H : Sub (halfPast 0%nat) (lastReset busy) < Minute) by (vm_compute; reflexivity).
  split; [exact H|].
  exact (Reset_within_minute halfPast 0%nat busy H).
Defined.

Lemma TrackTokens_frame_witness :
  GoInt.in_range (tokenCount busy + 25) /\
  tokenCount (state (TrackTokens 25 noon 0%nat busy)) = tokenCount busy + 25.
Proof.
  assert (H : GoInt.in_range (tokenCount busy + 25)) by (split; vm_compute; discriminate).
  split; [exact H|].
  exact (proj2 (proj1 (TrackTokens_frame noon 0%nat busy 25)) H).
Defined.

Lemma RPM_admissions_then_refusal_witness :
  GoInt.in_range (RPM pro) /\ GoInt.in_range (RPD pro) /\
  RPM pro < RPD pro /\ 0 < TPM pro /\
  (forall i, (i < Z.to_nat (RPM pro) + 4)%nat ->
             noon 0%nat <= noon i < noon 0%nat + Minute) /\
  result (CheckLimits (Z.to_nat (RPM pro)) noon
            (ticks (NewRateLimiter pro noon 0%nat tt))
            (result (NewRateLimiter pro noon 0%nat tt))) =
    repeat None (Z.to_nat (RPM pro)).
Proof.
  assert (H1 : GoInt.in_range (RPM pro)) by (split; vm_compute; discriminate).
  assert (H2 : GoInt.in_range (RPD pro)) by (split; vm_compute; discriminate).
  assert (H3 : RPM pro < RPD pro) by reflexivity.
  assert (H4 : 0 < TPM pro) by reflexivity.
  assert (H5 : forall i, (i < Z.to_nat (RPM pro) + 4)%nat ->
                         noon 0%nat <= noon i < noon 0%nat + Minute)
    by (intros i _; split; vm_compute; [discriminate|reflexivity]).
  repeat (split; [assumption|]).
  exact (proj1 (RPM_admissions_then_refusal noon pro H1 H2 H3 H4 H5)).
Defined.

End RateLimiterProps.

(* ===================================================================== *)
(** ** The command extractor *)
(* ===================================================================== *)

Section ExtractorProps.

Import Strings Regexp Extract.
Local Open Scope string_scope.
Local Open Scope nat_scope.

Lemma append_assoc (a b c : string) : (a ++ b) ++ c = a ++ b ++ c.
Proof. induction a as [|x a IH]; cbn; [reflexivity|rewrite IH; reflexivity]. Qed.

Lemma length_append (a b : string) : String.length (a ++ b) = String.length a + String.length b.
Proof. induction a as [|x a IH]; cbn; [reflexivity|rewrite IH; reflexivity]. Qed.


Lemma drop_append (a b : string) : drop (String.length a) (a ++ b) = b.
Proof. induction a as [|x a IH]; cbn; [destruct b; reflexivity|exact IH]. Qed.

Lemma take_append (a b : string) : take (String.length a) (a ++ b) = a.
Proof. induction a as [|x a IH]; cbn; [reflexivity|rewrite IH; reflexivity]. Qed.

Lemma slice_middle (a b c : string) (i j : nat) :
  i = String.length a -> j = i + String.length b -> slice (a ++ b ++ c) (i, j) = b.
Proof.
  intros -> ->. unfold slice; cbn [fst snd].
  rewrite drop_append. replace (String.length a + String.length b - String.length a)
    with (String.length b) by lia.
  apply take_append.
Qed.

(** *** Inversion of the matcher *)

Lemma orElse_inv {R} (a b : option R) x : orElse a b = Some x -> a = Some x \/ b = Some x.
Proof. destruct a; cbn; intros H; [left|right]; assumption. Qed.

Lemma run_Class_inv {R} p pos s cap (k : nat -> string -> option span -> option R) x :
  run (Class p) pos s cap k = Some x ->
  exists c s', s = String c s' /\ p c = true /\ k (S pos) s' cap = Some x.
Proof.
  cbn. destruct s as [|c s']; [discriminate|].
  destruct (p c) eqn:E; [|discriminate]. intros H. exists c, s'. auto.
Qed.

Lemma run_Chr_inv {R} c pos s cap (k : nat -> string -> option span -> option R) x :
  run (Chr c) pos s cap k = Some x ->
  exists s', s = String c s' /\ k (S pos) s' cap = Some x.
Proof.
  intros H. apply run_Class_inv in H. destruct H as (d & s' & -> & E & H).
  apply Ascii.eqb_eq in E. subst d. exists s'. auto.
Qed.

Lemma run_Lit_inv {R} l : forall pos s cap (k : nat -> string -> option span -> option R) x,
  run (Lit l) pos s cap k = Some x ->
  exists s', s = l ++ s' /\ k (pos + String.length l) s' cap = Some x.
Proof.
  induction l as [|c l IH]; intros pos s cap k x H.
  - cbn in H. exists s. rewrite Nat.add_0_r. auto.
  - cbn [Lit] in H. change (run (Chr c) pos s cap
        (fun pos' s' cap' => run (Lit l) pos' s' cap' k) = Some x) in H.
    apply run_Chr_inv in H. destruct H as (s1 & -> & H).
    apply IH in H. destruct H as (s' & -> & H). exists s'. split; [reflexivity|].
    cbn [String.length]. rewrite <- H. f_equal. lia.
Qed.


Lemma run_Star_Class_inv {R} g p pos s cap (k : nat -> string -> option span -> option R) x :
  run (Star g (Class p)) pos s cap k = Some x ->
  exists body rest, s = body ++ rest /\ allIn p body = true /\
                    k (pos + String.length body) rest cap = Some x.
Proof.
  cbn [run]. generalize (String.length s) as n. intros n. revert pos s cap.
  induction n as [|n IH]; intros pos s cap H.
  - assert (Hk : k pos s cap = Some x).
    { destruct g; cbn in H; [|destruct (k pos s cap); cbn in H]; congruence. }
    exists "", s. rewrite Nat.add_0_r. auto.
  - assert (Hcases : k pos s cap = Some x \/
       match s with
       | String c s' =>
           if p c then
             (if Nat.ltb pos (S pos) then
                (fix loop (n : nat) (pos : nat) (s : string) (cap : option span)
                     {struct n} : option R :=
                   let again :=
                     match n with
                     | O => None
                     | S n' =>
                         run (Class p) pos s cap (fun pos' s' cap' =>
                           if Nat.ltb pos pos' then loop n' pos' s' cap' else None)
                     end in
                   if g then orElse again (k pos s cap) else orElse (k pos s cap) again)
                  n (S pos) s' cap
              else None)
           else None
       | EmptyString => None
       end = Some x).
    { destruct g; cbn in H; apply orElse_inv in H; tauto. }
    destruct Hcases as [Hk|Hit].
    + exists "", s. rewrite Nat.add_0_r. auto.
    + destruct s as [|c s']; [discriminate|].
      destruct (p c) eqn:E; [|discriminate].
      destruct (Nat.ltb pos (S pos)); [|discriminate].
      apply IH in Hit. destruct Hit as (body & rest & -> & Hall & Hk).
      exists (String c body), rest. cbn. rewrite E, Hall. repeat split.
      rewrite <- Hk. f_equal. lia.
Qed.

Lemma run_Cat {R} r1 r2 pos s cap (k : nat -> string -> option span -> option R) :
  run (Cat r1 r2) pos s cap k =
  run r1 pos s cap (fun pos' s' cap' => run r2 pos' s' cap' k).
Proof. reflexivity. Qed.

Lemma run_Group {R} r pos s cap (k : nat -> string -> option span -> option R) :
  run (Group r) pos s cap k =
  run r pos s cap (fun pos' s' _ => k pos' s' (Some (pos, pos'))).
Proof. reflexivity. Qed.



Lemma run_tags_inv {R} pos s cap (k : nat -> string -> option span -> option R) x :
  run (Opt shellTags) pos s cap k = Some x ->
  exists tag s', In tag tags /\ s = tag ++ s' /\
                 k (pos + String.length tag) s' cap = Some x.
Proof.
  unfold Opt, shellTags. cbn [run]. intros H.
  repeat (apply orElse_inv in H; destruct H as [H|H]);
    try (apply run_Lit_inv in H; destruct H as (s' & -> & H);
         eexists; exists s'; split; [|split; [reflexivity|exact H]]; cbn; tauto).
  exists "", s. rewrite Nat.add_0_r. cbn. tauto.
Qed.

(** What a match of the code-block pattern at the start of [s] looks like. *)
Lemma codeBlock_matchAt_inv s m rest :
  matchAt codeBlockRegex s = Some (m, rest) ->
  exists tag body,
    In tag tags /\ allIn notNL body = true /\
    s = fence ++ tag ++ NL ++ body ++ NL ++ fence ++ rest /\
    m = [fence ++ tag ++ NL ++ body ++ NL ++ fence; body].
Proof.
  unfold matchAt, codeBlockRegex. intros H.
  rewrite run_Cat in H. apply run_Lit_inv in H. destruct H as (s1 & E1 & H).
  rewrite run_Cat in H. apply run_tags_inv in H.
  destruct H as (tag & s2 & Htag & E2 & H).
  rewrite run_Cat in H. apply run_Chr_inv in H. destruct H as (s3 & E3 & H).
  rewrite run_Cat, run_Group in H. unfold Dot in H. apply run_Star_Class_inv in H.
  destruct H as (body & s4 & E4 & Hbody & H).
  rewrite run_Cat in H. apply run_Chr_inv in H. destruct H as (s5 & E5 & H).
  apply run_Lit_inv in H. destruct H as (s6 & E6 & H).
  injection H as Hm Hrest. subst s6.
  exists tag, body. split; [exact Htag|]. split; [exact Hbody|].
  assert (Es : s = fence ++ tag ++ NL ++ body ++ NL ++ fence ++ rest).
  { subst. reflexivity. }
  split; [exact Es|].
  rewrite <- Hm. f_equal; [|f_equal].
  - rewrite Es.
    replace (fence ++ tag ++ NL ++ body ++ NL ++ fence ++ rest)
      with ("" ++ (fence ++ tag ++ NL ++ body ++ NL ++ fence) ++ rest)
      by (cbn; rewrite !append_assoc; cbn; rewrite !append_assoc; reflexivity).
    apply slice_middle; [reflexivity|]. unfold fence, NL, str1.
    repeat first [rewrite length_append | progress cbn [String.length append]]. lia.
  - rewrite Es.
    replace (fence ++ tag ++ NL ++ body ++ NL ++ fence ++ rest)
      with ((fence ++ tag ++ NL) ++ body ++ (NL ++ fence ++ rest))
      by (cbn; rewrite !append_assoc; reflexivity).
    apply slice_middle; unfold fence, NL, str1;
      repeat first [rewrite length_append | progress cbn [String.length append]]; lia.
Qed.

(** *** The leftmost match *)



Lemma first_of_findAll re s :
  firstGroup (FindAllStringSubmatch re s) =
  match search re s with
  | Some (_ :: g :: _, _) => Some (TrimSpace g)
  | _ => None
  end.
Proof.
  unfold FindAllStringSubmatch. cbn [findAll].
  destruct (search re s) as [[m rest]|]; reflexivity.
Qed.

(** *** Uniqueness of the split at the first backtick *)






(** *** The extractor *)


Lemma accept_valid cand c : accept cand = Some c -> isValidCommand c = true.
Proof.
  destruct cand as [d|]; cbn [accept]; [|discriminate].
  destruct (isValidCommand d) eqn:E; [|discriminate]. congruence.
Qed.

Lemma fromMarkedLines_valid lines : forall c,
  fromMarkedLines lines = Some c -> isValidCommand c = true.
Proof.
  induction lines as [|l lines IH]; intros c H; cbn [fromMarkedLines] in H; [discriminate|].
  destruct (isMarked (TrimSpace l)); cbn [andb] in H; [|auto].
  destruct (isValidCommand (unmark (TrimSpace l))) eqn:E; [|auto]. congruence.
Qed.

Lemma extract_fullOutput content :
  snd (extractCommandAndOutput content) = joinText (Parts content) "".
Proof.
  unfold extractCommandAndOutput.
  destruct (accept (fromCodeBlock _)); [reflexivity|].
  destruct (accept (fromInlineCode _)); [reflexivity|].
  destruct (fromMarkedLines _); [reflexivity|].
  destruct (accept (fromKeyword _)); reflexivity.
Qed.



Lemma codeBlock_needs_fence s :
  HasPrefix s fence = false -> matchAt codeBlockRegex s = None.
Proof.
  intros H. destruct (matchAt codeBlockRegex s) as [[m rest]|] eqn:E; [|reflexivity].
  apply codeBlock_matchAt_inv in E. destruct E as (tag & body & _ & _ & -> & _).
  cbn in H. discriminate.
Qed.

(** Backticks right before the block do not start a match of their own. *)
Lemma lsBlock_after_ticks post :
  matchAt codeBlockRegex ("`" ++ lsBlock ++ post) = None /\
  matchAt codeBlockRegex ("``" ++ lsBlock ++ post) = None /\
  matchAt codeBlockRegex (lsBlock ++ post) = Some ([lsBlock; "ls -la"], post).
Proof. repeat split; vm_compute; reflexivity. Qed.

Lemma lsBlock_search pre post :
  Contains pre fence = false ->
  search codeBlockRegex (pre ++ lsBlock ++ post) = Some ([lsBlock; "ls -la"], post).
Proof.
  destruct (lsBlock_after_ticks post) as (T1 & T2 & T0).
  induction pre as [|c pre IH]; intros Hpre.
  - cbn [append]. destruct (lsBlock ++ post) eqn:E; cbn [search]; rewrite T0; reflexivity.
  - cbn [Contains] in Hpre. apply orb_false_iff in Hpre. destruct Hpre as (Hhere & Hpre).
    cbn [append search].
    assert (Hnone : matchAt codeBlockRegex (String c (pre ++ lsBlock ++ post)) = None).
    { destruct (Ascii.eqb_spec "`"%char c) as [<-|Hc];
        [|apply codeBlock_needs_fence; cbn [fence HasPrefix];
          apply Ascii.eqb_neq in Hc; rewrite Hc; reflexivity].
      destruct pre as [|d pre]; [exact T1|].
      destruct (Ascii.eqb_spec "`"%char d) as [<-|Hd];
        [|apply codeBlock_needs_fence; cbn [fence HasPrefix append];
          apply Ascii.eqb_neq in Hd; rewrite Hd, andb_false_r; reflexivity].
      destruct pre as [|e pre]; [exact T2|].
      destruct (Ascii.eqb_spec "`"%char e) as [<-|He].
      - cbn in Hhere. discriminate.
      - apply codeBlock_needs_fence. cbn [fence HasPrefix append].
        apply Ascii.eqb_neq in He. rewrite He, !andb_false_r. reflexivity. }
    rewrite Hnone. apply IH. exact Hpre.
Qed.

Lemma lsBlock_found pre post :
  Contains pre fence = false ->
  fromCodeBlock (pre ++ lsBlock ++ post) = Some "ls -la".
Proof.
  intros Hpre. unfold fromCodeBlock. rewrite first_of_findAll.
  rewrite (lsBlock_search pre post Hpre). reflexivity.
Qed.

(** C3.  The extractor tries the fenced code block first, then the inline
    span, then the marked lines, then the keyword pattern; the candidate of
    a strategy is returned only when it is valid, otherwise the next strategy
    is tried, so the command returned is empty or valid.  A text holding the
    block of the example and the line [$ pwd], in either order, or the block
    between any texts with no fence before it, gives [ls -la]; the line
    alone gives [pwd]. *)
Theorem fenced_block_wins :
  (forall content,
     let text := joinText (Parts content) "" in
     let out := extractCommandAndOutput content in
     (forall c, accept (fromCodeBlock text) = Some c -> out = (c, text)) /\
     (accept (fromCodeBlock text) = None ->
      forall c, accept (fromInlineCode text) = Some c -> out = (c, text)) /\
     (accept (fromCodeBlock text) = None -> accept (fromInlineCode text) = None ->
      forall c, fromMarkedLines (Split text nl) = Some c -> out = (c, text)) /\
     (accept (fromCodeBlock text) = None -> accept (fromInlineCode text) = None ->
      fromMarkedLines (Split text nl) = None ->
      forall c, accept (fromKeyword text) = Some c -> out = (c, text)) /\
     (fst out = "" \/ isValidCommand (fst out) = true)) /\
  (forall pre post,
     Contains pre fence = false ->
     extractCommandAndOutput (reply (pre ++ lsBlock ++ post)) =
       ("ls -la", pre ++ lsBlock ++ post)) /\
  extractCommandAndOutput (reply (lsBlock ++ NL ++ "$ pwd")) =
    ("ls -la", lsBlock ++ NL ++ "$ pwd") /\
  extractCommandAndOutput (reply ("$ pwd" ++ NL ++ lsBlock)) =
    ("ls -la", "$ pwd" ++ NL ++ lsBlock) /\
  extractCommandAndOutput (reply "$ pwd") = ("pwd", "$ pwd").
Proof.
  split; [|split; [|repeat split; vm_compute; reflexivity]].
  - intros content text out. subst out. unfold extractCommandAndOutput. fold text.
    destruct (accept (fromCodeBlock text)) as [c1|] eqn:E1.
    { repeat split; try discriminate; try (intros; congruence).
      right. exact (accept_valid _ _ E1). }
    destruct (accept (fromInlineCode text)) as [c2|] eqn:E2.
    { repeat split; try discriminate; try (intros; congruence).
      right. exact (accept_valid _ _ E2). }
    destruct (fromMarkedLines (Split text nl)) as [c3|] eqn:E3.
    { repeat split; try discriminate; try (intros; congruence).
      right. exact (fromMarkedLines_valid _ _ E3). }
    destruct (accept (fromKeyword text)) as [c4|] eqn:E4.
    { repeat split; try discriminate; try (intros; congruence).
      right. exact (accept_valid _ _ E4). }
    repeat split; try discriminate. left. reflexivity.
  - intros pre post Hpre. unfold extractCommandAndOutput, reply.
    cbn [Parts joinText append]. rewrite (lsBlock_found pre post Hpre).
    reflexivity.
Qed.

(** C6.  The second component of the result is always the text of the
    reply as it came.  When no strategy offers a valid candidate the result
    is the pair of the empty command and that text: a value of the result
    type, which has no error; and the command is empty in that case only.
    The bare path of the example is not a valid command and gives the empty
    command. *)
Theorem no_command_is_a_result :
  (forall content,
     snd (extractCommandAndOutput content) = joinText (Parts content) "") /\
  (forall content,
     let text := joinText (Parts content) "" in
     accept (fromCodeBlock text) = None -> accept (fromInlineCode text) = None ->
     fromMarkedLines (Split text nl) = None -> accept (fromKeyword text) = None ->
     extractCommandAndOutput content = ("", text)) /\
  (forall content,
     let text := joinText (Parts content) "" in
     fst (extractCommandAndOutput content) = "" ->
     accept (fromCodeBlock text) = None /\ accept (fromInlineCode text) = None /\
     fromMarkedLines (Split text nl) = None /\ accept (fromKeyword text) = None) /\
  isValidCommand "/usr/local/bin" = false /\
  extractCommandAndOutput (reply "/usr/local/bin") = ("", "/usr/local/bin").
Proof.
  split; [exact extract_fullOutput|].
  split; [|split; [|split; vm_compute; reflexivity]].
  - intros content text H1 H2 H3 H4. unfold extractCommandAndOutput. fold text.
    rewrite H1, H2, H3, H4. reflexivity.
  - intros content text. unfold extractCommandAndOutput. fold text.
    assert (Hne : forall c, isValidCommand c = true -> c <> "").
    { intros c Hc ->. vm_compute in Hc. discriminate. }
    destruct (accept (fromCodeBlock text)) as [c1|] eqn:E1;
      [intros H; exfalso; exact (Hne _ (accept_valid _ _ E1) H)|].
    destruct (accept (fromInlineCode text)) as [c2|] eqn:E2;
      [intros H; exfalso; exact (Hne _ (accept_valid _ _ E2) H)|].
    destruct (fromMarkedLines (Split text nl)) as [c3|] eqn:E3;
      [intros H; exfalso; exact (Hne _ (fromMarkedLines_valid _ _ E3) H)|].
    destruct (accept (fromKeyword text)) as [c4|] eqn:E4;
      [intros H; exfalso; exact (Hne _ (accept_valid _ _ E4) H)|].
    auto.
Qed.





(** *** The theorems at concrete inputs *)

Lemma fenced_block_wins_witness :
  Contains ("$ pwd" ++ NL) fence = false /\
  extractCommandAndOutput (reply (("$ pwd" ++ NL) ++ lsBlock ++ "")) =
    ("ls -la", ("$ pwd" ++ NL) ++ lsBlock ++ "").
Proof.
  assert (H : Contains ("$ pwd" ++ NL) fence = false) by reflexivity.
  split; [exact H|].
  exact (proj1 (proj2 fenced_block_wins) ("$ pwd" ++ NL) "" H).
Defined.

Lemma no_command_is_a_result_witness :
  accept (fromCodeBlock "/usr/local/bin") = None /\
  accept (fromInlineCode "/usr/local/bin") = None /\
  fromMarkedLines (Split "/usr/local/bin" nl) = None /\
  accept (fromKeyword "/usr/local/bin") = None /\
  extractCommandAndOutput (reply "/usr/local/bin") = ("", "/usr/local/bin").
Proof.
  assert (H1 : accept (fromCodeBlock "/usr/local/bin") = None) by reflexivity.
  assert (H2 : accept (fromInlineCode "/usr/local/bin") = None) by reflexivity.
  assert (H3 : fromMarkedLines (Split "/usr/local/bin" nl) = None) by reflexivity.
  assert (H4 : accept (fromKeyword "/usr/local/bin") = None) by reflexivity.
  repeat (split; [assumption|]).
  exact (proj1 (proj2 no_command_is_a_result) (reply "/usr/local/bin") H1 H2 H3 H4).
Defined.


End ExtractorProps.

(* ===================================================================== *)
(** ** The safety validator *)
(* ===================================================================== *)

Section ValidatorProps.

Import Strings Errors.
Local Open Scope string_scope.

Section DenyList.
Import Safety.
Variable GOOS : string.
Variable lower : string -> string.

Lemma deny_list_fires command d :
  TrimSpace command <> "" ->
  List.find (isDangerous lower (TrimSpace command)) dangerousCommands = Some d ->
  ValidateCommand GOOS lower command =
    Some (ErrPermissionf ("potentially dangerous command detected: " ++ d)).
Proof.
  intros Hne Hfind. unfold ValidateCommand.
  destruct (String.eqb_spec (TrimSpace command) ""); [contradiction|].
  rewrite Hfind. reflexivity.
Qed.

End DenyList.

(** C4.  For a command that is not blank and contains an entry of the
    deny list, whatever [IsPrivilegedOperation] says of it, [ValidateCommand]
    returns the permission error that names an entry the command contains;
    when it contains [rm -rf] that is the entry named.  The command of the
    example is privileged, contains [rm -rf], and is denied with the reason
    that names [rm -rf], in upper case and after blanks as well. *)
Theorem deny_list_before_privilege (GOOS : string) (lower : string -> string) :
  (forall command,
     TrimSpace command <> "" ->
     (exists d, In d Safety.dangerousCommands /\
                Safety.isDangerous lower (TrimSpace command) d = true) ->
     exists d, In d Safety.dangerousCommands /\
               Safety.isDangerous lower (TrimSpace command) d = true /\
               Safety.ValidateCommand GOOS lower command =
                 Some (mkCustomError ErrPermission
                         (Text ("potentially dangerous command detected: " ++ d)) None)) /\
  (forall command,
     TrimSpace command <> "" ->
     Safety.isDangerous lower (TrimSpace command) "rm -rf" = true ->
     Safety.ValidateCommand GOOS lower command =
       Some (mkCustomError ErrPermission
               (Text "potentially dangerous command detected: rm -rf") None)) /\
  Safety.IsPrivilegedOperation GOOS lower "sudo rm -rf /var/log" = true /\
  Safety.isDangerous lower "sudo rm -rf /var/log" "rm -rf" = true /\
  Safety.ValidateCommand GOOS lower "sudo rm -rf /var/log" =
    Some (mkCustomError ErrPermission
            (Text "potentially dangerous command detected: rm -rf") None) /\
  Safety.ValidateCommand GOOS lower "  sudo RM -Rf /var/log" =
    Some (mkCustomError ErrPermission
            (Text "potentially dangerous command detected: rm -rf") None).
Proof.
  split; [|split; [|repeat split; vm_compute; reflexivity]].
  - intros command Hne (d & Hin & Hd).
    destruct (List.find (Safety.isDangerous lower (TrimSpace command))
                        Safety.dangerousCommands) as [d'|] eqn:E.
    + destruct (List.find_some _ _ E) as (Hin' & Hd').
      exists d'. split; [exact Hin'|]. split; [exact Hd'|].
      apply deny_list_fires; assumption.
    + pose proof (List.find_none _ _ E d Hin) as Hno. congruence.
  - intros command Hne Hd.
    apply deny_list_fires; [exact Hne|].
    unfold Safety.dangerousCommands. cbn [List.find]. rewrite Hd. reflexivity.
Qed.


Lemma deny_list_before_privilege_witness :
  TrimSpace "sudo rm -rf /var/log" <> "" /\
  Safety.isDangerous (fun s => s) (TrimSpace "sudo rm -rf /var/log") "rm -rf" = true /\
  Safety.ValidateCommand "linux" (fun s => s) "sudo rm -rf /var/log" =
    Some (mkCustomError ErrPermission
            (Text "potentially dangerous command detected: rm -rf") None).
Proof.
  assert (H1 : TrimSpace "sudo rm -rf /var/log" <> "") by (vm_compute; discriminate).
  assert (H2 : Safety.isDangerous (fun s => s) (TrimSpace "sudo rm -rf /var/log") "rm -rf"
               = true) by reflexivity.
  repeat (split; [assumption|]).
  exact (proj1 (proj2 (deny_list_before_privilege "linux" (fun s => s)))
           "sudo rm -rf /var/log" H1 H2).
Defined.

End ValidatorProps.

(* ===================================================================== *)
(** ** The chat session *)
(* ===================================================================== *)

Section ChatProps.

Import GoTime Errors Clocked Extract Chat.
Local Open Scope string_scope.
Local Open Scope Z_scope.

(** A call of [Send] that returns a response. *)
Lemma Send_success GenerateContent estimateTokenCount message clk t (c : Chat.Chat) resp :
  result (Send GenerateContent estimateTokenCount message clk t c) = inl resp ->
  exists content rest t1 r1 t2 t3 r2 now,
    RL.CheckLimit clk t (rateLimiter c) = (None, t1, r1) /\
    GenerateContent [Text (addContext (currentContext c) message)] =
      Candidates (Some content :: rest) /\
    Parts content <> [] /\
    RL.TrackTokens
      (estimateTokenCount (addContext (currentContext c) message ++
                           snd (extractCommandAndOutput content)))
      clk t2 r1 = (None, t3, r2) /\
    Code resp = fst (extractCommandAndOutput content) /\
    FullOutput resp = snd (extractCommandAndOutput content) /\
    state (Send GenerateContent estimateTokenCount message clk t c) =
      mkChat (modelName c) r2
        (history c ++ [mkContent [Text (addContext (currentContext c) message)] "user";
                       content])%list
        (set_CommandCount (GoInt.incr (CommandCount (currentContext c)))
           (set_LastModified now
              (set_LastCommand (fst (extractCommandAndOutput content))
                 (currentContext c)))).
Proof.
  unfold Send, bind, onLimiter, zoom.
  destruct (RL.CheckLimit clk t (rateLimiter c)) as [[lim t1] r1] eqn:ECL.
  destruct lim as [e|]; [cbn; discriminate|].
  cbv [get]. cbn [rateLimiter currentContext set_rateLimiter].
  destruct (GenerateContent [Text (addContext (currentContext c) message)])
    as [err|cands] eqn:EG; [cbn; discriminate|].
  destruct cands as [|[content|] rest]; [cbn; discriminate|..|cbn; discriminate].
  destruct (Parts content) as [|p ps] eqn:EP; [cbn; discriminate|].
  destruct (extractCommandAndOutput content) as [command fullOutput] eqn:EX.
  cbv [modify onContext zoom Now ret bind].
  cbn [rateLimiter currentContext set_rateLimiter set_currentContext set_history
       history modelName].
  match goal with
  | |- context [RL.TrackTokens ?n clk ?t' ?r] =>
      destruct (RL.TrackTokens n clk t' r) as [[tr t2] r2] eqn:ETT
  end.
  destruct tr as [e|]; [cbn; discriminate|].
  unfold result, state. cbv [get Now ret]. cbn [fst snd]. intros H. injection H as <-.
  exists content, rest, t1, r1, (S t1), t2, r2, (clk t1).
  rewrite EX. cbn [fst snd Code FullOutput].
  repeat split; try reflexivity; try assumption. congruence.
Qed.

(** C5 as stated fails: the exchange succeeds, with a reply that is not
    empty, and [LastOutput] stays as it was. *)
Lemma LastOutput_is_not_updated :
  let out := Send backend0 estimate0 "list the files" noon 0%nat session0 in
  (exists resp, result out = inl resp /\ Code resp = "ls -la" /\ FullOutput resp = answer) /\
  LastOutput (currentContext session0) = "" /\
  LastOutput (currentContext (state out)) = "" /\
  LastCommand (currentContext (state out)) = "ls -la" /\
  CommandCount (currentContext (state out)) = 1%Z.
Proof.
  cbv zeta. split; [|repeat split; vm_compute; reflexivity].
  eexists. split; [vm_compute; reflexivity|]. split; reflexivity.
Qed.

(** C5, amended.  After a call of [Send] that returns a response,
    [LastCommand] is the command of the response and [CommandCount] is one
    more than before; [LastOutput], [WorkingDir], [ErrorCount],
    [SessionStart] and the system information are what they were. *)
Theorem Send_updates_context
        (GenerateContent : list Part -> Generated) (estimateTokenCount : string -> Z)
        (message : string) (clk : Clock) (t : nat) (c : Chat.Chat) (resp : Response) :
  result (Send GenerateContent estimateTokenCount message clk t c) = inl resp ->
  let ctx := currentContext c in
  let ctx' := currentContext (state (Send GenerateContent estimateTokenCount message clk t c)) in
  LastCommand ctx' = Code resp /\
  CommandCount ctx' = GoInt.incr (CommandCount ctx) /\
  (GoInt.in_range (CommandCount ctx + 1) -> CommandCount ctx' = (CommandCount ctx + 1)%Z) /\
  LastOutput ctx' = LastOutput ctx /\
  WorkingDir ctx' = WorkingDir ctx /\
  ErrorCount ctx' = ErrorCount ctx /\
  SessionStart ctx' = SessionStart ctx /\
  SystemInfo_ ctx' = SystemInfo_ ctx.
Proof.
  intros H ctx ctx'. apply Send_success in H.
  destruct H as (content & rest & t1 & r1 & t2 & t3 & r2 & now & _ & _ & _ & _ & HC & _ & Hst).
  subst ctx'. rewrite Hst.
  cbn [currentContext set_CommandCount set_LastModified set_LastCommand LastCommand
       CommandCount LastOutput WorkingDir ErrorCount SessionStart SystemInfo_].
  rewrite HC. repeat split.
  intros Hr. unfold GoInt.incr, GoInt.add. apply wrap_id. exact Hr.
Qed.

Lemma Send_updates_context_witness :
  result (Send backend0 estimate0 "list the files" noon 0%nat session0) =
    inl (mkResponse "ls -la" answer (mkMetadata "gemini-1.5-pro" 0 25 1 0 0)) /\
  LastOutput (currentContext
     (state (Send backend0 estimate0 "list the files" noon 0%nat session0))) =
  LastOutput (currentContext session0).
Proof.
  assert (H : result (Send backend0 estimate0 "list the files" noon 0%nat session0) =
              inl (mkResponse "ls -la" answer (mkMetadata "gemini-1.5-pro" 0 25 1 0 0)))
    by (vm_compute; reflexivity).
  split; [exact H|].
  exact (proj1 (proj2 (proj2 (proj2
    (Send_updates_context backend0 estimate0 "list the files" noon 0%nat session0 _ H))))).
Defined.

End ChatProps.

Section LimiterProps.

Import GoTime Errors Clocked RL Limiter.

Ltac run_rl :=
  cbv [CheckLimit rollWindows admission checkLimitExceeded resetMinuteCounts
       resetDailyCounts recordUsage TrackTokens Reset GetRemainingQuota
       bind ret get put modify Now Until result ticks state].

Ltac tidy_rl :=
  cbn -[Z.mul Z.leb Z.ltb Z.sub Z.add Z.modulo Z.of_nat Sub Truncate Add Minute Hour
        GoInt.incr GoInt.add List.length List.app List.tl lastn skipn] in *.

(** *** The usage ledger *)

Lemma lastn_all {A} k (l : list A) : (List.length l <= k)%nat -> lastn k l = l.
Proof.
  intros H. unfold lastn. replace (List.length l - k)%nat with 0%nat by lia. reflexivity.
Qed.

Lemma lastn_length {A} k (l : list A) : List.length (lastn k l) = Nat.min k (List.length l).
Proof. unfold lastn. rewrite length_skipn. lia. Qed.

Lemma lastn_snoc {A} k (l : list A) x :
  lastn (S k) (lastn (S k) l ++ [x]) = lastn (S k) (l ++ [x]).
Proof.
  destruct (Nat.le_gt_cases (List.length l) (S k)) as [H|H].
  - rewrite (lastn_all (S k) l H). reflexivity.
  - unfold lastn at 1. rewrite length_app, lastn_length. cbn [List.length].
    replace (Nat.min (S k) (List.length l) + 1 - S k)%nat with 1%nat by lia.
    unfold lastn. rewrite length_app. cbn [List.length].
    replace (List.length l + 1 - S k)%nat with (S (List.length l - S k)) by lia.
    rewrite !skipn_app, length_skipn.
    replace (1 - (List.length l - (List.length l - S k)))%nat with 0%nat by lia.
    replace (S (List.length l - S k) - List.length l)%nat with 0%nat by lia.
    rewrite skipn_skipn. reflexivity.
Qed.

(** The step of [recordUsage] on the ledger. *)
Lemma keep_last (h : list UsageRecord) (rec : UsageRecord) :
  (List.length h <= 1000)%nat ->
  (if 1000 <? Z.of_nat (List.length (h ++ [rec])) then List.tl (h ++ [rec]) else h ++ [rec])
  = lastn 1000 (h ++ [rec]).
Proof.
  intros H. rewrite length_app. cbn [List.length].
  destruct (Z.ltb_spec 1000 (Z.of_nat (List.length h + 1))) as [G|G].
  - assert (E : List.length h = 1000%nat) by lia.
    unfold lastn. rewrite length_app. cbn [List.length].
    replace (List.length h + 1 - 1000)%nat with 1%nat by lia.
    destruct (h ++ [rec]); reflexivity.
  - symmetry. apply lastn_all. rewrite length_app. cbn [List.length]. lia.
Qed.

Lemma recordUsage_run ty n b e clk t r :
  recordUsage ty n b e clk t r =
  (tt, S t,
   set_usageHistory
     (let h := (usageHistory r ++ [mkUsageRecord (clk t) ty n (Name (config r)) b e])%list in
      if 1000 <? Z.of_nat (List.length h) then List.tl h else h) r).
Proof. reflexivity. Qed.

Lemma recordUsage_ledger ty n b e clk t r :
  ledger_ok r ->
  usageHistory (state (recordUsage ty n b e clk t r)) =
    lastn 1000 (usageHistory r ++ [mkUsageRecord (clk t) ty n (Name (config r)) b e]) /\
  ledger_ok (state (recordUsage ty n b e clk t r)).
Proof.
  intros H. rewrite recordUsage_run. unfold state, ledger_ok. cbn [snd usageHistory set_usageHistory].
  cbv zeta. rewrite (keep_last _ _ H). split; [reflexivity|].
  rewrite lastn_length. lia.
Qed.

Lemma lastn_app_lastn {A} k (l m : list A) :
  lastn k (lastn k l ++ m) = lastn k (l ++ m).
Proof.
  destruct (Nat.le_gt_cases (List.length l) k) as [H|H].
  - rewrite (lastn_all k l H). reflexivity.
  - unfold lastn at 1. rewrite length_app, lastn_length.
    replace (Nat.min k (List.length l) + List.length m - k)%nat with (List.length m) by lia.
    unfold lastn. rewrite length_app.
    replace (List.length l + List.length m - k)%nat
      with (List.length m + (List.length l - k))%nat by lia.
    rewrite <- skipn_skipn. f_equal.
    rewrite skipn_app.
    replace (List.length l - k - List.length l)%nat with 0%nat by lia. reflexivity.
Qed.

Lemma push_ok (h : list UsageRecord) (rec : UsageRecord) :
  (List.length h <= 1000)%nat ->
  (List.length (if (1000 <? Z.of_nat (List.length (h ++ [rec])))%Z
                then List.tl (h ++ [rec]) else h ++ [rec]) <= 1000)%nat.
Proof. intros H. rewrite (keep_last _ _ H), lastn_length. lia. Qed.

(** X1.  The ledger never holds more than 1000 records: a new limiter
    starts with none, and [CheckLimit], [TrackTokens] and [Reset] keep the
    bound. *)
Theorem ledger_bound (clk : Clock) (t : nat) (r : RateLimiter) (n : Z) (cfg : ModelConfig) :
  ledger_ok r ->
  ledger_ok (state (CheckLimit clk t r)) /\
  ledger_ok (state (TrackTokens n clk t r)) /\
  ledger_ok (state (Reset clk t r)) /\
  ledger_ok (result (NewRateLimiter cfg clk t tt)).
Proof.
  intros H. destruct r as [rc tc lr dc dr c h]. unfold ledger_ok in *.
  cbn [usageHistory] in H.
  repeat split.
  - run_rl. tidy_rl.
    destruct (Minute <=? Sub (clk t) lr) eqn:E1; tidy_rl; rewrite ?E1; tidy_rl;
      destruct (24 * Hour <=? Sub (clk t) dr); tidy_rl;
      destruct (RPM c <=? _); tidy_rl; try (repeat apply push_ok; exact H);
      destruct (TPM c <=? _); tidy_rl; try (repeat apply push_ok; exact H);
      destruct (RPD c <=? _); tidy_rl; repeat apply push_ok; exact H.
  - run_rl. tidy_rl. destruct (TPM c <=? _); tidy_rl; apply push_ok; exact H.
  - run_rl. tidy_rl. destruct (Minute <=? Sub (clk t) lr); tidy_rl;
      repeat apply push_ok; exact H.
  - cbn. lia.
Qed.

Lemma TrackTokens_ledger clk t r n :
  ledger_ok r ->
  ticks (TrackTokens n clk t r) = S t /\
  config (state (TrackTokens n clk t r)) = config r /\
  usageHistory (state (TrackTokens n clk t r)) =
    lastn 1000 (usageHistory r ++
                [mkUsageRecord (clk t) "token_update" n (Name (config r)) true None]).
Proof.
  intros H. destruct r as [rc tc lr dc dr c h]. unfold ledger_ok in H.
  cbn [usageHistory] in H. run_rl. tidy_rl.
  destruct (TPM c <=? _); tidy_rl; rewrite (keep_last _ _ H); auto.
Qed.

(** X2.  Oldest first out: after any number of [TrackTokens] calls the
    ledger is the last 1000 records of what it held followed by one record
    per call, in call order. *)
Theorem ledger_keeps_latest (clk : Clock) (counts : list Z) :
  forall (t : nat) (r : RateLimiter),
    ledger_ok r ->
    let out := TrackTokensAll counts clk t r in
    usageHistory (state out) =
      lastn 1000 (usageHistory r ++ tokenRecords clk t (Name (config r)) counts) /\
    List.length (usageHistory (state out)) =
      Nat.min 1000 (List.length (usageHistory r) + List.length counts).
Proof.
  induction counts as [|c counts IH]; intros t r H out.
  - subst out. cbn [TrackTokensAll tokenRecords]. unfold ret, state. cbn [snd].
    rewrite app_nil_r, (lastn_all 1000 _ H). split; [reflexivity|].
    unfold ledger_ok in H. cbn [List.length]. lia.
  - subst out.
    destruct (TrackTokens_ledger clk t r c H) as (Ht & Hc & Hh).
    destruct (TrackTokens c clk t r) as [[e t1] r1] eqn:E.
    unfold ticks, state in Ht, Hc, Hh. cbn [fst snd] in Ht, Hc, Hh. subst t1.
    assert (H1 : ledger_ok r1).
    { unfold ledger_ok. rewrite Hh, lastn_length. lia. }
    specialize (IH (S t) r1 H1). cbv zeta in IH. destruct IH as (IH1 & IH2).
    destruct (TrackTokensAll counts clk (S t) r1) as [[es t2] r2] eqn:E2.
    assert (Eall : TrackTokensAll (c :: counts) clk t r = (e :: es, t2, r2)).
    { cbn [TrackTokensAll]. unfold bind, ret. rewrite E, E2. reflexivity. }
    rewrite Eall. unfold state in *. cbn [snd] in *. cbn [tokenRecords].
    split.
    + rewrite IH1, Hh, Hc, lastn_app_lastn, <- app_assoc. reflexivity.
    + rewrite IH2, Hh, lastn_length, length_app. cbn [List.length]. lia.
Qed.

(** *** Quota and ceilings *)

Lemma sub_exact x y : 0 <= x -> 0 <= y -> GoInt.in_range x -> GoInt.in_range y ->
  sub x y = x - y.
Proof.
  intros Hx Hy Rx Ry. unfold sub. apply wrap_id.
  unfold GoInt.in_range, GoInt.min_int, GoInt.max_int in *. lia.
Qed.

Lemma CheckLimit_idle clk t r :
  clk t - lastReset r < Minute -> clk t - dailyReset r < 24 * Hour ->
  CheckLimit clk t r = admission clk (S t) r.
Proof.
  intros H1 H2. rewrite CheckLimit_run, (rollWindows_idle _ clk (S t) r H1 H2). reflexivity.
Qed.

(** X3.  While neither window rolls, [CheckLimit] admits exactly when the
    three remaining quotas are positive, and an admission takes one from the
    remaining requests per minute and per day and leaves the remaining
    tokens. *)
Theorem quota_decides_admission (clk : Clock) (t : nat) (r : RateLimiter) :
  well_typed r ->
  0 <= requestCount r -> 0 <= tokenCount r -> 0 <= dailyCount r ->
  0 <= RPM (config r) -> 0 <= TPM (config r) -> 0 <= RPD (config r) ->
  clk t - lastReset r < Minute -> clk t - dailyReset r < 24 * Hour ->
  let q := result (GetRemainingQuota clk t r) in
  let out := CheckLimit clk t r in
  let q' := result (GetRemainingQuota clk (ticks out) (state out)) in
  (result out = None <->
     0 < remaining_rpm q /\ 0 < remaining_tpm q /\ 0 < remaining_rpd q) /\
  (result out = None ->
     remaining_rpm q' = remaining_rpm q - 1 /\ remaining_tpm q' = remaining_tpm q /\
     remaining_rpd q' = remaining_rpd q - 1 /\ 0 <= remaining_rpm q' /\
     0 <= remaining_rpd q') /\
  (result out <> None -> q' = q).
Proof.
  intros (Rrc & Rtc & Rdc & Rrpm & Rtpm & Rrpd) Nrc Ntc Ndc Nrpm Ntpm Nrpd W1 W2 q out q'.
  subst q q' out. rewrite (CheckLimit_idle clk t r W1 W2), admission_run.
  destruct r as [rc tc lr dc dr c h]. cbn [requestCount tokenCount dailyCount config] in *.
  unfold GetRemainingQuota, bind, get, ret, result, ticks, state.
  cbn [fst snd requestCount tokenCount dailyCount config remaining_rpm remaining_tpm
       remaining_rpd].
  rewrite !sub_exact by assumption.
  destruct (Z.leb_spec (RPM c) rc) as [G1|G1];
    [|destruct (Z.leb_spec (TPM c) tc) as [G2|G2];
      [|destruct (Z.leb_spec (RPD c) dc) as [G3|G3]]];
    cbn [fst snd requestCount tokenCount dailyCount config set_requestCount set_dailyCount
         remaining_rpm remaining_tpm remaining_rpd].
  4: { rewrite (incr_below rc (RPM c)), (incr_below dc (RPD c)) by assumption.
       assert (Rrc' : GoInt.in_range (rc + 1))
         by (unfold GoInt.in_range, GoInt.min_int, GoInt.max_int in *; lia).
       assert (Rdc' : GoInt.in_range (dc + 1))
         by (unfold GoInt.in_range, GoInt.min_int, GoInt.max_int in *; lia).
       rewrite !sub_exact by (assumption || lia).
       repeat split; try lia; intros; congruence. }
  all: rewrite ?sub_exact by assumption;
    (split; [split; [discriminate|lia]|split; [discriminate|reflexivity]]).
Qed.


(** X5.  A new minute does not lift the daily ceiling: when the minute
    window rolls but the day window does not and the daily count has
    reached RPD, [CheckLimit] is refused with the daily message, whose wait
    runs to 24 hours after [dailyReset]; the daily count stays. *)
Theorem daily_ceiling_survives_minute (clk : Clock) (t : nat) (r : RateLimiter) :
  Minute <= Sub (clk t) (lastReset r) ->
  Sub (clk t) (dailyReset r) < 24 * Hour ->
  0 < RPM (config r) -> 0 < TPM (config r) ->
  RPD (config r) <= dailyCount r ->
  let out := CheckLimit clk t r in
  result out =
    Some (refusal fmtDaily (dailyCount r) (RPD (config r))
            (Sub (Add (dailyReset r) (24 * Hour)) (clk (S (S t)))) true) /\
  dailyCount (state out) = dailyCount r /\
  requestCount (state out) = 0 /\ tokenCount (state out) = 0.
Proof.
  intros Hmin Hday Hrpm Htpm Hrpd out. subst out.
  apply Z.leb_le in Hmin. apply Z.leb_gt in Hday.
  destruct r as [rc tc lr dc dr c h]. cbn [lastReset dailyReset config dailyCount] in *.
  run_rl. tidy_rl. rewrite Hmin. tidy_rl. rewrite Hmin. tidy_rl. rewrite Hday. tidy_rl.
  destruct (Z.leb_spec (RPM c) 0); [lia|]. tidy_rl.
  destruct (Z.leb_spec (TPM c) 0); [lia|]. tidy_rl.
  destruct (Z.leb_spec (RPD c) dc); [|lia]. tidy_rl.
  repeat split.
Qed.

(** *** Waiting for availability *)

Lemma rolled_refl r : rolled r r.
Proof. unfold rolled. auto. Qed.

Lemma rolled_trans r1 r2 r3 : rolled r1 r2 -> rolled r2 r3 -> rolled r1 r3.
Proof.
  unfold rolled. intros (C1 & A1 & B1 & D1) (C2 & A2 & B2 & D2).
  split; [congruence|].
  repeat split;
    [destruct A1 as [E|E], A2 as [E'|E'] | destruct B1 as [E|E], B2 as [E'|E']
     | destruct D1 as [E|E], D2 as [E'|E']];
    rewrite ?E', ?E; auto.
Qed.

Lemma rollWindows_rolled now clk t r : rolled r (state (rollWindows now clk t r)).
Proof.
  pose proof (rollWindows_state now clk t r) as (Hc & Hm & Hd). unfold rolled.
  destruct (Minute <=? now - lastReset r), (24 * Hour <=? now - dailyReset r);
    destruct Hm as (-> & -> & _), Hd as (-> & _); auto.
Qed.

Lemma CheckLimit_refused_rolled clk t r :
  result (CheckLimit clk t r) <> None -> rolled r (state (CheckLimit clk t r)).
Proof.
  intros H. rewrite CheckLimit_run in *.
  pose proof (rollWindows_rolled (clk t) clk (S t) r) as R.
  pose proof (admission_frame clk (ticks (rollWindows (clk t) clk (S t) r))
                (state (rollWindows (clk t) clk (S t) r)))
    as (Ftc & _ & _ & Fcfg & _ & Fno).
  destruct (Fno H) as (Frc & Fdc).
  eapply rolled_trans; [exact R|]. unfold rolled. rewrite Ftc, Fcfg, Frc, Fdc. auto.
Qed.

Lemma CheckLimit_admitted clk t r :
  well_typed r -> result (CheckLimit clk t r) = None ->
  exists r0, rolled r r0 /\
    requestCount r0 < RPM (config r) /\ tokenCount r0 < TPM (config r) /\
    dailyCount r0 < RPD (config r) /\
    requestCount (state (CheckLimit clk t r)) = requestCount r0 + 1 /\
    tokenCount (state (CheckLimit clk t r)) = tokenCount r0 /\
    dailyCount (state (CheckLimit clk t r)) = dailyCount r0 + 1 /\
    config (state (CheckLimit clk t r)) = config r.
Proof.
  intros W H. exists (state (rollWindows (clk t) clk (S t) r)).
  pose proof (rollWindows_rolled (clk t) clk (S t) r) as R.
  split; [exact R|]. destruct R as (Rc & Rrc & Rtc & Rdc).
  destruct W as (Wrc & Wtc & Wdc & Wrpm & Wtpm & Wrpd).
  set (mid := state (rollWindows (clk t) clk (S t) r)) in *.
  assert (Mrc : GoInt.in_range (requestCount mid))
    by (destruct Rrc as [->| ->]; [assumption|apply zero_in_range]).
  assert (Mdc : GoInt.in_range (dailyCount mid))
    by (destruct Rdc as [->| ->]; [assumption|apply zero_in_range]).
  rewrite CheckLimit_run in *. fold mid in H |- *.
  rewrite admission_run in *. rewrite Rc in *.
  destruct (Z.leb_spec (RPM (config r)) (requestCount mid)); [discriminate|].
  destruct (Z.leb_spec (TPM (config r)) (tokenCount mid)); [discriminate|].
  destruct (Z.leb_spec (RPD (config r)) (dailyCount mid)); [discriminate|].
  unfold state. cbn [snd requestCount tokenCount dailyCount config set_requestCount
                     set_dailyCount].
  rewrite (incr_below _ (RPM (config r))), (incr_below _ (RPD (config r))) by assumption.
  repeat split; auto.
Qed.

Lemma CheckLimit_ticks clk t r : (S t <= ticks (CheckLimit clk t r))%nat.
Proof.
  destruct r as [rc tc lr dc dr c h]. run_rl. tidy_rl.
  destruct (Minute <=? Sub (clk t) lr) eqn:E1; tidy_rl; rewrite ?E1; tidy_rl;
    destruct (24 * Hour <=? Sub (clk t) dr); tidy_rl;
    destruct (RPM c <=? _); tidy_rl; try lia;
    destruct (TPM c <=? _); tidy_rl; try lia;
    destruct (RPD c <=? _); tidy_rl; lia.
Qed.

Lemma waitLoop_S fuel deadline timeout clk t r :
  waitLoop (S fuel) deadline timeout clk t r =
  if Before (clk t) deadline then
    match CheckLimit clk (S t) r with
    | (None, t1, r1) => (Some None, t1, r1)
    | (Some _, t1, r1) => waitLoop fuel deadline timeout clk t1 r1
    end
  else (Some (Some (ErrTimeoutf fmtTimeout [ArgInt timeout])), S t, r).
Proof.
  cbn [waitLoop]. unfold bind, Now, ret.
  destruct (Before (clk t) deadline); [|reflexivity].
  destruct (CheckLimit clk (S t) r) as [[[e|] t1] r1]; reflexivity.
Qed.

Lemma waitLoop_returns deadline timeout clk : forall fuel t r,
  well_typed r ->
  let out := waitLoop fuel deadline timeout clk t r in
  (result out = Some None ->
     exists r0, rolled r r0 /\
       requestCount r0 < RPM (config r) /\ tokenCount r0 < TPM (config r) /\
       dailyCount r0 < RPD (config r) /\
       requestCount (state out) = requestCount r0 + 1 /\
       tokenCount (state out) = tokenCount r0 /\
       dailyCount (state out) = dailyCount r0 + 1) /\
  (forall e, result out = Some (Some e) ->
     e = ErrTimeoutf fmtTimeout [ArgInt timeout] /\ rolled r (state out)).
Proof.
  induction fuel as [|fuel IH]; intros t r W out; subst out.
  - cbn [waitLoop]. cbv beta iota delta [ret result state fst snd].
    split; [discriminate|intros e; discriminate].
  - rewrite waitLoop_S.
    destruct (Before (clk t) deadline).
    2: { cbv beta iota delta [result state fst snd]. split; [discriminate|].
         intros e H. injection H as <-. split; [reflexivity|apply rolled_refl]. }
    pose proof (CheckLimit_admitted clk (S t) r W) as Hadm.
    pose proof (CheckLimit_refused_rolled clk (S t) r) as Href.
    pose proof (CheckLimit_well_typed clk (S t) r W) as W1.
    destruct (CheckLimit clk (S t) r) as [[e t1] r1] eqn:E.
    cbv beta iota delta [result state fst snd] in Hadm, Href, W1.
    destruct e as [e|].
    + specialize (IH t1 r1 W1). cbv zeta in IH. destruct IH as (IH1 & IH2).
      assert (R1 : rolled r r1) by (apply Href; discriminate).
      assert (C1 : config r1 = config r) by (apply R1).
      split.
      * intros H. destruct (IH1 H) as (r0 & R0 & A & B & C & D).
        exists r0. rewrite C1 in A, B, C. split; [eapply rolled_trans; eassumption|auto].
      * intros e' H. destruct (IH2 e' H) as (He & R2).
        split; [exact He|eapply rolled_trans; eassumption].
    + cbv beta iota delta [result state fst snd]. split; [|intros e' H; discriminate].
      intros _. destruct (Hadm eq_refl) as (r0 & R0 & A & B & C & D & F & G & _).
      exists r0. auto 10.
Qed.

(** X6.  What [WaitForAvailability] returns says what happened.  When it
    returns nil, exactly one admission was counted on top of the window
    roll-overs, below the ceilings.  When it returns an error, that is the
    timeout error and no admission was counted: every counter is what it
    was, or zero after a roll-over. *)
Theorem WaitForAvailability_outcome
        (fuel : nat) (timeout : Duration) (clk : Clock) (t : nat) (r : RateLimiter) :
  well_typed r ->
  let out := WaitForAvailability fuel timeout clk t r in
  (result out = Some None ->
     exists r0, rolled r r0 /\
       requestCount r0 < RPM (config r) /\ tokenCount r0 < TPM (config r) /\
       dailyCount r0 < RPD (config r) /\
       requestCount (state out) = requestCount r0 + 1 /\
       tokenCount (state out) = tokenCount r0 /\
       dailyCount (state out) = dailyCount r0 + 1) /\
  (forall e, result out = Some (Some e) ->
     Type_ e = ErrTimeout /\ rolled r (state out)).
Proof.
  intros W out. subst out. unfold WaitForAvailability, bind, Now.
  destruct (waitLoop_returns (Add (clk t) timeout) timeout clk fuel (S t) r W) as (H1 & H2).
  split; [exact H1|]. intros e H. destruct (H2 e H) as (-> & R). split; [reflexivity|exact R].
Qed.

Lemma waitLoop_terminates deadline timeout clk : forall fuel t r,
  (forall i, (t + fuel <= i)%nat -> deadline <= clk i) ->
  result (waitLoop (S fuel) deadline timeout clk t r) <> None.
Proof.
  induction fuel as [|fuel IH]; intros t r Hclk; rewrite waitLoop_S; unfold Before.
  - destruct (Z.ltb_spec (clk t) deadline) as [G|G].
    + specialize (Hclk t ltac:(lia)). lia.
    + cbv beta iota delta [result fst]. discriminate.
  - destruct (clk t <? deadline); [|cbv beta iota delta [result fst]; discriminate].
    pose proof (CheckLimit_ticks clk (S t) r) as Ht.
    destruct (CheckLimit clk (S t) r) as [[e t1] r1].
    cbv beta iota delta [ticks fst snd] in Ht.
    destruct e as [e|]; [|cbv beta iota delta [result fst]; discriminate].
    apply (IH t1 r1). intros i Hi. apply Hclk. lia.
Qed.

(** X7.  [WaitForAvailability] returns once the clock has passed the
    deadline: when every reading from the [n]-th on is at or after the start
    plus the timeout, [n + 1] rounds of the loop are enough.  When the first
    reading of the loop is already there, as with a timeout of zero or less
    on a clock that does not go back, it returns the timeout error at once
    and leaves the limiter as it was. *)
Theorem WaitForAvailability_times_out
        (n : nat) (timeout : Duration) (clk : Clock) (t : nat) (r : RateLimiter) :
  ((forall i, (S t + n <= i)%nat -> Add (clk t) timeout <= clk i) ->
   result (WaitForAvailability (S n) timeout clk t r) <> None) /\
  (Add (clk t) timeout <= clk (S t) ->
   WaitForAvailability (S n) timeout clk t r =
     (Some (Some (ErrTimeoutf fmtTimeout [ArgInt timeout])), S (S t), r)).
Proof.
  split.
  - intros H. unfold WaitForAvailability, bind, Now.
    apply waitLoop_terminates. exact H.
  - intros H. unfold WaitForAvailability, bind, Now. rewrite waitLoop_S. unfold Before.
    destruct (Z.ltb_spec (clk (S t)) (Add (clk t) timeout)); [lia|]. reflexivity.
Qed.

(** *** The theorems at concrete inputs *)

Lemma ledger_bound_witness :
  ledger_ok full /\
  ledger_ok (state (CheckLimit later 0%nat full)) /\
  ledger_ok (state (TrackTokens 25 later 0%nat full)) /\
  ledger_ok (state (Reset later 0%nat full)) /\
  ledger_ok (result (NewRateLimiter pro later 0%nat tt)).
Proof.
  assert (H : ledger_ok full)
    by (unfold ledger_ok, full; cbn [usageHistory]; rewrite repeat_length; apply Nat.le_refl).
  split; [exact H|].
  exact (ledger_bound later 0%nat full 25 pro H).
Defined.

Lemma ledger_keeps_latest_witness :
  ledger_ok full /\
  usageHistory (state (TrackTokensAll [10; 20; 30] noon 0%nat full)) =
    lastn 1000 (usageHistory full ++ tokenRecords noon 0%nat (Name (config full)) [10; 20; 30]) /\
  List.length (usageHistory (state (TrackTokensAll [10; 20; 30] noon 0%nat full))) =
    Nat.min 1000 (List.length (usageHistory full) + List.length [10; 20; 30]).
Proof.
  assert (H : ledger_ok full)
    by (unfold ledger_ok, full; cbn [usageHistory]; rewrite repeat_length; apply Nat.le_refl).
  split; [exact H|].
  exact (ledger_keeps_latest noon [10; 20; 30] 0%nat full H).
Defined.

Lemma quota_decides_admission_witness :
  well_typed busy /\ 0 <= requestCount busy /\ 0 <= tokenCount busy /\
  0 <= dailyCount busy /\ 0 <= RPM (config busy) /\ 0 <= TPM (config busy) /\
  0 <= RPD (config busy) /\ halfPast 0%nat - lastReset busy < Minute /\
  halfPast 0%nat - dailyReset busy < 24 * Hour /\
  (result (CheckLimit halfPast 0%nat busy) = None <->
   0 < remaining_rpm (result (GetRemainingQuota halfPast 0%nat busy)) /\
   0 < remaining_tpm (result (GetRemainingQuota halfPast 0%nat busy)) /\
   0 < remaining_rpd (result (GetRemainingQuota halfPast 0%nat busy))).
Proof.
  assert (W : well_typed busy) by (repeat split; vm_compute; discriminate).
  assert (H1 : 0 <= requestCount busy) by (vm_compute; discriminate).
  assert (H2 : 0 <= tokenCount busy) by (vm_compute; discriminate).
  assert (H3 : 0 <= dailyCount busy) by (vm_compute; discriminate).
  assert (H4 : 0 <= RPM (config busy)) by (vm_compute; discriminate).
  assert (H5 : 0 <= TPM (config busy)) by (vm_compute; discriminate).
  assert (H6 : 0 <= RPD (config busy)) by (vm_compute; discriminate).
  assert (H7 : halfPast 0%nat - lastReset busy < Minute) by (vm_compute; reflexivity).
  assert (H8 : halfPast 0%nat - dailyReset busy < 24 * Hour) by (vm_compute; reflexivity).
  repeat (split; [assumption|]).
  exact (proj1 (quota_decides_admission halfPast 0%nat busy W H1 H2 H3 H4 H5 H6 H7 H8)).
Defined.


Lemma daily_ceiling_survives_minute_witness :
  Minute <= Sub (later 0%nat) (lastReset spent) /\
  Sub (later 0%nat) (dailyReset spent) < 24 * Hour /\
  0 < RPM (config spent) /\ 0 < TPM (config spent) /\
  RPD (config spent) <= dailyCount spent /\
  dailyCount (state (CheckLimit later 0%nat spent)) = dailyCount spent /\
  requestCount (state (CheckLimit later 0%nat spent)) = 0 /\
  tokenCount (state (CheckLimit later 0%nat spent)) = 0.
Proof.
  assert (H1 : Minute <= Sub (later 0%nat) (lastReset spent)) by (vm_compute; discriminate).
  assert (H2 : Sub (later 0%nat) (dailyReset spent) < 24 * Hour) by (vm_compute; reflexivity).
  assert (H3 : 0 < RPM (config spent)) by reflexivity.
  assert (H4 : 0 < TPM (config spent)) by reflexivity.
  assert (H5 : RPD (config spent) <= dailyCount spent) by (vm_compute; discriminate).
  repeat (split; [assumption|]).
  exact (proj2 (daily_ceiling_survives_minute later 0%nat spent H1 H2 H3 H4 H5)).
Defined.

Lemma WaitForAvailability_outcome_witness :
  well_typed spent /\
  Type_ (ErrTimeoutf fmtTimeout [ArgInt (3 * Second)]) = ErrTimeout /\
  rolled spent (state (WaitForAvailability 10 (3 * Second) ticking 0%nat spent)).
Proof.
  assert (W : well_typed spent) by (repeat split; vm_compute; discriminate).
  split; [exact W|].
  exact (proj2 (WaitForAvailability_outcome 10 (3 * Second) ticking 0%nat spent W)
               (ErrTimeoutf fmtTimeout [ArgInt (3 * Second)]) eq_refl).
Defined.

Lemma WaitForAvailability_times_out_witness :
  (forall i, (1 + 3 <= i)%nat -> Add (ticking 0%nat) (3 * Second) <= ticking i) /\
  result (WaitForAvailability 4 (3 * Second) ticking 0%nat spent) <> None.
Proof.
  assert (H : forall i, (1 + 3 <= i)%nat -> Add (ticking 0%nat) (3 * Second) <= ticking i).
  { intros i Hi. unfold Add, ticking. change (Z.of_nat 0 * Second + 3 * Second) with (3 * Second).
    apply Z.mul_le_mono_nonneg_r; [vm_compute; discriminate|].
    apply (Nat2Z.inj_le 3 i). apply (Nat.le_trans 3 4 i); [apply Nat.le_succ_diag_r|exact Hi]. }
  split; [exact H|].
  exact (proj1 (WaitForAvailability_times_out 3 (3 * Second) ticking 0%nat spent) H).
Defined.

End LimiterProps.

(* ===================================================================== *)
(** ** The chat session: the calls of [Send] that fail *)
(* ===================================================================== *)

Section SendFailureProps.

Import GoTime Errors Clocked Extract Chat.
Local Open Scope string_scope.
Local Open Scope Z_scope.

(** The limiter's refusals are rate-limit errors. *)
Lemma CheckLimit_error_type clk t r e :
  result (RL.CheckLimit clk t r) = Some e -> Type_ e = ErrRateLimit.
Proof.
  rewrite CheckLimit_run, admission_run.
  repeat match goal with
         | |- context [if ?b then _ else _] => destruct b
         end;
    cbv beta iota delta [result fst]; intros H; try discriminate;
    injection H as <-; reflexivity.
Qed.

Lemma TrackTokens_error_type n clk t r e :
  result (RL.TrackTokens n clk t r) = Some e -> Type_ e = ErrRateLimit.
Proof.
  destruct r as [rc tc lr dc dr c h].
  cbv [RL.TrackTokens RL.recordUsage bind ret get put modify Now result].
  cbn -[Z.leb GoInt.add List.length List.app List.tl Z.of_nat Z.ltb].
  destruct (Z.ltb _ _); cbn -[Z.leb GoInt.add List.length List.app List.tl Z.of_nat Z.ltb];
    destruct (Z.leb _ _); cbn; intros H; try discriminate; injection H as <-; reflexivity.
Qed.

(** The run of [Send] once the limiter has admitted the request. *)
Lemma Send_admitted GenerateContent estimateTokenCount message clk t (c : Chat.Chat) t1 r1 :
  RL.CheckLimit clk t (rateLimiter c) = (None, t1, r1) ->
  Send GenerateContent estimateTokenCount message clk t c =
  match GenerateContent [Text (addContext (currentContext c) message)] with
  | GenerateError err =>
      (inr (ErrExecutionf ("failed to generate content: " ++ err)), t1,
       mkChat (modelName c) r1 (history c)
         (set_ErrorCount (GoInt.incr (ErrorCount (currentContext c))) (currentContext c)))
  | Candidates [] =>
      (inr (ErrExecutionf "no response generated"), t1,
       mkChat (modelName c) r1 (history c)
         (set_ErrorCount (GoInt.incr (ErrorCount (currentContext c))) (currentContext c)))
  | Candidates (None :: _) =>
      (inr (ErrExecutionf "empty response content"), t1,
       mkChat (modelName c) r1 (history c)
         (set_ErrorCount (GoInt.incr (ErrorCount (currentContext c))) (currentContext c)))
  | Candidates (Some content :: _) =>
      match Parts content with
      | [] =>
          (inr (ErrExecutionf "empty response content"), t1,
           mkChat (modelName c) r1 (history c)
             (set_ErrorCount (GoInt.incr (ErrorCount (currentContext c))) (currentContext c)))
      | _ :: _ =>
          let command := fst (extractCommandAndOutput content) in
          let fullOutput := snd (extractCommandAndOutput content) in
          let prompt := addContext (currentContext c) message in
          let n := estimateTokenCount (prompt ++ fullOutput) in
          let ctx' := set_CommandCount (GoInt.incr (CommandCount (currentContext c)))
                        (set_LastModified (clk t1)
                           (set_LastCommand command (currentContext c))) in
          let h' := (history c ++ [mkContent [Text prompt] "user"; content])%list in
          match RL.TrackTokens n clk (S t1) r1 with
          | (Some err, t2, r2) => (inr err, t2, mkChat (modelName c) r2 h' ctx')
          | (None, t2, r2) =>
              (inl (mkResponse command fullOutput
                      (mkMetadata (modelName c) (clk t2) n (CommandCount ctx')
                         (ErrorCount ctx') (Sub (clk (S t2)) (SessionStart ctx')))),
               S (S t2), mkChat (modelName c) r2 h' ctx')
          end
      end
  end.
Proof.
  intros ECL. unfold Send, bind, onLimiter, zoom. rewrite ECL.
  cbv [get]. cbn [rateLimiter currentContext set_rateLimiter].
  destruct (GenerateContent [Text (addContext (currentContext c) message)])
    as [err|cands]; [reflexivity|].
  destruct cands as [|[content|] rest]; [reflexivity| |reflexivity].
  destruct (Parts content) as [|p ps]; [reflexivity|].
  destruct (extractCommandAndOutput content) as [command fullOutput].
  cbv [modify onContext zoom Now ret bind].
  cbn [rateLimiter currentContext set_rateLimiter set_currentContext set_history
       history modelName fst snd].
  cbv zeta.
  match goal with
  | |- context [RL.TrackTokens ?n clk ?t' ?r] =>
      destruct (RL.TrackTokens n clk t' r) as [[tr t2] r2]
  end.
  destruct tr as [e|]; reflexivity.
Qed.

(** The run of [Send] when the limiter refuses the request. *)
Lemma Send_refused_run GenerateContent estimateTokenCount message clk t (c : Chat.Chat)
      e t1 r1 :
  RL.CheckLimit clk t (rateLimiter c) = (Some e, t1, r1) ->
  Send GenerateContent estimateTokenCount message clk t c =
  (inr e, t1, mkChat (modelName c) r1 (history c) (currentContext c)).
Proof.
  intros ECL. unfold Send, bind, onLimiter, zoom. rewrite ECL. reflexivity.
Qed.

(** X8.  The model is consulted exactly when the limiter admits the
    request.  A call of [Send] that the limiter refuses returns the
    limiter's error, a rate-limit error, and leaves the history and the
    context as they were; and the limiter refuses exactly when the result
    and the session are the same for every backend and token estimate. *)
Theorem Send_refused (message : string) (clk : Clock) (t : nat) (c : Chat.Chat) :
  (forall e, result (RL.CheckLimit clk t (rateLimiter c)) = Some e ->
     forall GenerateContent estimateTokenCount,
       let out := Send GenerateContent estimateTokenCount message clk t c in
       result out = inr e /\ Type_ e = ErrRateLimit /\
       history (state out) = history c /\
       currentContext (state out) = currentContext c /\
       rateLimiter (state out) = state (RL.CheckLimit clk t (rateLimiter c))) /\
  (result (RL.CheckLimit clk t (rateLimiter c)) <> None <->
   forall GenerateContent GenerateContent' estimateTokenCount estimateTokenCount',
     Send GenerateContent estimateTokenCount message clk t c =
     Send GenerateContent' estimateTokenCount' message clk t c).
Proof.
  pose proof (CheckLimit_error_type clk t (rateLimiter c)) as HT.
  destruct (RL.CheckLimit clk t (rateLimiter c)) as [[lim t1] r1] eqn:ECL.
  cbv beta iota delta [result state fst snd] in *. split; [|split].
  - intros e H G est. subst lim. rewrite (Send_refused_run _ _ _ _ _ _ _ _ _ ECL).
    cbv beta iota delta [fst snd]. cbn [history currentContext rateLimiter].
    repeat split. apply HT. reflexivity.
  - intros H G G' est est'. destruct lim as [e|]; [|contradiction].
    rewrite !(Send_refused_run _ _ _ _ _ _ _ _ _ ECL). reflexivity.
  - intros H. destruct lim as [e|]; [discriminate|]. exfalso.
    specialize (H (fun _ => GenerateError "a") (fun _ => GenerateError "b")
                  (fun _ => 0) (fun _ => 0)).
    rewrite !(Send_admitted _ _ _ _ _ _ _ _ ECL) in H. discriminate.
Qed.

(** X9.  [Send] fails with a rate-limit error or with an execution error,
    never with another.  Only execution errors are counted in
    [ErrorCount]; they leave the history, the last command and the command
    count as they were, and the request stays counted by the limiter. *)
Theorem Send_error_accounting
        (GenerateContent : list Part -> Generated) (estimateTokenCount : string -> Z)
        (message : string) (clk : Clock) (t : nat) (c : Chat.Chat) (e : CustomError) :
  let out := Send GenerateContent estimateTokenCount message clk t c in
  let ctx := currentContext c in
  let ctx' := currentContext (state out) in
  result out = inr e ->
  (Type_ e = ErrRateLimit /\ ErrorCount ctx' = ErrorCount ctx) \/
  (Type_ e = ErrExecution /\
   ErrorCount ctx' = GoInt.incr (ErrorCount ctx) /\
   history (state out) = history c /\
   LastCommand ctx' = LastCommand ctx /\
   CommandCount ctx' = CommandCount ctx /\
   result (RL.CheckLimit clk t (rateLimiter c)) = None /\
   rateLimiter (state out) = state (RL.CheckLimit clk t (rateLimiter c))).
Proof.
  intros out ctx ctx'. subst out ctx ctx'.
  destruct (RL.CheckLimit clk t (rateLimiter c)) as [[lim t1] r1] eqn:ECL.
  destruct lim as [e0|].
  - assert (HT : Type_ e0 = ErrRateLimit)
      by (apply (CheckLimit_error_type clk t (rateLimiter c)); rewrite ECL; reflexivity).
    rewrite (Send_refused_run _ _ _ _ _ _ _ _ _ ECL).
    cbv beta iota delta [result state fst snd]. cbn [currentContext].
    intros H. injection H as <-. left. auto.
  - rewrite (Send_admitted _ _ _ _ _ _ _ _ ECL).
    destruct (GenerateContent [Text (addContext (currentContext c) message)])
      as [err|[|[content|] rest]].
    1, 2, 4: cbv beta iota delta [result state fst snd]; intros H; injection H as <-;
             right; repeat split; reflexivity.
    destruct (Parts content) as [|p ps].
    + cbv beta iota delta [result state fst snd]; intros H; injection H as <-;
        right; repeat split; reflexivity.
    + cbv zeta.
      match goal with
      | |- context [RL.TrackTokens ?n clk ?t' ?r] =>
          pose proof (TrackTokens_error_type n clk t' r) as HT;
          destruct (RL.TrackTokens n clk t' r) as [[tr t2] r2]
      end.
      destruct tr as [e1|]; cbv beta iota delta [result state fst snd] in *;
        intros H; [|discriminate].
      injection H as <-. left. split; [apply HT; reflexivity|reflexivity].
Qed.

(** X10.  When the reply takes the minute's tokens to the ceiling, [Send]
    returns the limiter's error in place of the response, after the
    session was updated: the exchange is in the history, and the last
    command and the command count are those of the reply. *)
Theorem Send_token_breach
        (GenerateContent : list Part -> Generated) (estimateTokenCount : string -> Z)
        (message : string) (clk : Clock) (t : nat) (c : Chat.Chat)
        (content : Content) (rest : list (option Content)) (e : CustomError) :
  let admitted := RL.CheckLimit clk t (rateLimiter c) in
  let prompt := addContext (currentContext c) message in
  let n := estimateTokenCount (prompt ++ snd (extractCommandAndOutput content)) in
  result admitted = None ->
  GenerateContent [Text prompt] = Candidates (Some content :: rest) ->
  Parts content <> [] ->
  result (RL.TrackTokens n clk (S (ticks admitted)) (state admitted)) = Some e ->
  let out := Send GenerateContent estimateTokenCount message clk t c in
  result out = inr e /\
  history (state out) = (history c ++ [mkContent [Text prompt] "user"; content])%list /\
  LastCommand (currentContext (state out)) = fst (extractCommandAndOutput content) /\
  CommandCount (currentContext (state out)) = GoInt.incr (CommandCount (currentContext c)) /\
  ErrorCount (currentContext (state out)) = ErrorCount (currentContext c).
Proof.
  intros admitted prompt n Hadm HG HP HT out. subst out admitted prompt n.
  destruct (RL.CheckLimit clk t (rateLimiter c)) as [[lim t1] r1] eqn:ECL.
  cbv beta iota delta [result ticks state fst snd] in Hadm, HT. subst lim.
  rewrite (Send_admitted _ _ _ _ _ _ _ _ ECL), HG.
  destruct (Parts content) as [|p ps]; [contradiction|].
  cbv zeta.
  destruct (RL.TrackTokens _ clk (S t1) r1) as [[tr t2] r2].
  cbv beta iota delta [result fst] in HT. subst tr.
  cbv beta iota delta [result state fst snd]. repeat split.
Qed.

(** *** The theorems at concrete inputs *)

Lemma Send_refused_witness :
  result (RL.CheckLimit later 0%nat (rateLimiter spentSession)) =
    Some (RL.refusal RL.fmtDaily 1000 1000 (Sub (24 * Hour) (later 2%nat)) true) /\
  result (Send backend0 estimate0 "list the files" later 0%nat spentSession) =
    inr (RL.refusal RL.fmtDaily 1000 1000 (Sub (24 * Hour) (later 2%nat)) true).
Proof.
  assert (H : result (RL.CheckLimit later 0%nat (rateLimiter spentSession)) =
              Some (RL.refusal RL.fmtDaily 1000 1000 (Sub (24 * Hour) (later 2%nat)) true))
    by (vm_compute; reflexivity).
  split; [exact H|].
  exact (proj1 (proj1 (Send_refused "list the files" later 0%nat spentSession) _ H
                  backend0 estimate0)).
Defined.

Lemma Send_error_accounting_witness :
  result (Send silent estimate0 "list the files" noon 0%nat session0) =
    inr (ErrExecutionf "no response generated") /\
  ((Type_ (ErrExecutionf "no response generated") = ErrRateLimit /\
    ErrorCount (currentContext (state (Send silent estimate0 "list the files" noon 0%nat session0)))
    = ErrorCount (currentContext session0)) \/
   (Type_ (ErrExecutionf "no response generated") = ErrExecution /\
    ErrorCount (currentContext (state (Send silent estimate0 "list the files" noon 0%nat session0)))
    = GoInt.incr (ErrorCount (currentContext session0)) /\
    history (state (Send silent estimate0 "list the files" noon 0%nat session0))
    = history session0 /\
    LastCommand (currentContext (state (Send silent estimate0 "list the files" noon 0%nat session0)))
    = LastCommand (currentContext session0) /\
    CommandCount (currentContext (state (Send silent estimate0 "list the files" noon 0%nat session0)))
    = CommandCount (currentContext session0) /\
    result (RL.CheckLimit noon 0%nat (rateLimiter session0)) = None /\
    rateLimiter (state (Send silent estimate0 "list the files" noon 0%nat session0))
    = state (RL.CheckLimit noon 0%nat (rateLimiter session0)))).
Proof.
  assert (H : result (Send silent estimate0 "list the files" noon 0%nat session0) =
              inr (ErrExecutionf "no response generated")) by (vm_compute; reflexivity).
  split; [exact H|].
  exact (Send_error_accounting silent estimate0 "list the files" noon 0%nat session0 _ H).
Defined.

Lemma Send_token_breach_witness :
  result (RL.CheckLimit noon 0%nat (rateLimiter session0)) = None /\
  backend0 [Text (addContext (currentContext session0) "list the files")] =
    Candidates [Some (reply answer)] /\
  Parts (reply answer) <> [] /\
  result (Send backend0 (fun _ => 450000) "list the files" noon 0%nat session0) =
    inr (ErrRateLimitf RL.fmtTokens [ArgInt 450000; ArgInt 450000]) /\
  LastCommand (currentContext
    (state (Send backend0 (fun _ => 450000) "list the files" noon 0%nat session0))) = "ls -la".
Proof.
  assert (H1 : result (RL.CheckLimit noon 0%nat (rateLimiter session0)) = None)
    by (vm_compute; reflexivity).
  assert (H2 : backend0 [Text (addContext (currentContext session0) "list the files")] =
               Candidates [Some (reply answer)]) by reflexivity.
  assert (H3 : Parts (reply answer) <> []) by discriminate.
  assert (H4 : result (RL.TrackTokens 450000 noon
                         (S (ticks (RL.CheckLimit noon 0%nat (rateLimiter session0))))
                         (state (RL.CheckLimit noon 0%nat (rateLimiter session0)))) =
               Some (ErrRateLimitf RL.fmtTokens [ArgInt 450000; ArgInt 450000]))
    by (vm_compute; reflexivity).
  repeat (split; [assumption|]).
  pose proof (Send_token_breach backend0 (fun _ => 450000) "list the files" noon 0%nat
                session0 (reply answer) [] _ H1 H2 H3 H4) as (Hr & _ & Hc & _).
  split; [exact Hr|]. rewrite Hc. vm_compute. reflexivity.
Defined.

End SendFailureProps.

(* ===================================================================== *)
(** ** Trimming, and the privilege check of the validator *)
(* ===================================================================== *)

Section TrimProps.

Import Strings.
Local Open Scope string_scope.
Local Open Scope nat_scope.

Lemma string_len_ind (P : string -> Prop) :
  (forall s, (forall s', String.length s' < String.length s -> P s') -> P s) ->
  forall s, P s.
Proof.
  intros H s. remember (String.length s) as n eqn:E. revert s E.
  induction n as [n IH] using lt_wf_ind. intros s ->. apply H.
  intros s' Hlt. exact (IH _ Hlt s' eq_refl).
Qed.

Lemma TrimLeftSpace_eq s :
  TrimLeftSpace s =
  match s with
  | EmptyString => s
  | String b1 s1 =>
      if asciiSpace b1 then TrimLeftSpace s1
      else match s1 with
           | EmptyString => s
           | String b2 s2 =>
               if space2 b1 b2 then TrimLeftSpace s2
               else match s2 with
                    | EmptyString => s
                    | String b3 s3 =>
                        if space3 b1 b2 b3 then TrimLeftSpace s3 else s
                    end
           end
  end.
Proof. destruct s; reflexivity. Qed.

Lemma TrimLeftSpaceRev_eq s :
  TrimLeftSpaceRev s =
  match s with
  | EmptyString => s
  | String b1 s1 =>
      if asciiSpace b1 then TrimLeftSpaceRev s1
      else match s1 with
           | EmptyString => s
           | String b2 s2 =>
               if space2 b2 b1 then TrimLeftSpaceRev s2
               else match s2 with
                    | EmptyString => s
                    | String b3 s3 =>
                        if space3 b3 b2 b1 then TrimLeftSpaceRev s3 else s
                    end
           end
  end.
Proof. destruct s; reflexivity. Qed.

Lemma TrimLeftSpace_clean s : startsSpace (TrimLeftSpace s) = false.
Proof.
  induction s as [s IH] using string_len_ind.
  rewrite TrimLeftSpace_eq.
  destruct s as [|b1 [|b2 [|b3 s3]]].
  - reflexivity.
  - destruct (asciiSpace b1) eqn:E1; [apply IH; cbn; lia|].
    cbn [startsSpace]. exact E1.
  - destruct (asciiSpace b1) eqn:E1; [apply IH; cbn; lia|].
    destruct (space2 b1 b2) eqn:E2; [apply IH; cbn; lia|].
    cbn [startsSpace]. rewrite E1, E2. reflexivity.
  - destruct (asciiSpace b1) eqn:E1; [apply IH; cbn; lia|].
    destruct (space2 b1 b2) eqn:E2; [apply IH; cbn; lia|].
    destruct (space3 b1 b2 b3) eqn:E3; [apply IH; cbn; lia|].
    cbn [startsSpace]. rewrite E1, E2, E3. reflexivity.
Qed.

Lemma TrimLeftSpace_fix s : startsSpace s = false -> TrimLeftSpace s = s.
Proof.
  rewrite TrimLeftSpace_eq.
  destruct s as [|b1 [|b2 [|b3 s3]]]; cbn [startsSpace]; intros H.
  - reflexivity.
  - rewrite H. reflexivity.
  - apply orb_false_iff in H as (-> & ->). reflexivity.
  - apply orb_false_iff in H as (H & ->). apply orb_false_iff in H as (-> & ->). reflexivity.
Qed.

Lemma TrimLeftSpaceRev_clean s : startsSpaceRev (TrimLeftSpaceRev s) = false.
Proof.
  induction s as [s IH] using string_len_ind.
  rewrite TrimLeftSpaceRev_eq.
  destruct s as [|b1 [|b2 [|b3 s3]]].
  - reflexivity.
  - destruct (asciiSpace b1) eqn:E1; [apply IH; cbn; lia|].
    cbn [startsSpaceRev]. exact E1.
  - destruct (asciiSpace b1) eqn:E1; [apply IH; cbn; lia|].
    destruct (space2 b2 b1) eqn:E2; [apply IH; cbn; lia|].
    cbn [startsSpaceRev]. rewrite E1, E2. reflexivity.
  - destruct (asciiSpace b1) eqn:E1; [apply IH; cbn; lia|].
    destruct (space2 b2 b1) eqn:E2; [apply IH; cbn; lia|].
    destruct (space3 b3 b2 b1) eqn:E3; [apply IH; cbn; lia|].
    cbn [startsSpaceRev]. rewrite E1, E2, E3. reflexivity.
Qed.

Lemma TrimLeftSpaceRev_fix s : startsSpaceRev s = false -> TrimLeftSpaceRev s = s.
Proof.
  rewrite TrimLeftSpaceRev_eq.
  destruct s as [|b1 [|b2 [|b3 s3]]]; cbn [startsSpaceRev]; intros H.
  - reflexivity.
  - rewrite H. reflexivity.
  - apply orb_false_iff in H as (-> & ->). reflexivity.
  - apply orb_false_iff in H as (H & ->). apply orb_false_iff in H as (-> & ->). reflexivity.
Qed.

Lemma TrimLeftSpaceRev_suffix s : exists pre, s = pre ++ TrimLeftSpaceRev s.
Proof.
  induction s as [s IH] using string_len_ind.
  rewrite TrimLeftSpaceRev_eq.
  destruct s as [|b1 s1]; [exists ""; reflexivity|].
  destruct (asciiSpace b1).
  { destruct (IH s1) as (pre & E); [cbn; lia|].
    exists (String b1 pre). cbn [append]. rewrite <- E. reflexivity. }
  destruct s1 as [|b2 s2]; [exists ""; reflexivity|].
  destruct (space2 b2 b1).
  { destruct (IH s2) as (pre & E); [cbn; lia|].
    exists (String b1 (String b2 pre)). cbn [append]. rewrite <- E. reflexivity. }
  destruct s2 as [|b3 s3]; [exists ""; reflexivity|].
  destruct (space3 b3 b2 b1).
  { destruct (IH s3) as (pre & E); [cbn; lia|].
    exists (String b1 (String b2 (String b3 pre))). cbn [append]. rewrite <- E. reflexivity. }
  exists "". reflexivity.
Qed.

Lemma append_nil_r (s : string) : s ++ "" = s.
Proof. induction s as [|c s IH]; cbn; [reflexivity|rewrite IH; reflexivity]. Qed.

Lemma rev_append (a b : string) : rev (a ++ b) = rev b ++ rev a.
Proof.
  induction a as [|c a IH]; cbn [append rev].
  - rewrite append_nil_r. reflexivity.
  - rewrite IH, append_assoc. reflexivity.
Qed.

Lemma rev_involutive (s : string) : rev (rev s) = s.
Proof.
  induction s as [|c s IH]; cbn [rev]; [reflexivity|].
  rewrite rev_append, IH. reflexivity.
Qed.

Lemma startsSpace_prefix (y z : string) :
  startsSpace (y ++ z) = false -> startsSpace y = false.
Proof.
  destruct y as [|b1 [|b2 [|b3 y3]]]; cbn [append startsSpace]; intros H.
  - reflexivity.
  - destruct z as [|c1 [|c2 z2]]; [exact H|..].
    + apply orb_false_iff in H as (H & _). exact H.
    + apply orb_false_iff in H as (H & _). apply orb_false_iff in H as (H & _). exact H.
  - destruct z as [|c1 z1]; [exact H|]. apply orb_false_iff in H as (H & _). exact H.
  - exact H.
Qed.

Lemma TrimRightSpace_idem (x : string) : TrimRightSpace (TrimRightSpace x) = TrimRightSpace x.
Proof.
  unfold TrimRightSpace. rewrite rev_involutive.
  rewrite (TrimLeftSpaceRev_fix _ (TrimLeftSpaceRev_clean (rev x))). reflexivity.
Qed.

Lemma TrimRightSpace_keeps_clean (x : string) :
  startsSpace x = false -> startsSpace (TrimRightSpace x) = false.
Proof.
  intros H. unfold TrimRightSpace.
  destruct (TrimLeftSpaceRev_suffix (rev x)) as (pre & E).
  apply (f_equal rev) in E. rewrite rev_involutive, rev_append in E.
  rewrite E in H. exact (startsSpace_prefix _ _ H).
Qed.

Lemma TrimSpace_idem (s : string) : TrimSpace (TrimSpace s) = TrimSpace s.
Proof.
  unfold TrimSpace.
  rewrite (TrimLeftSpace_fix (TrimRightSpace (TrimLeftSpace s))).
  - apply TrimRightSpace_idem.
  - apply TrimRightSpace_keeps_clean, TrimLeftSpace_clean.
Qed.

End TrimProps.

Section PrivilegeProps.

Import Strings Errors Safety.
Local Open Scope string_scope.

Variable GOOS : string.
Variable lower : string -> string.

Lemma IsPrivilegedOperation_trimmed command :
  IsPrivilegedOperation GOOS lower (TrimSpace command) =
  IsPrivilegedOperation GOOS lower command.
Proof. unfold IsPrivilegedOperation. rewrite TrimSpace_idem. reflexivity. Qed.

Lemma ValidateCommand_trimmed command :
  ValidateCommand GOOS lower (TrimSpace command) = ValidateCommand GOOS lower command.
Proof. unfold ValidateCommand. rewrite TrimSpace_idem. reflexivity. Qed.

(** The run of [ValidateCommand] on a command that is not blank and trips
    no entry of the deny list. *)
Lemma ValidateCommand_privilege command :
  TrimSpace command <> "" ->
  List.find (isDangerous lower (TrimSpace command)) dangerousCommands = None ->
  ValidateCommand GOOS lower command =
  if negb (String.eqb GOOS "windows") && negb (HasPrefix (TrimSpace command) "sudo ") &&
     (HasPrefix (TrimSpace command) "su " ||
      existsb (fun path => Contains (TrimSpace command) path) criticalPaths)
  then Some (ErrPermissionf "this command requires elevated privileges")
  else None.
Proof.
  intros Hne Hfind. unfold ValidateCommand.
  destruct (String.eqb_spec (TrimSpace command) ""); [contradiction|].
  rewrite Hfind. unfold IsPrivilegedOperation. rewrite TrimSpace_idem.
  destruct (HasPrefix (TrimSpace command) "sudo ");
    destruct (HasPrefix (TrimSpace command) "su ");
    destruct (String.eqb GOOS "windows");
    destruct (existsb _ adminCommands);
    destruct (existsb _ criticalPaths); reflexivity.
Qed.

End PrivilegeProps.

(** X11.  Trimming is idempotent, so the checks that trim their argument
    do not tell a command from the same command between blanks:
    [ValidateCommand], [IsPrivilegedOperation] and [isValidCommand] give
    the same answer for a command and for its trimmed form. *)
Theorem checks_ignore_surrounding_space (GOOS : string) (lower : string -> string)
        (command : string) :
  Strings.TrimSpace (Strings.TrimSpace command) = Strings.TrimSpace command /\
  Safety.ValidateCommand GOOS lower (Strings.TrimSpace command) =
    Safety.ValidateCommand GOOS lower command /\
  Safety.IsPrivilegedOperation GOOS lower (Strings.TrimSpace command) =
    Safety.IsPrivilegedOperation GOOS lower command /\
  Extract.isValidCommand (Strings.TrimSpace command) = Extract.isValidCommand command.
Proof.
  split; [apply TrimSpace_idem|].
  split; [apply ValidateCommand_trimmed|].
  split; [apply IsPrivilegedOperation_trimmed|].
  unfold Extract.isValidCommand. rewrite TrimSpace_idem. reflexivity.
Qed.

(** X12.  The privilege check of [ValidateCommand].  The error that asks
    for elevated privileges is returned exactly when the platform is not
    Windows and the trimmed command is not blank, trips no deny-list entry,
    does not start with [sudo ], and starts with [su ] or mentions a
    critical path.  So on Windows that error is never returned, on no
    platform does the list of Windows admin commands lead to it, and a
    command behind [sudo ] is accepted whenever the deny list lets it
    through. *)
Theorem privilege_check (GOOS : string) (lower : string -> string) (command : string) :
  let c := Strings.TrimSpace command in
  let elevated := Errors.ErrPermissionf "this command requires elevated privileges" in
  (Safety.ValidateCommand GOOS lower command = Some elevated <->
   c <> ""%string /\
   List.find (Safety.isDangerous lower c) Safety.dangerousCommands = None /\
   GOOS <> "windows"%string /\
   Strings.HasPrefix c "sudo " = false /\
   (Strings.HasPrefix c "su " = true \/
    existsb (fun path => Strings.Contains c path) Safety.criticalPaths = true)) /\
  (GOOS = "windows"%string -> Safety.ValidateCommand GOOS lower command <> Some elevated) /\
  (c <> ""%string ->
   List.find (Safety.isDangerous lower c) Safety.dangerousCommands = None ->
   Strings.HasPrefix c "sudo " = true ->
   Safety.ValidateCommand GOOS lower command = None).
Proof.
  intros c elevated.
  assert (Hiff :
    Safety.ValidateCommand GOOS lower command = Some elevated <->
    c <> ""%string /\
    List.find (Safety.isDangerous lower c) Safety.dangerousCommands = None /\
    GOOS <> "windows"%string /\
    Strings.HasPrefix c "sudo " = false /\
    (Strings.HasPrefix c "su " = true \/
     existsb (fun path => Strings.Contains c path) Safety.criticalPaths = true)).
  { destruct (String.eqb_spec c "") as [E|Hne].
    { split.
      - unfold Safety.ValidateCommand. fold c. rewrite E. cbn. discriminate.
      - intros (H & _). contradiction. }
    destruct (List.find (Safety.isDangerous lower c) Safety.dangerousCommands) as [d|] eqn:Hfind.
    { split.
      - rewrite (deny_list_fires GOOS lower command d Hne Hfind). cbn. discriminate.
      - intros (_ & H & _). discriminate. }
    rewrite (ValidateCommand_privilege GOOS lower command Hne Hfind). fold c.
    destruct (String.eqb_spec GOOS "windows") as [EW|NW]; cbn [negb andb].
    { split; [discriminate|]. intros (_ & _ & H & _). contradiction. }
    destruct (Strings.HasPrefix c "sudo "); cbn [negb andb].
    { split; [discriminate|]. intros (_ & _ & _ & H & _). discriminate. }
    destruct (Strings.HasPrefix c "su "); cbn [orb].
    { split; [|reflexivity]. intros _. repeat split; auto. }
    destruct (existsb _ Safety.criticalPaths).
    { split; [|reflexivity]. intros _. repeat split; auto. }
    split; [discriminate|]. intros (_ & _ & _ & _ & [H|H]); discriminate. }
  split; [exact Hiff|]. split.
  - intros EW H. apply Hiff in H. destruct H as (_ & _ & H & _). contradiction.
  - intros Hne Hfind Hsudo.
    rewrite (ValidateCommand_privilege GOOS lower command Hne Hfind). fold c.
    rewrite Hsudo. cbn [negb andb]. rewrite andb_false_r. reflexivity.
Qed.

(** *** The theorems at concrete inputs *)

Lemma privilege_check_witness :
  Strings.TrimSpace " sudo cat /etc/hosts " <> ""%string /\
  List.find (Safety.isDangerous (fun s => s) (Strings.TrimSpace " sudo cat /etc/hosts "))
            Safety.dangerousCommands = None /\
  Strings.HasPrefix (Strings.TrimSpace " sudo cat /etc/hosts ") "sudo " = true /\
  Safety.ValidateCommand "linux" (fun s => s) " sudo cat /etc/hosts " = None.
Proof.
  assert (H1 : Strings.TrimSpace " sudo cat /etc/hosts " <> ""%string)
    by (vm_compute; discriminate).
  assert (H2 : List.find (Safety.isDangerous (fun s => s)
                            (Strings.TrimSpace " sudo cat /etc/hosts "))
                         Safety.dangerousCommands = None) by (vm_compute; reflexivity).
  assert (H3 : Strings.HasPrefix (Strings.TrimSpace " sudo cat /etc/hosts ") "sudo " = true)
    by (vm_compute; reflexivity).
  repeat (split; [assumption|]).
  exact (proj2 (proj2 (privilege_check "linux" (fun s => s) " sudo cat /etc/hosts ")) H1 H2 H3).
Defined.

(* ===================================================================== *)
(** ** The command executor and the library's history *)
(* ===================================================================== *)

Section ExecutorProps.

Import GoTime Errors Clocked Exec.
Local Open Scope string_scope.

(** X13.  The shell is used exactly for the commands that pass
    [ValidateCommand].  For a command it rejects, [Execute] returns the
    validator's error and a record that holds the command, the text of that
    error, no output and exit code 0, and appends that record to the
    history; and [ValidateCommand] rejects the command exactly when the
    result and the history are the same whatever the operating system would
    do with it. *)
Theorem Execute_rejected_not_run
        (GOOS : string) (lower : string -> string)
        (command : string) (clk : Clock) (t : nat) (e : CommandExecutor) :
  (forall err, Safety.ValidateCommand GOOS lower command = Some err ->
     forall CombinedOutput,
       let record := mkCommandHistory command "" 0 (clk t) (clk (S t)) (Errors.Error err) in
       Execute GOOS lower CombinedOutput command clk t e =
         ((record, Some (Rejected err)), S (S t),
          mkCommandExecutor (history e ++ [record]) (sysInfo e))) /\
  (Safety.ValidateCommand GOOS lower command <> None <->
   forall CombinedOutput CombinedOutput',
     Execute GOOS lower CombinedOutput command clk t e =
     Execute GOOS lower CombinedOutput' command clk t e).
Proof.
  split; [|split].
  - intros err H CombinedOutput record. unfold Execute, bind, Now. rewrite H. reflexivity.
  - intros H CombinedOutput CombinedOutput'. unfold Execute, bind, Now.
    destruct (Safety.ValidateCommand GOOS lower command); [reflexivity|contradiction].
  - intros H EV.
    specialize (H (fun _ _ _ => ("a", None)) (fun _ _ _ => ("b", None))).
    unfold Execute, bind, Now in H. rewrite EV in H.
    cbv [get modify ret] in H.
    destruct (String.eqb GOOS "windows"); discriminate.
Qed.

(** X14.  Every call of [Execute] appends to the history exactly the
    record it returns, for the command as it was given, and leaves the
    system information alone.  When it returns no error, the command passed
    [ValidateCommand] and the record has no error text and exit code 0.  A
    record with another exit code is one of a command that passed
    [ValidateCommand] and that the shell of the platform, run in the
    working directory, ended with that code. *)
Theorem Execute_records_every_call
        (GOOS : string) (lower : string -> string)
        (CombinedOutput : string -> list string -> string -> string * option RunError)
        (command : string) (clk : Clock) (t : nat) (e : CommandExecutor) :
  let out := Execute GOOS lower CombinedOutput command clk t e in
  let record := fst (result out) in
  let run := if String.eqb GOOS "windows"
             then CombinedOutput "cmd" ["/C"; command] (Chat.SysWorkingDir (sysInfo e))
             else CombinedOutput "sh" ["-c"; command] (Chat.SysWorkingDir (sysInfo e)) in
  history (state out) = (history e ++ [record])%list /\
  sysInfo (state out) = sysInfo e /\
  Command record = command /\
  StartTime record = clk t /\ EndTime record = clk (S t) /\
  (snd (result out) = None ->
   Safety.ValidateCommand GOOS lower command = None /\
   Error_ record = Text "" /\ ExitCode record = 0) /\
  (ExitCode record <> 0 ->
   Safety.ValidateCommand GOOS lower command = None /\
   Output record = fst run /\
   exists text, snd run = Some (ExitError (ExitCode record) text) /\
                Error_ record = Text text).
Proof.
  cbv zeta. unfold Execute, bind, Now.
  destruct (Safety.ValidateCommand GOOS lower command) as [err|] eqn:EV.
  - cbv [modify ret result state get]. cbn [fst snd history sysInfo Command StartTime EndTime
                                            ExitCode Output Error_].
    repeat split; try reflexivity; try discriminate;
      match goal with F : ?x <> ?x |- _ => exfalso; apply F; reflexivity end.
  - cbv [get].
    destruct (if String.eqb GOOS "windows" then _ else _) as [output [[code text|text]|]];
      cbv [modify ret result state]; cbn [fst snd history sysInfo Command StartTime EndTime
                                           ExitCode Output Error_ option_map];
      repeat split; try discriminate; try reflexivity;
      try match goal with F : ?x <> ?x |- _ => exfalso; apply F; reflexivity end.
    exists text. split; reflexivity.
Qed.

(** *** The theorems at concrete inputs *)

Lemma Execute_rejected_not_run_witness :
  Safety.ValidateCommand "linux" (fun s => s) "cat /etc/passwd" =
    Some (ErrPermissionf "this command requires elevated privileges") /\
  Execute "linux" (fun s => s) (fun _ _ _ => ("root:x:0:0", None)) "cat /etc/passwd"
          noon 0%nat (mkCommandExecutor [] linuxBox) =
    ((mkCommandHistory "cat /etc/passwd" "" 0 (noon 0%nat) (noon 1%nat)
        (Errors.Error (ErrPermissionf "this command requires elevated privileges")),
      Some (Rejected (ErrPermissionf "this command requires elevated privileges"))),
     2%nat,
     mkCommandExecutor
       ([] ++ [mkCommandHistory "cat /etc/passwd" "" 0 (noon 0%nat) (noon 1%nat)
                 (Errors.Error (ErrPermissionf "this command requires elevated privileges"))])
       linuxBox).
Proof.
  assert (H : Safety.ValidateCommand "linux" (fun s => s) "cat /etc/passwd" =
              Some (ErrPermissionf "this command requires elevated privileges"))
    by (vm_compute; reflexivity).
  split; [exact H|].
  exact (proj1 (Execute_rejected_not_run "linux" (fun s => s) "cat /etc/passwd"
                  noon 0%nat (mkCommandExecutor [] linuxBox)) _ H
               (fun _ _ _ => ("root:x:0:0", None))).
Defined.

Lemma Execute_records_every_call_witness :
  ExitCode (fst (result (Execute "linux" (fun s => s)
                           (fun _ _ _ => ("ls: cannot access", Some (ExitError 2 "exit status 2")))
                           "ls /nonexistent" noon 0%nat (mkCommandExecutor [] linuxBox)))) <> 0 /\
  Safety.ValidateCommand "linux" (fun s => s) "ls /nonexistent" = None.
Proof.
  assert (H : ExitCode (fst (result (Execute "linux" (fun s => s)
                (fun _ _ _ => ("ls: cannot access", Some (ExitError 2 "exit status 2")))
                "ls /nonexistent" noon 0%nat (mkCommandExecutor [] linuxBox)))) <> 0)
    by (vm_compute; discriminate).
  split; [exact H|].
  exact (proj1 (proj2 (proj2 (proj2 (proj2 (proj2 (proj2
    (Execute_records_every_call "linux" (fun s => s)
       (fun _ _ _ => ("ls: cannot access", Some (ExitError 2 "exit status 2")))
       "ls /nonexistent" noon 0%nat (mkCommandExecutor [] linuxBox))))))) H)).
Defined.

End ExecutorProps.

Section TermaProps.

Import Errors Terma.
Local Open Scope string_scope.

Lemma containsPath_never cmd (paths : list string) :
  List.find (containsPath cmd) paths = None.
Proof. induction paths as [|p paths IH]; [reflexivity|exact IH]. Qed.

Lemma find_eqb_In cmd (l : list string) :
  (List.find (String.eqb cmd) l = None <-> ~ In cmd l) /\
  (forall x, List.find (String.eqb cmd) l = Some x -> x = cmd /\ In cmd l).
Proof.
  induction l as [|y l (IH1 & IH2)]; cbn [List.find In].
  - split; [tauto|discriminate].
  - destruct (String.eqb_spec cmd y) as [->|Hne].
    + split; [split; [discriminate|intros H; exfalso; apply H; left; reflexivity]|].
      intros x H. injection H as <-. split; [reflexivity|left; reflexivity].
    + split.
      * rewrite IH1. split; [intros H [E|E]; [congruence|contradiction]|tauto].
      * intros x H. destruct (IH2 x H) as (-> & Hin). split; [reflexivity|right; exact Hin].
Qed.

(** X15.  [Config.ValidateCommand] rejects a command exactly when it is,
    character for character, an entry of [DisallowedCommands]; the
    protected paths never lead to a rejection, since [containsPath] finds
    nothing, and the answer is the same with no protected path at all. *)
Theorem protected_paths_never_reject (c : Config) (cmd : string) :
  (ValidateCommand c cmd = None <-> ~ In cmd (DisallowedCommands c)) /\
  (forall e, ValidateCommand c cmd = Some e ->
             e = ErrPermissionf ("command is not allowed: " ++ cmd) /\
             In cmd (DisallowedCommands c)) /\
  ValidateCommand c cmd =
    ValidateCommand (mkConfig (HistorySize c) (DisallowedCommands c) []) cmd.
Proof.
  unfold ValidateCommand. cbn [DisallowedCommands ProtectedPaths].
  rewrite containsPath_never.
  destruct (find_eqb_In cmd (DisallowedCommands c)) as (H1 & H2).
  destruct (List.find (String.eqb cmd) (DisallowedCommands c)) as [x|].
  - destruct (H2 x eq_refl) as (_ & Hin). split; [|split; [|reflexivity]].
    + split; [discriminate|intros H; contradiction].
    + intros e H. injection H as <-. split; [reflexivity|exact Hin].
  - split; [|split; [discriminate|reflexivity]].
    split; [intros _; apply H1; reflexivity|reflexivity].
Qed.

Lemma keep_last_gen {A} (k : Z) (h : list A) (x : A) :
  (List.length h <= Z.to_nat k)%nat ->
  (if (k <? Z.of_nat (List.length (h ++ [x])))%Z then List.tl (h ++ [x]) else h ++ [x])%list
  = lastn (Z.to_nat k) (h ++ [x]).
Proof.
  intros H. rewrite length_app. cbn [List.length].
  destruct (Z.ltb_spec k (Z.of_nat (List.length h + 1))) as [G|G].
  - unfold lastn. rewrite length_app. cbn [List.length].
    replace (List.length h + 1 - Z.to_nat k)%nat with 1%nat by lia.
    destruct (h ++ [x])%list; reflexivity.
  - symmetry. apply lastn_all. rewrite length_app. cbn [List.length]. lia.
Qed.

(** X16.  The library's history is a bounded queue.  Starting from a
    history within [HistorySize], after any number of [addToHistory] it
    holds the last [HistorySize] records of what it held followed by what
    was added, in that order.  A history that is already at [HistorySize]
    or longer is not cut back: each [addToHistory] drops one record for the
    one it adds, and the length stays what it was. *)
Theorem addToHistory_bounded_queue (cmds : list Exec.CommandHistory) (t : Terma.Terma) :
  let t' := fold_left (fun t cmd => addToHistory cmd t) cmds t in
  config t' = config t /\
  ((List.length (history t) <= Z.to_nat (HistorySize (config t)))%nat ->
   history t' = lastn (Z.to_nat (HistorySize (config t))) (history t ++ cmds)) /\
  ((HistorySize (config t) <= Z.of_nat (List.length (history t)))%Z ->
   List.length (history t') = List.length (history t)).
Proof.
  revert t. induction cmds as [|cmd cmds IH]; intros t; cbn [fold_left].
  - split; [reflexivity|]. split; [|reflexivity].
    intros H. rewrite app_nil_r. symmetry. apply lastn_all. exact H.
  - destruct (IH (addToHistory cmd t)) as (Hc & Hq & Hl). cbv zeta in Hc, Hq, Hl.
    assert (Ec : config (addToHistory cmd t) = config t) by reflexivity.
    assert (Eh : history (addToHistory cmd t) =
                 (if (HistorySize (config t) <? Z.of_nat (List.length (history t ++ [cmd])))%Z
                  then List.tl (history t ++ [cmd]) else history t ++ [cmd])%list)
      by reflexivity.
    rewrite Ec in Hc, Hq, Hl.
    split; [exact Hc|]. split.
    + intros H. rewrite (keep_last_gen _ _ cmd H) in Eh.
      rewrite Hq by (rewrite Eh, lastn_length; lia).
      rewrite Eh, lastn_app_lastn, <- app_assoc. reflexivity.
    + intros H.
      assert (E : List.length (history (addToHistory cmd t)) = List.length (history t)).
      { rewrite Eh, length_app. cbn [List.length].
        destruct (Z.ltb_spec (HistorySize (config t)) (Z.of_nat (List.length (history t) + 1)));
          [|lia].
        destruct (history t ++ [cmd])%list eqn:E'.
        - apply (f_equal (@List.length _)) in E'. rewrite length_app in E'. cbn in E'. lia.
        - apply (f_equal (@List.length _)) in E'. rewrite length_app in E'. cbn in E'.
          cbn [List.tl]. lia. }
      rewrite Hl by (rewrite E; exact H). exact E.
Qed.

(** *** The theorems at concrete inputs *)

Lemma protected_paths_never_reject_witness :
  ~ In "rm -rf /etc" (DisallowedCommands DefaultConfig) /\
  ValidateCommand DefaultConfig "rm -rf /etc" = None.
Proof.
  assert (H : ~ In "rm -rf /etc" (DisallowedCommands DefaultConfig)).
  { cbn [DisallowedCommands DefaultConfig In].
    intros F. repeat (destruct F as [F|F]; [discriminate|]). exact F. }
  split; [exact H|].
  exact (proj2 (proj1 (protected_paths_never_reject DefaultConfig "rm -rf /etc")) H).
Defined.

Lemma addToHistory_bounded_queue_witness :
  (List.length (history (mkTerma (mkConfig 2 [] []) [])) <=
   Z.to_nat (HistorySize (config (mkTerma (mkConfig 2 [] []) []))))%nat /\
  history (fold_left (fun t cmd => addToHistory cmd t)
             [Exec.mkCommandHistory "pwd" "" 0 0 0 (Text "");
              Exec.mkCommandHistory "ls" "" 0 0 0 (Text "");
              Exec.mkCommandHistory "date" "" 0 0 0 (Text "")]
             (mkTerma (mkConfig 2 [] []) [])) =
    [Exec.mkCommandHistory "ls" "" 0 0 0 (Text "");
     Exec.mkCommandHistory "date" "" 0 0 0 (Text "")].
Proof.
  assert (H : (List.length (history (mkTerma (mkConfig 2 [] []) [])) <=
               Z.to_nat (HistorySize (config (mkTerma (mkConfig 2 [] []) []))))%nat)
    by (vm_compute; apply Nat.le_0_l).
  split; [exact H|].
  exact (proj1 (proj2 (addToHistory_bounded_queue
           [Exec.mkCommandHistory "pwd" "" 0 0 0 (Text "");
            Exec.mkCommandHistory "ls" "" 0 0 0 (Text "");
            Exec.mkCommandHistory "date" "" 0 0 0 (Text "")]
           (mkTerma (mkConfig 2 [] []) []))) H).
Defined.

End TermaProps.

(* ===================================================================== *)
(** ** The commands offered in interactive mode *)
(* ===================================================================== *)

Section SuggestionProps.

Import Strings Regexp Extract Main.
Local Open Scope string_scope.









(** *** The theorem at a concrete input *)


End SuggestionProps.

(* ===================================================================== *)
(** ** The file reader and the file attachments *)
(* ===================================================================== *)

Section FileProps.

Import Errors Strings Files.
Local Open Scope string_scope.

Variable GOOS : string.

Lemma dot_is_no_separator : IsPathSeparator GOOS "." = false.
Proof. unfold IsPathSeparator. destruct (String.eqb GOOS "windows"); reflexivity. Qed.

Lemma extScan_shape : forall back tail,
  allIn (plainByte GOOS) tail = true ->
  extScan GOOS back tail = "" \/
  exists mid, extScan GOOS back tail = String "." mid /\ allIn (plainByte GOOS) mid = true.
Proof.
  induction back as [|c back IH]; intros tail Ht; cbn [extScan]; [left; reflexivity|].
  destruct (IsPathSeparator GOOS c) eqn:Es; [left; reflexivity|].
  destruct (Ascii.eqb_spec c ".") as [->|Hd].
  - right. exists tail. split; [reflexivity|exact Ht].
  - apply IH. cbn [allIn]. apply andb_true_iff. split; [|exact Ht].
    unfold plainByte. rewrite Es. apply Ascii.eqb_neq in Hd. rewrite Hd. reflexivity.
Qed.

Lemma extScan_through : forall mid rest tail,
  allIn (plainByte GOOS) mid = true ->
  extScan GOOS (rev mid ++ rest) tail = extScan GOOS rest (mid ++ tail).
Proof.
  induction mid as [|c mid IH]; intros rest tail H; [reflexivity|].
  cbn [allIn] in H. apply andb_true_iff in H as (Hc & Hm).
  cbn [rev]. rewrite append_assoc. unfold str1. cbn [append].
  rewrite (IH _ _ Hm). cbn [extScan].
  unfold plainByte in Hc. apply andb_true_iff in Hc as (Hs & Hd).
  apply negb_true_iff in Hs, Hd. rewrite Hs, Hd. reflexivity.
Qed.

Lemma Ext_idem path : Ext GOOS (Ext GOOS path) = Ext GOOS path.
Proof.
  unfold Ext at 2 3.
  destruct (extScan_shape (rev path) "" eq_refl) as [->|(mid & -> & Hm)]; [reflexivity|].
  unfold Ext. cbn [rev].
  rewrite (extScan_through mid (str1 ".") "" Hm). cbn [str1 extScan].
  rewrite dot_is_no_separator. cbn. rewrite append_nil_r. reflexivity.
Qed.

Lemma determineFileType_of_path entries path :
  determineFileType GOOS entries (Ext GOOS path) = determineFileType GOOS entries path.
Proof. unfold determineFileType. rewrite Ext_idem. reflexivity. Qed.

Lemma NoDup_app_disjoint {A} (l1 l2 : list A) a :
  NoDup (l1 ++ l2) -> In a l1 -> In a l2 -> False.
Proof.
  induction l1 as [|x l1 IH]; cbn [List.app In]; intros Hnd H1 H2; [contradiction|].
  inversion Hnd as [|? ? Hx Hnd']; subst. destruct H1 as [->|H1].
  - apply Hx, in_or_app. right. exact H2.
  - exact (IH Hnd' H1 H2).
Qed.

Lemma in_concat_snd (entries : list (FileType * list string)) x e :
  In x entries -> In e (snd x) -> In e (List.concat (map snd entries)).
Proof.
  induction entries as [|y entries IH]; cbn [In map List.concat]; [contradiction|].
  intros [->|H] He; apply in_or_app; [left; exact He|right; apply IH; assumption].
Qed.

Lemma exclusive_unique entries : exclusive entries ->
  forall x y e, In x entries -> In y entries -> In e (snd x) -> In e (snd y) -> x = y.
Proof.
  unfold exclusive. induction entries as [|a entries IH]; cbn [map List.concat In];
    intros Hnd x y e Hx Hy Ex Ey; [contradiction|].
  destruct Hx as [->|Hx], Hy as [->|Hy].
  - reflexivity.
  - exfalso. exact (NoDup_app_disjoint _ _ e Hnd Ex (in_concat_snd _ _ _ Hy Ey)).
  - exfalso. exact (NoDup_app_disjoint _ _ e Hnd Ey (in_concat_snd _ _ _ Hx Ex)).
  - exact (IH (NoDup_app_remove_l _ _ Hnd) x y e Hx Hy Ex Ey).
Qed.

Lemma find_unique_perm {A} (p : A -> bool) (l l' : list A) :
  Permutation l l' ->
  (forall x y, In x l -> In y l -> p x = true -> p y = true -> x = y) ->
  List.find p l = List.find p l'.
Proof.
  induction 1 as [|a l l' HP IH|a b l|l l' l'' HP1 IH1 HP2 IH2]; intros U.
  - reflexivity.
  - cbn [List.find]. destruct (p a); [reflexivity|].
    apply IH. intros x y Hx Hy. apply U; right; assumption.
  - cbn [List.find]. destruct (p a) eqn:Ea, (p b) eqn:Eb; try reflexivity.
    f_equal. apply U; [left; reflexivity|right; left; reflexivity|assumption..].
  - rewrite IH1 by exact U. apply IH2.
    intros x y Hx Hy. apply U; apply (Permutation_in _ (Permutation_sym HP1)); assumption.
Qed.

Lemma existsb_eqb_In e (l : list string) : existsb (String.eqb e) l = true <-> In e l.
Proof.
  rewrite existsb_exists. split.
  - intros (x & Hin & E). apply String.eqb_eq in E. subst. exact Hin.
  - intros H. exists e. split; [exact H|apply String.eqb_refl].
Qed.

Lemma determineFileType_perm entries order ext :
  exclusive entries -> Permutation order entries ->
  determineFileType GOOS order ext = determineFileType GOOS entries ext.
Proof.
  intros Hex HP. unfold determineFileType.
  rewrite (find_unique_perm _ _ _ (Permutation_sym HP)); [reflexivity|].
  intros x y Hx Hy Px Py. apply existsb_eqb_In in Px, Py.
  exact (exclusive_unique _ Hex x y _ Hx Hy Px Py).
Qed.

Lemma default_exclusive : exclusive (AllowedTypes NewFileReader).
Proof.
  unfold exclusive. cbn [AllowedTypes NewFileReader map snd List.concat List.app].
  repeat (constructor; [cbn [In]; intros H; repeat (destruct H as [H|H]; [discriminate|]); exact H|]).
  constructor.
Qed.

(** X18.  The answer of [determineFileType] does not depend on the order
    in which the map is visited, as long as no extension is listed under
    two types, which holds for the map of [NewFileReader].  It is the same
    for a path and for the extension of that path, and it is a type exactly
    when the extension of the path is listed under that type; otherwise it
    is an input error. *)
Theorem determineFileType_order_free
        (entries order : list (FileType * list string)) (path : string) :
  exclusive entries -> Permutation order entries ->
  determineFileType GOOS order (Ext GOOS path) = determineFileType GOOS entries path /\
  determineFileType GOOS order path = determineFileType GOOS entries path /\
  (forall ty, determineFileType GOOS order path = inl ty <->
              exists exts, In (ty, exts) entries /\ In (Ext GOOS path) exts) /\
  (forall e, determineFileType GOOS order path = inr e -> Errors.Type_ e = ErrInput).
Proof.
  intros Hex HP.
  rewrite determineFileType_of_path, (determineFileType_perm _ _ path Hex HP).
  split; [reflexivity|]. split; [reflexivity|]. unfold determineFileType. split.
  - intros ty.
    destruct (List.find _ entries) as [entry|] eqn:E.
    + destruct (List.find_some _ _ E) as (Hin & Hp). apply existsb_eqb_In in Hp.
      split.
      * intros H. injection H as <-. exists (snd entry). split; [|exact Hp].
        destruct entry. exact Hin.
      * intros (exts & Hin' & He). f_equal.
        exact (f_equal fst (exclusive_unique _ Hex entry (ty, exts) _ Hin Hin' Hp He)).
    + split; [discriminate|]. intros (exts & Hin' & He). exfalso.
      pose proof (List.find_none _ _ E (ty, exts) Hin') as Hno. cbn [snd] in Hno.
      apply existsb_eqb_In in He. congruence.
  - intros e. destruct (List.find _ entries); [discriminate|].
    intros H. injection H as <-. reflexivity.
Qed.

Lemma media_kind path :
  In (Ext GOOS path) mediaExtensions ->
  exists ty, determineFileType GOOS (AllowedTypes NewFileReader) path = inl ty /\
             (ty = FileTypeAudio \/ ty = FileTypePDF \/ ty = FileTypeVideo).
Proof.
  unfold determineFileType, mediaExtensions. cbn [In].
  intros H. repeat (destruct H as [<-|H]; [eexists; split; [reflexivity|auto]|]).
  contradiction.
Qed.

Section Reader.

Variable Clean : string -> string.
Variable Base : string -> string.
Variable Stat : string -> FileInfo + string.
Variable osReadFile : string -> string + string.
Variable TypeByExtension : string -> string.
Variable visit : list (FileType * list string) -> list (FileType * list string).
Hypothesis visit_perm : forall entries, Permutation (visit entries) entries.

Lemma ReadFile_inv (fr : FileReader) path content :
  exclusive (AllowedTypes fr) ->
  ReadFile GOOS Clean Base Stat osReadFile TypeByExtension visit fr path = inl content ->
  exists info,
    HasPrefix (Clean path) (allowedBasePath fr) = true /\
    Stat path = inl info /\ (InfoSize info <= MaxSize fr)%Z /\
    Size content = InfoSize info /\ modified content = ModTime info /\
    osReadFile path = inl (Data content) /\
    extension content = Ext GOOS path /\
    determineFileType GOOS (AllowedTypes fr) path = inl (Type_ content) /\
    MimeType content <> "" /\ Name content = Base path.
Proof.
  intros Hex. unfold ReadFile.
  destruct (HasPrefix (Clean path) (allowedBasePath fr)); cbn [negb]; [|discriminate].
  destruct (Stat path) as [info|err]; [|discriminate].
  destruct (Z.ltb_spec (MaxSize fr) (InfoSize info)) as [G|G]; [discriminate|].
  rewrite determineFileType_of_path, (determineFileType_perm _ _ path Hex (visit_perm _)).
  destruct (determineFileType GOOS (AllowedTypes fr) path) as [ty|e]; [|discriminate].
  destruct (osReadFile path) as [data|err]; [|discriminate].
  intros H. injection H as <-. exists info.
  cbn [Size modified Data extension Type_ MimeType Name].
  repeat split; try reflexivity; try assumption.
  destruct (String.eqb_spec (TypeByExtension (Ext GOOS path)) ""); [discriminate|assumption].
Qed.

Lemma ReadFile_error_type (fr : FileReader) path e :
  ReadFile GOOS Clean Base Stat osReadFile TypeByExtension visit fr path = inr e ->
  Errors.Type_ e = ErrInput.
Proof.
  unfold ReadFile, determineFileType.
  destruct (negb _); [intros H; injection H as <-; reflexivity|].
  destruct (Stat path) as [info|err]; [|intros H; injection H as <-; reflexivity].
  destruct (Z.ltb _ _); [intros H; injection H as <-; reflexivity|].
  destruct (List.find _ _); [|intros H; injection H as <-; reflexivity].
  destruct (osReadFile path); [discriminate|intros H; injection H as <-; reflexivity].
Qed.

End Reader.

(** X19.  [ReadFile] on the reader of [NewFileReader].  The allowed base
    path is empty, so no path is ever refused as outside the allowed
    directory and the result does not depend on [filepath.Clean].  A content
    is returned only for a file that exists, is no larger than 100 MB, could
    be read and has a listed extension; it holds the data, the size, the
    extension, the type that extension is listed under, and a MIME type
    that is not empty.  Every error is an input error. *)
Theorem ReadFile_default_reader
        (Clean Base : string -> string) (Stat : string -> FileInfo + string)
        (osReadFile : string -> string + string) (TypeByExtension : string -> string)
        (visit : list (FileType * list string) -> list (FileType * list string))
        (path : string) :
  (forall entries, Permutation (visit entries) entries) ->
  let out := ReadFile GOOS Clean Base Stat osReadFile TypeByExtension visit
                      NewFileReader path in
  (forall Clean', ReadFile GOOS Clean' Base Stat osReadFile TypeByExtension visit
                           NewFileReader path = out) /\
  out <> inr (ErrInputf "path is outside allowed directory: %s" [ArgString path]) /\
  (forall content, out = inl content ->
     exists info,
       Stat path = inl info /\ (InfoSize info <= 100 * 1024 * 1024)%Z /\
       Size content = InfoSize info /\
       osReadFile path = inl (Data content) /\
       extension content = Ext GOOS path /\
       determineFileType GOOS (AllowedTypes NewFileReader) path = inl (Type_ content) /\
       MimeType content <> "" /\ Name content = Base path) /\
  (forall e, out = inr e -> Errors.Type_ e = ErrInput).
Proof.
  intros Hperm out. subst out. split; [reflexivity|]. split; [|split].
  - unfold ReadFile, determineFileType. cbn [allowedBasePath NewFileReader HasPrefix negb].
    destruct (Stat path) as [info|err]; [|discriminate].
    destruct (Z.ltb _ _); [discriminate|].
    destruct (List.find _ _); [|discriminate].
    destruct (osReadFile path); discriminate.
  - intros content H.
    destruct (ReadFile_inv Clean Base Stat osReadFile TypeByExtension visit Hperm
                NewFileReader path content default_exclusive H)
      as (info & _ & H1 & H2 & H3 & _ & H5 & H6 & H7 & H8 & H9).
    exists info. repeat split; assumption.
  - intros e. apply ReadFile_error_type.
Qed.

End FileProps.

Section AttachmentProps.

Import GoTime Errors Clocked Strings Extract Chat ChatFiles.
Local Open Scope string_scope.

Variable GOOS : string.
Variable Clean : string -> string.
Variable Base : string -> string.
Variable Stat : string -> Files.FileInfo + string.
Variable osReadFile : string -> string + string.
Variable TypeByExtension : string -> string.
Variable visit : list (Files.FileType * list string) -> list (Files.FileType * list string).
Variable GenerateContent : list Part -> Generated.
Variable estimateTokenCount : string -> Z.
Variable fileProcessor : Files.FileReader.

Lemma createPartFromContent_error content e :
  createPartFromContent content = inr e -> error_type e = ErrInput.
Proof.
  unfold createPartFromContent, extractTextFromPDF.
  destruct (Files.Type_ content); intros H; try discriminate; injection H as <-; reflexivity.
Qed.

Lemma createPartFromContent_media content :
  Files.Type_ content = Files.FileTypeAudio \/ Files.Type_ content = Files.FileTypePDF \/
  Files.Type_ content = Files.FileTypeVideo ->
  exists e, createPartFromContent content = inr e.
Proof.
  unfold createPartFromContent, extractTextFromPDF.
  intros [H|[H|H]]; rewrite H; eexists; reflexivity.
Qed.

Lemma processFiles_error_type files : forall parts processed total e,
  processFiles GOOS Clean Base Stat osReadFile TypeByExtension visit fileProcessor
               files parts processed total = inr e ->
  error_type e = ErrInput.
Proof.
  induction files as [|file files IH]; intros parts processed total e; cbn [processFiles];
    [discriminate|].
  destruct (Stat file) as [info|err]; [|intros H; injection H as <-; reflexivity].
  destruct (Files.ReadFile _ _ _ _ _ _ _ _ _) as [content|err];
    [|intros H; injection H as <-; reflexivity].
  destruct (Z.ltb _ _); [intros H; injection H as <-; reflexivity|].
  destruct (createPartFromContent content) as [part|err] eqn:EP.
  - apply IH.
  - intros H. injection H as <-. exact (createPartFromContent_error _ _ EP).
Qed.

(** The run of [SendWithFiles] once the limiter has admitted the request
    and the files were processed. *)
Lemma SendWithFiles_run message files clk t (c : Chat.Chat) :
  SendWithFiles GOOS Clean Base Stat osReadFile TypeByExtension visit GenerateContent
                estimateTokenCount fileProcessor message files clk t c =
  match RL.CheckLimit clk t (rateLimiter c) with
  | (Some err, t1, r1) =>
      (inr (Plain err), t1, mkChat (modelName c) r1 (history c) (currentContext c))
  | (None, t1, r1) =>
      let failed rendered :=
        (inr (Plain (ErrExecutionf rendered)), t1,
         mkChat (modelName c) r1 (history c)
           (set_ErrorCount (GoInt.incr (ErrorCount (currentContext c))) (currentContext c))) in
      match processFiles GOOS Clean Base Stat osReadFile TypeByExtension visit fileProcessor
                         files [Extract.Text (addContext (currentContext c) message)] [] 0 with
      | inr err => (inr err, t1, mkChat (modelName c) r1 (history c) (currentContext c))
      | inl (parts, processedFiles) =>
          match GenerateContent parts with
          | GenerateError err => failed ("failed to generate content: " ++ err)
          | Candidates [] => failed "no response generated"
          | Candidates (None :: _) => failed "empty response content"
          | Candidates (Some content :: _) =>
              let command := fst (extractCommandAndOutput content) in
              let fullOutput := snd (extractCommandAndOutput content) in
              let n := estimateTokenCount (message ++ fullOutput) in
              let ctx' := set_CommandCount (GoInt.incr (CommandCount (currentContext c)))
                            (set_LastModified (clk t1)
                               (set_LastCommand command (currentContext c))) in
              match RL.TrackTokens n clk (S t1) r1 with
              | (Some err, t2, r2) =>
                  (inr (Plain err), t2, mkChat (modelName c) r2 (history c) ctx')
              | (None, t2, r2) =>
                  (inl (mkFilesResponse
                          (mkResponse command fullOutput
                             (mkMetadata (modelName c) (clk t2) n (CommandCount ctx')
                                (ErrorCount ctx') (Sub (clk (S t2)) (SessionStart ctx'))))
                          processedFiles),
                   S (S t2), mkChat (modelName c) r2 (history c) ctx')
              end
          end
      end
  end.
Proof.
  unfold SendWithFiles, bind, onLimiter, zoom.
  destruct (RL.CheckLimit clk t (rateLimiter c)) as [[lim t1] r1].
  destruct lim as [e|]; [destruct c; reflexivity|].
  cbv [get]. cbn [rateLimiter currentContext set_rateLimiter].
  destruct (processFiles _ _ _ _ _ _ _ _ _ _ _ _) as [[parts processed]|err];
    [|destruct c; reflexivity].
  cbv zeta.
  destruct (GenerateContent parts) as [err|cands]; [reflexivity|].
  destruct cands as [|[content|] rest]; [reflexivity| |reflexivity].
  destruct (extractCommandAndOutput content) as [command fullOutput].
  cbv [modify onContext zoom Now ret bind].
  cbn [rateLimiter currentContext set_rateLimiter set_currentContext
       history modelName fst snd].
  match goal with
  | |- context [RL.TrackTokens ?n clk ?t' ?r] =>
      destruct (RL.TrackTokens n clk t' r) as [[tr t2] r2]
  end.
  destruct tr as [e|]; reflexivity.
Qed.

Hypothesis visit_perm : forall entries, Permutation (visit entries) entries.

Lemma processFiles_media_fails file files : forall parts processed total,
  In file files -> In (Files.Ext GOOS file) mediaExtensions ->
  exists e,
    processFiles GOOS Clean Base Stat osReadFile TypeByExtension visit Files.NewFileReader
                 files parts processed total = inr e /\
    error_type e = ErrInput.
Proof.
  induction files as [|f files IH]; intros parts processed total Hin Hmedia;
    [contradiction|].
  cbn [processFiles].
  destruct (Stat f) as [info|err]; [|eexists; split; reflexivity].
  destruct (Files.ReadFile _ _ _ _ _ _ _ _ _) as [content|err] eqn:ER;
    [|eexists; split; reflexivity].
  destruct (Z.ltb _ _); [eexists; split; reflexivity|].
  destruct (createPartFromContent content) as [part|err] eqn:EP.
  - destruct Hin as [->|Hin]; [|apply IH; assumption].
    exfalso.
    destruct (ReadFile_inv GOOS Clean Base Stat osReadFile TypeByExtension visit visit_perm
                Files.NewFileReader file content (default_exclusive) ER)
      as (_ & _ & _ & _ & _ & _ & _ & _ & Hty & _).
    destruct (media_kind GOOS file Hmedia) as (ty & Hk & Hm).
    rewrite Hk in Hty. injection Hty as ->.
    destruct (createPartFromContent_media content Hm) as (e & He). congruence.
  - exists err. split; [reflexivity|exact (createPartFromContent_error _ _ EP)].
Qed.

End AttachmentProps.

(** X20.  Audio, video and PDF files cannot be sent.  With the reader of
    [NewFileReader], when one of the files has an extension listed for
    audio, PDF or video, [SendWithFiles] returns an error whatever the files
    hold and whatever the model would answer: the limiter's refusal, or an
    input error.  The model is not consulted, and the history and the
    context are what they were. *)
Theorem SendWithFiles_rejects_media
        (GOOS : string) (Clean Base : string -> string)
        (Stat : string -> Files.FileInfo + string)
        (osReadFile : string -> string + string) (TypeByExtension : string -> string)
        (visit : list (Files.FileType * list string) -> list (Files.FileType * list string))
        (GenerateContent : list Extract.Part -> Chat.Generated)
        (estimateTokenCount : string -> Z)
        (message : string) (files : list string) (file : string)
        (clk : Clocked.Clock) (t : nat) (c : Chat.Chat) :
  (forall entries, Permutation (visit entries) entries) ->
  In file files -> In (Files.Ext GOOS file) mediaExtensions ->
  let out := ChatFiles.SendWithFiles GOOS Clean Base Stat osReadFile TypeByExtension visit
               GenerateContent estimateTokenCount Files.NewFileReader message files clk t c in
  (exists e, Clocked.result out = inr e /\
             (ChatFiles.error_type e = Errors.ErrRateLimit \/
              ChatFiles.error_type e = Errors.ErrInput)) /\
  Chat.history (Clocked.state out) = Chat.history c /\
  Chat.currentContext (Clocked.state out) = Chat.currentContext c /\
  forall GenerateContent' estimateTokenCount',
    ChatFiles.SendWithFiles GOOS Clean Base Stat osReadFile TypeByExtension visit
      GenerateContent' estimateTokenCount' Files.NewFileReader message files clk t c = out.
Proof.
  intros Hperm Hin Hmedia out. subst out. rewrite !SendWithFiles_run.
  pose proof (CheckLimit_error_type clk t (Chat.rateLimiter c)) as HT.
  destruct (RL.CheckLimit clk t (Chat.rateLimiter c)) as [[lim t1] r1] eqn:ECL.
  destruct lim as [e0|].
  - cbv beta iota delta [Clocked.result Clocked.state fst snd].
    cbn [Chat.history Chat.currentContext].
    split; [|split; [reflexivity|split; [reflexivity|]]].
    + exists (ChatFiles.Plain e0). split; [reflexivity|]. left. apply HT. reflexivity.
    + intros G' est'. rewrite SendWithFiles_run, ECL. reflexivity.
  - cbv zeta.
    destruct (processFiles_media_fails GOOS Clean Base Stat osReadFile TypeByExtension visit
                Hperm file files
                [Extract.Text (Chat.addContext (Chat.currentContext c) message)] [] 0%Z
                Hin Hmedia) as (e & He & Hty).
    rewrite He.
    cbv beta iota delta [Clocked.result Clocked.state fst snd].
    cbn [Chat.history Chat.currentContext].
    split; [|split; [reflexivity|split; [reflexivity|]]].
    + exists e. split; [reflexivity|right; exact Hty].
    + intros G' est'. rewrite SendWithFiles_run, ECL. cbv zeta. rewrite He. reflexivity.
Qed.

(** X21.  [SendWithFiles] never adds to the history, whether it fails or
    not.  When it returns a response, the last command is the command of
    the response, the command count is one more, the error count is what it
    was, and the tokens tracked are estimated on the message and the reply
    without the context lines.  When it fails, the error is the limiter's,
    an input error or an execution error, and the error count goes up only
    for an execution error. *)
Theorem SendWithFiles_session
        (GOOS : string) (Clean Base : string -> string)
        (Stat : string -> Files.FileInfo + string)
        (osReadFile : string -> string + string) (TypeByExtension : string -> string)
        (visit : list (Files.FileType * list string) -> list (Files.FileType * list string))
        (GenerateContent : list Extract.Part -> Chat.Generated)
        (estimateTokenCount : string -> Z) (fileProcessor : Files.FileReader)
        (message : string) (files : list string)
        (clk : Clocked.Clock) (t : nat) (c : Chat.Chat) :
  let out := ChatFiles.SendWithFiles GOOS Clean Base Stat osReadFile TypeByExtension visit
               GenerateContent estimateTokenCount fileProcessor message files clk t c in
  let ctx := Chat.currentContext c in
  let ctx' := Chat.currentContext (Clocked.state out) in
  Chat.history (Clocked.state out) = Chat.history c /\
  (forall resp, Clocked.result out = inl resp ->
     Chat.LastCommand ctx' = Chat.Code (ChatFiles.response resp) /\
     Chat.CommandCount ctx' = GoInt.incr (Chat.CommandCount ctx) /\
     Chat.ErrorCount ctx' = Chat.ErrorCount ctx /\
     Chat.tokens_used (Chat.Metadata_ (ChatFiles.response resp)) =
       estimateTokenCount (message ++ Chat.FullOutput (ChatFiles.response resp))%string) /\
  (forall e, Clocked.result out = inr e ->
     ((ChatFiles.error_type e = Errors.ErrRateLimit \/
       ChatFiles.error_type e = Errors.ErrInput) /\
      Chat.ErrorCount ctx' = Chat.ErrorCount ctx) \/
     (ChatFiles.error_type e = Errors.ErrExecution /\
      Chat.ErrorCount ctx' = GoInt.incr (Chat.ErrorCount ctx) /\
      Chat.LastCommand ctx' = Chat.LastCommand ctx)).
Proof.
  cbv zeta. rewrite SendWithFiles_run.
  pose proof (CheckLimit_error_type clk t (Chat.rateLimiter c)) as HT.
  destruct (RL.CheckLimit clk t (Chat.rateLimiter c)) as [[lim t1] r1].
  destruct lim as [e0|].
  { cbv beta iota delta [Clocked.result Clocked.state fst snd].
    cbn [Chat.history Chat.currentContext].
    split; [reflexivity|]. split; [discriminate|].
    intros e H. injection H as <-. left. split; [left; apply HT; reflexivity|reflexivity]. }
  cbv zeta.
  pose proof (processFiles_error_type GOOS Clean Base Stat osReadFile TypeByExtension visit
                fileProcessor files
                [Extract.Text (Chat.addContext (Chat.currentContext c) message)] [] 0%Z) as HP.
  destruct (ChatFiles.processFiles _ _ _ _ _ _ _ _ _ _ _ _) as [[parts processed]|err].
  2: { cbv beta iota delta [Clocked.result Clocked.state fst snd].
       cbn [Chat.history Chat.currentContext].
       split; [reflexivity|]. split; [discriminate|].
       intros e H. injection H as <-. left. split; [right; apply HP; reflexivity|reflexivity]. }
  destruct (GenerateContent parts) as [err|[|[content|] rest]].
  1, 2, 4: cbv beta iota delta [Clocked.result Clocked.state fst snd];
           cbn [Chat.history Chat.currentContext];
           (split; [reflexivity|]); (split; [discriminate|]);
           intros e H; injection H as <-; right; repeat split; reflexivity.
  match goal with
  | |- context [RL.TrackTokens ?n clk ?t' ?r] =>
      pose proof (TrackTokens_error_type n clk t' r) as HK;
      destruct (RL.TrackTokens n clk t' r) as [[tr t2] r2]
  end.
  destruct tr as [e1|]; cbv beta iota delta [Clocked.result Clocked.state fst snd] in *;
    cbn [Chat.history Chat.currentContext].
  - split; [reflexivity|]. split; [discriminate|].
    intros e H. injection H as <-. left. split; [left; apply HK; reflexivity|reflexivity].
  - split; [reflexivity|]. split; [|discriminate].
    intros resp H. injection H as <-. repeat split.
Qed.

(** *** The theorems at concrete inputs *)

Lemma determineFileType_order_free_witness :
  exclusive (Files.AllowedTypes Files.NewFileReader) /\
  Permutation (List.rev (Files.AllowedTypes Files.NewFileReader))
              (Files.AllowedTypes Files.NewFileReader) /\
  Files.determineFileType "linux" (List.rev (Files.AllowedTypes Files.NewFileReader))
                          "/home/dev/notes.v2.md" = inl Files.FileTypeText.
Proof.
  assert (H1 : exclusive (Files.AllowedTypes Files.NewFileReader)).
  { unfold exclusive.
    cbn [Files.AllowedTypes Files.NewFileReader map snd List.concat List.app].
    repeat (constructor;
            [cbn [In]; intros H; repeat (destruct H as [H|H]; [discriminate|]); exact H|]).
    constructor. }
  assert (H2 : Permutation (List.rev (Files.AllowedTypes Files.NewFileReader))
                           (Files.AllowedTypes Files.NewFileReader))
    by (apply Permutation_sym, Permutation_rev).
  split; [exact H1|]. split; [exact H2|].
  rewrite (proj1 (proj2 (determineFileType_order_free "linux" _ _ "/home/dev/notes.v2.md"
                           H1 H2))).
  vm_compute. reflexivity.
Defined.

Lemma ReadFile_default_reader_witness :
  (forall entries, Permutation (inOrder entries) entries) /\
  Files.ReadFile "linux" (fun p => p) (fun p => p) disk diskData (fun _ => ""%string)
                 inOrder Files.NewFileReader "notes.txt" =
    inl (Files.mkFileContent Files.FileTypeText "hello" "application/octet-stream"
           "notes.txt" 5 ".txt" 0) /\
  exists info,
    disk "notes.txt" = inl info /\ (Files.InfoSize info <= 100 * 1024 * 1024)%Z /\
    5 = Files.InfoSize info /\
    diskData "notes.txt" = inl "hello"%string /\
    ".txt"%string = Files.Ext "linux" "notes.txt" /\
    Files.determineFileType "linux" (Files.AllowedTypes Files.NewFileReader) "notes.txt" =
      inl Files.FileTypeText /\
    "application/octet-stream"%string <> ""%string /\ "notes.txt"%string = "notes.txt"%string.
Proof.
  assert (H : forall entries, Permutation (inOrder entries) entries)
    by (intros entries; apply Permutation_refl).
  assert (H' : Files.ReadFile "linux" (fun p => p) (fun p => p) disk diskData
                 (fun _ => ""%string) inOrder Files.NewFileReader "notes.txt" =
               inl (Files.mkFileContent Files.FileTypeText "hello" "application/octet-stream"
                      "notes.txt" 5 ".txt" 0)) by (vm_compute; reflexivity).
  split; [exact H|]. split; [exact H'|].
  exact (proj1 (proj2 (proj2
    (ReadFile_default_reader "linux" (fun p => p) (fun p => p) disk diskData (fun _ => ""%string)
       inOrder "notes.txt" H))) _ H').
Defined.

Lemma SendWithFiles_rejects_media_witness :
  (forall entries, Permutation (inOrder entries) entries) /\
  In "song.mp3"%string ["song.mp3"%string] /\
  In (Files.Ext "linux" "song.mp3") mediaExtensions /\
  Chat.history (Clocked.state
    (ChatFiles.SendWithFiles "linux" (fun p => p) (fun p => p) disk diskData
       (fun _ => ""%string) inOrder backend0 estimate0 Files.NewFileReader
       "what is this" ["song.mp3"%string] noon 0%nat session0)) = Chat.history session0.
Proof.
  assert (H1 : forall entries, Permutation (inOrder entries) entries)
    by (intros entries; apply Permutation_refl).
  assert (H2 : In "song.mp3"%string ["song.mp3"%string]) by (left; reflexivity).
  assert (H3 : In (Files.Ext "linux" "song.mp3") mediaExtensions) by (left; reflexivity).
  repeat (split; [assumption|]).
  exact (proj1 (proj2 (SendWithFiles_rejects_media "linux" (fun p => p) (fun p => p) disk
                         diskData (fun _ => ""%string) inOrder backend0 estimate0
                         "what is this" ["song.mp3"%string] "song.mp3" noon 0%nat session0
                         H1 H2 H3))).
Defined.

Lemma SendWithFiles_session_witness :
  Clocked.result
    (ChatFiles.SendWithFiles "linux" (fun p => p) (fun p => p) disk diskData
       (fun _ => ""%string) inOrder backend0 estimate0 Files.NewFileReader
       "what does it say" ["notes.txt"%string] noon 0%nat session0) =
    inl (ChatFiles.mkFilesResponse
           (Chat.mkResponse "ls -la" answer (Chat.mkMetadata "gemini-1.5-pro" 0 25 1 0 0))
           ["notes.txt"%string]) /\
  Chat.history (Clocked.state
    (ChatFiles.SendWithFiles "linux" (fun p => p) (fun p => p) disk diskData
       (fun _ => ""%string) inOrder backend0 estimate0 Files.NewFileReader
       "what does it say" ["notes.txt"%string] noon 0%nat session0)) = Chat.history session0 /\
  Chat.LastCommand (Chat.currentContext (Clocked.state
    (ChatFiles.SendWithFiles "linux" (fun p => p) (fun p => p) disk diskData
       (fun _ => ""%string) inOrder backend0 estimate0 Files.NewFileReader
       "what does it say" ["notes.txt"%string] noon 0%nat session0))) = "ls -la"%string.
Proof.
  assert (H : Clocked.result
    (ChatFiles.SendWithFiles "linux" (fun p => p) (fun p => p) disk diskData
       (fun _ => ""%string) inOrder backend0 estimate0 Files.NewFileReader
       "what does it say" ["notes.txt"%string] noon 0%nat session0) =
    inl (ChatFiles.mkFilesResponse
           (Chat.mkResponse "ls -la" answer (Chat.mkMetadata "gemini-1.5-pro" 0 25 1 0 0))
           ["notes.txt"%string])) by (vm_compute; reflexivity).
  pose proof (SendWithFiles_session "linux" (fun p => p) (fun p => p) disk diskData
                (fun _ => ""%string) inOrder backend0 estimate0 Files.NewFileReader
                "what does it say" ["notes.txt"%string] noon 0%nat session0) as (Hh & Hs & _).
  split; [exact H|]. split; [exact Hh|].
  exact (proj1 (Hs _ H)).
Defined.
